(** * The resilient request-dispatch layer of ai-suite

    A shallow embedding of the backend's retrying dispatcher
    ([fetchWithRetry]), rate-limit tracker ([parseRateLimitHeaders]),
    failover endpoint, HuggingFace-to-Featherless model rewrite, streaming
    relay, and of the stream readers of the frontend ([chatStream]) and of
    the Featherless adapter, with the properties the specification states
    about them. *)

From Stdlib Require Import ZArith QArith Qpower Qminmax Lia Bool Ascii String.
From stdpp Require Import gmap strings list.
From Equations Require Import Equations.

(** ** JavaScript strings

    A JavaScript string is modelled as a [string] of 8-bit code units.  The
    markers the code looks for (line feed, the [data: ] prefix, the
    sentinel, the model suffix) are ASCII, and an ASCII byte never occurs
    inside a multi-byte UTF-8 sequence, so searching and splitting bytes
    agrees with searching and splitting the decoded text. *)
Module Js.

(** The line feed and the double quote, by code. *)
Definition LF : ascii := "010"%char.
Definition DQUOTE : ascii := "034"%char.

(** [s.startsWith(p)] *)
Fixpoint startsWith (s p : string) {struct p} : bool :=
  match p, s with
  | EmptyString, _ => true
  | String _ _, EmptyString => false
  | String a p', String b s' => Ascii.eqb a b && startsWith s' p'
  end.

(** [s.includes(sub)]: [sub] starts at some position of [s]. *)
Fixpoint includes (s sub : string) : bool :=
  startsWith s sub ||
  match s with
  | EmptyString => false
  | String _ r => includes r sub
  end.

(** [s.slice(n)] for [0 <= n]: the string without its first [n] units. *)
Fixpoint slice (n : nat) (s : string) : string :=
  match n, s with
  | O, _ => s
  | S _, EmptyString => EmptyString
  | S k, String _ r => slice k r
  end.

(** Number of positions of [s] at which [sub] starts. *)
Fixpoint occurrences (s sub : string) : nat :=
  (if startsWith s sub then 1 else 0) +
  match s with
  | EmptyString => 0
  | String _ r => occurrences r sub
  end.

(** [s.split('\n')]: the pieces between line feeds, never an empty list. *)
Fixpoint split (s : string) : list string :=
  match s with
  | EmptyString => [EmptyString]
  | String c r =>
      if Ascii.eqb c LF then EmptyString :: split r
      else match split r with
           | h :: t => String c h :: t
           | [] => [String c EmptyString]
           end
  end.

Fixpoint trimStart (s : string) : string :=
  match s with
  | String c r => if Ascii.is_space c then trimStart r else s
  | EmptyString => s
  end.

Fixpoint trimEnd (s : string) : string :=
  match s with
  | EmptyString => EmptyString
  | String c r =>
      match trimEnd r with
      | EmptyString => if Ascii.is_space c then EmptyString else String c EmptyString
      | r' => String c r'
      end
  end.

(** [s.trim()], for the ASCII white space. *)
Definition trim (s : string) : string := trimEnd (trimStart s).

(** Whether the code unit [x] occurs in [p]. *)
Fixpoint hasUnit (x : ascii) (p : string) : bool :=
  match p with
  | EmptyString => false
  | String a p' => Ascii.eqb a x || hasUnit x p'
  end.

(** A string is truthy when it is not empty. *)
Definition truthy (s : string) : bool :=
  match s with EmptyString => false | String _ _ => true end.

End Js.

(** ** HuggingFace-to-Featherless routing: the model rewrite *)

Definition FEATHERLESS_SUFFIX : string := ":featherless-ai".

(** [let model = req.body.model;
     if (!model.includes(':featherless-ai')) model = `${model}:featherless-ai`;] *)
Definition routeModel (model : string) : string :=
  if negb (Js.includes model FEATHERLESS_SUFFIX)
  then model +:+ FEATHERLESS_SUFFIX
  else model.

(** ** JSON values and the JavaScript operations applied to them *)

#[warnings="-register-all"]
Inductive Json : Type :=
| JNull
| JBool (b : bool)
| JNumber (q : Q)
| JString (s : string)
| JArray (items : list Json)
| JObject (members : list (string * Json)).

(** The errors the modelled code can raise. *)
Inductive JsError : Type :=
| NetworkError (message : string)   (* [fetch] rejected *)
| SyntaxError                       (* [JSON.parse] / [response.json()] failed *)
| TypeError                         (* property of null, call of a non-function *)
| ErrorMsg (message : string)       (* [new Error(message)] *)
| ErrorOf (detail : Json)           (* [new Error(v)] for a parsed value [v] *)
| HttpError (what : string) (status : Z)   (* [new Error(`${what} ${status}`)] *).

Module JsValue.

(** The last member of a parsed object wins when a key is repeated. *)
Fixpoint member (k : string) (ms : list (string * Json)) : option Json :=
  match ms with
  | [] => None
  | (k', v) :: rest =>
      match member k rest with
      | Some v' => Some v'
      | None => if String.eqb k' k then Some v else None
      end
  end.

(** [v.k] for a value [v] that is neither null nor undefined and a key
    that no prototype defines: [None] is [undefined]. *)
Definition prop (v : Json) (k : string) : option Json :=
  match v with
  | JObject ms => member k ms
  | _ => None
  end.

(** [v?.k] where [v] may be undefined ([None]) or null. *)
Definition optProp (v : option Json) (k : string) : option Json :=
  match v with
  | None | Some JNull => None
  | Some v' => prop v' k
  end.

(** [v?.[0]]: the first item of an array, the member [0] of an object,
    the first unit of a string. *)
Definition optFirst (v : option Json) : option Json :=
  match v with
  | Some (JArray items) => head items
  | Some (JObject ms) => member "0" ms
  | Some (JString (String c _)) => Some (JString (String c EmptyString))
  | _ => None
  end.

(** Truthiness of a value that may be undefined. *)
Definition truthy (v : option Json) : bool :=
  match v with
  | None | Some JNull => false
  | Some (JBool b) => b
  | Some (JNumber q) => negb (Qeq_bool q 0)
  | Some (JString s) => Js.truthy s
  | Some (JArray _) | Some (JObject _) => true
  end.

Definition isString (needle : string) (v : Json) : bool :=
  match v with
  | JString s => String.eqb s needle
  | _ => false
  end.

(** [m.includes(needle)] for a value [m] that is neither null nor
    undefined: the string method on a string, the array method on an
    array, and a TypeError ([None]) on anything else, which has no
    callable [includes]. *)
Definition callIncludes (m : Json) (needle : string) : option bool :=
  match m with
  | JString s => Some (Js.includes s needle)
  | JArray items => Some (existsb (isString needle) items)
  | _ => None
  end.

(** [m?.includes(needle)] as a condition. *)
Definition optIncludes (m : option Json) (needle : string) : option bool :=
  match m with
  | None | Some JNull => Some false
  | Some m' => callIncludes m' needle
  end.

End JsValue.

(** ** parseInt

    [parseInt(s)] without a radix: leading white space, an optional sign,
    an optional [0x] prefix, then the longest run of digits; [None] is NaN.
    The result is exact, where JavaScript rounds integers beyond 2^53. *)
Module ParseInt.

Definition digit (radix : Z) (c : ascii) : option Z :=
  let n := Z.of_nat (nat_of_ascii c) in
  let d :=
    if (48 <=? n)%Z && (n <=? 57)%Z then Some (n - 48)%Z
    else if (97 <=? n)%Z && (n <=? 122)%Z then Some (n - 87)%Z
    else if (65 <=? n)%Z && (n <=? 90)%Z then Some (n - 55)%Z
    else None in
  match d with
  | Some v => if (v <? radix)%Z then Some v else None
  | None => None
  end.

Fixpoint digits (radix : Z) (acc : option Z) (s : string) : option Z :=
  match s with
  | EmptyString => acc
  | String c r =>
      match digit radix c with
      | Some d => digits radix (Some (default 0%Z acc * radix + d)%Z) r
      | None => acc
      end
  end.

Fixpoint skipSpace (s : string) : string :=
  match s with
  | String c r => if Ascii.is_space c then skipSpace r else s
  | EmptyString => s
  end.

Definition unsigned (s : string) : option Z :=
  match s with
  | String "0" (String x r) =>
      if Ascii.eqb x "x" || Ascii.eqb x "X"
      then digits 16 None r
      else digits 10 None s
  | _ => digits 10 None s
  end.

Definition parseInt (s : string) : option Z :=
  match skipSpace s with
  | String "-" r => Z.opp <$> unsigned r
  | String "+" r => unsigned r
  | r => unsigned r
  end.

End ParseInt.

Abbreviation parseInt := ParseInt.parseInt.

(** ** Responses and headers *)

(** A header list as received; names compare without regard to case. *)
Definition Headers : Type := list (string * string).

Module Hdr.

Definition lowerUnit (c : ascii) : ascii :=
  let n := nat_of_ascii c in
  if (65 <=? n) && (n <=? 90) then ascii_of_nat (n + 32) else c.

Definition upperUnit (c : ascii) : ascii :=
  let n := nat_of_ascii c in
  if (97 <=? n) && (n <=? 122) then ascii_of_nat (n - 32) else c.

Fixpoint mapUnits (f : ascii -> ascii) (s : string) : string :=
  match s with
  | EmptyString => EmptyString
  | String c r => String (f c) (mapUnits f r)
  end.

Definition toLowerCase : string -> string := mapUnits lowerUnit.
Definition toUpperCase : string -> string := mapUnits upperUnit.

Definition sameName (a b : string) : bool :=
  String.eqb (toLowerCase a) (toLowerCase b).

Fixpoint joinValues (vs : list string) : string :=
  match vs with
  | [] => EmptyString
  | [v] => v
  | v :: rest => v +:+ ", " +:+ joinValues rest
  end.

(** [headers.get(name)]: the values of every header of that name, joined
    by a comma and a space; [None] is null. *)
Definition get (h : Headers) (name : string) : option string :=
  match List.filter (fun kv => sameName kv.1 name) h with
  | [] => None
  | kvs => Some (joinValues (kvs.*2))
  end.

(** The same headers with every name in lower case. *)
Definition lowerNames (h : Headers) : Headers :=
  map (fun kv => (toLowerCase kv.1, kv.2)) h.

(** [a || b] on values that are a string or null. *)
Definition orElse (a b : option string) : option string :=
  match a with
  | Some s => if Js.truthy s then a else b
  | None => b
  end.

(** Truthiness of a string or null. *)
Definition truthy (a : option string) : bool :=
  match a with
  | Some s => Js.truthy s
  | None => false
  end.

End Hdr.

Fixpoint concatText (reads : list string) : string :=
  match reads with
  | [] => EmptyString
  | chunk :: rest => chunk +:+ concatText rest
  end.

(** A response: [body] is [None] when [response.body] is null, and
    otherwise the decoded text of each read of the body stream, in order. *)
Record Response : Type := mkResponse {
  status : Z;
  headers : Headers;
  body : option (list string)
}.

(** [response.ok] *)
Definition ok (r : Response) : bool := (200 <=? status r)%Z && (status r <=? 299)%Z.

(** [await response.text()] *)
Definition text (r : Response) : string :=
  match body r with
  | Some reads => concatText reads
  | None => EmptyString
  end.

(** What [fetch] settles to. *)
Inductive FetchResult : Type :=
| Resolved (response : Response)
| Rejected (error : JsError).

(** ** Rate-limit tracking *)

Record RateLimitInfo : Type := mkRateLimitInfo {
  limit : option Z;              (* [None] is NaN, as [parseInt] gives it *)
  remaining : option Z;
  reset : option Z
}.

(** [reset ? parseInt(reset) * 1000 : Date.now() + 60000] *)
Definition resetOf (reset : option string) (now : Z) : option Z :=
  match reset with
  | Some t =>
      if Js.truthy t
      then (fun n => n * 1000)%Z <$> parseInt t
      else Some (now + 60000)%Z
  | None => Some (now + 60000)%Z
  end.

(** [parseRateLimitHeaders(headers, provider)], with the shared
    [rateLimits] map and the value of [Date.now()] made explicit. *)
Definition parseRateLimitHeaders (headers : Headers) (provider : string)
    (now : Z) (rateLimits : gmap string RateLimitInfo)
  : gmap string RateLimitInfo :=
  let limit := Hdr.orElse (Hdr.get headers "x-ratelimit-limit")
                          (Hdr.get headers "X-RateLimit-Limit") in
  let remaining := Hdr.orElse (Hdr.get headers "x-ratelimit-remaining")
                              (Hdr.get headers "X-RateLimit-Remaining") in
  let reset := Hdr.orElse (Hdr.get headers "x-ratelimit-reset")
                          (Hdr.get headers "X-RateLimit-Reset") in
  match limit, remaining with
  | Some l, Some r =>
      if Js.truthy l && Js.truthy r then
        <[ provider :=
             {| limit := parseInt l;
                remaining := parseInt r;
                reset := resetOf reset now |} ]> rateLimits
      else rateLimits
  | _, _ => rateLimits
  end.

(** ** The provider registry *)

Record Features : Type := mkFeatures {
  vision : bool;
  imageGen : bool;
  functionCalling : bool;
  webSearch : bool;
  coldStarts : bool
}.

(** A provider's entry, without its header builder and its list of vision
    models, which no property below reads. *)
Record ProviderConfig : Type := mkProviderConfig {
  baseUrl : string;
  features : Features
}.

Definition PROVIDERS : list (string * ProviderConfig) :=
  [ ("openrouter",
     mkProviderConfig "https://openrouter.ai/api/v1"
       (mkFeatures true true true false false));
    ("huggingface",
     mkProviderConfig "https://router.huggingface.co/v1"
       (mkFeatures true true false false true));
    ("featherless",
     mkProviderConfig "https://api.featherless.ai/v1"
       (mkFeatures true false false false true));
    ("venice",
     mkProviderConfig "https://api.venice.ai/api/v1"
       (mkFeatures true true false true false));
    ("together",
     mkProviderConfig "https://api.together.xyz/v1"
       (mkFeatures true true true false false)) ].

(** [PROVIDERS[provider]] for the registry's own keys. *)
Fixpoint lookupKey {A : Type} (k : string) (table : list (string * A)) : option A :=
  match table with
  | [] => None
  | (k', v) :: rest => if String.eqb k' k then Some v else lookupKey k rest
  end.

(** [provider === 'huggingface' ? 'HF_TOKEN' : `${provider.toUpperCase()}_API_KEY`] *)
Definition envKey (provider : string) : string :=
  if String.eqb provider "huggingface" then "HF_TOKEN"
  else Hdr.toUpperCase provider +:+ "_API_KEY".

Definition FAILOVER_CHAINS : list (string * list (string * string)) :=
  [ ("gpt-4-class",
     [ ("openrouter", "openai/gpt-4o");
       ("together", "meta-llama/Llama-3.3-70B-Instruct-Turbo") ]);
    ("claude-class",
     [ ("openrouter", "anthropic/claude-3-sonnet");
       ("venice", "qwen3-235b") ]);
    ("llama-70b-class",
     [ ("together", "meta-llama/Llama-3.3-70B-Instruct-Turbo");
       ("featherless", "meta-llama/Meta-Llama-3.1-70B-Instruct");
       ("openrouter", "meta-llama/llama-3.1-70b-instruct") ]) ].

(** ** Stream reading: what both readers share *)

(** What a reader does with one complete line. *)
Inductive LineStep (A : Type) : Type :=
| Skip
| Emit (a : A)
| Stop.
Arguments Skip {A}.
Arguments Emit {A} a.
Arguments Stop {A}.

(** The [for (const line of lines)] loop: what it yields, and whether it
    ended the generator. *)
Fixpoint forLines {A : Type} (handle : string -> LineStep A) (lines : list string)
  : list A * bool :=
  match lines with
  | [] => ([], false)
  | line :: rest =>
      match handle line with
      | Skip => forLines handle rest
      | Emit a => let '(ys, stopped) := forLines handle rest in (a :: ys, stopped)
      | Stop => ([], true)
      end
  end.

(** The [while (true)] loop over the reads of the body:
    [buffer += chunk; lines = buffer.split('\n'); buffer = lines.pop() || '']
    and then the loop over [lines].  The reads end with [done]. *)
Fixpoint readLines {A : Type} (handle : string -> LineStep A) (buffer : string)
    (reads : list string) : list A :=
  match reads with
  | [] => []
  | chunk :: rest =>
      let lines := Js.split (buffer +:+ chunk) in
      let '(ys, stopped) := forLines handle (removelast lines) in
      if stopped then ys
      else ys ++ readLines handle (List.last lines EmptyString) rest
  end.

(** The complete lines of a text and the partial line after the last line
    feed: what [split] followed by [pop] leaves in [lines] and [buffer]. *)
Definition cut (s : string) : list string * string :=
  (removelast (Js.split s), List.last (Js.split s) EmptyString).

(** ** The streaming relay of the backend *)

Definition KEEP_ALIVE : string := ": OPENROUTER PROCESSING".

(** How the relayed stream stands after the reads given. *)
Inductive RelayEnd : Type :=
| Ended       (* [push(null)] *)
| Stalled     (* a [read()] pushed nothing, and is not called again *).

(** The [read()] method of the [Readable] piped to the client: each read of
    the upstream body is pushed unless it includes the keep-alive comment.
    A read that pushes nothing is the last one: the stream calls [read()]
    again only after a push. *)
Fixpoint relay (reads : list string) : list string * RelayEnd :=
  match reads with
  | [] => ([], Ended)
  | chunk :: rest =>
      if negb (Js.includes chunk KEEP_ALIVE)
      then let '(pushed, ending) := relay rest in (chunk :: pushed, ending)
      else ([], Stalled)
  end.

(** ** Replies of the backend *)

Inductive Reply : Type :=
| (* 400 [{ error: `Unknown provider: ${provider}` }] *)
  UnknownProvider (provider : string)
| (* [res.status(response.status).json({ error, provider, hint })] *)
  UpstreamError (status : Z) (error : string) (provider : string)
                (hint : option string)
| (* [stream.pipe(res)] with the [X-Provider] header *)
  Streaming (provider : string) (pushed : list string) (ending : RelayEnd)
| (* [res.json(data)] *)
  JsonData (data : Json)
| (* 500 [{ error: error.message, provider }] *)
  Failure (error : JsError) (provider : string).

Inductive FailoverReply : Type :=
| (* 400 [{ error: `Unknown model class: ${modelClass}` }] *)
  UnknownModelClass (modelClass : string)
| (* [res.json({ ...data, _provider: provider, _model: model })] *)
  Served (data : Json) (provider model : string)
| (* [res.status(status).json(body)] *)
  StatusJson (status : Z) (body : Json).

(** [res.status(503).json({ error: 'All providers in failover chain failed' })] *)
Definition exhausted : FailoverReply :=
  StatusJson 503
    (JObject [("error", JString "All providers in failover chain failed")]).

(** One turn of the failover loop. *)
Inductive EntryResult : Type :=
| Skipped             (* no registry entry, or no credentials *)
| Failed              (* a response that is not ok, or an exception *)
| Succeeded (data : Json)   (* an ok response whose body reads as JSON *).

(** ** Chunks of the adapters *)

Module Chunk.

Record ChoiceDelta : Type := mkChoiceDelta {
  index : option Json;
  role : option Json;
  content : option Json;
  finishReason : option Json
}.

Record ChatCompletionChunk : Type := mkChunk {
  id : option Json;
  provider : string;
  model : option Json;
  choices : list ChoiceDelta
}.

End Chunk.

(** ** The retrying dispatcher *)

Definition RETRY_STATUS_CODES : list Z := [429; 500; 502; 503; 504]%Z.
Definition MAX_RETRIES : nat := 3.

(** A delay handed to [sleep], in milliseconds. *)
Inductive Millis : Type :=
| Ms (q : Q)
| MsNaN.

(** What the dispatcher does with a response. *)
Inductive Decision : Type :=
| Return
| RetryAfter (delay : Millis).

(** The surroundings of a dispatch: what the n-th request sent receives,
    and what [Math.random()] and [Date.now()] give while its response is
    handled. *)
Record Env : Type := mkEnv {
  fetch : nat -> FetchResult;
  random : nat -> Q;
  clock : nat -> Z
}.

(** The effects of the dispatcher: requests sent so far, the delays slept
    (latest first), and the shared rate-limit map. *)
Record World : Type := mkWorld {
  requests : nat;
  sleeps : list Millis;
  rateLimits : gmap string RateLimitInfo
}.

Definition sent (w : World) : World :=
  {| requests := S (requests w); sleeps := sleeps w; rateLimits := rateLimits w |}.

Definition tracked (rl : gmap string RateLimitInfo) (w : World) : World :=
  {| requests := requests w; sleeps := sleeps w; rateLimits := rl |}.

Definition sleep (ms : Millis) (w : World) : World :=
  {| requests := requests w; sleeps := ms :: sleeps w; rateLimits := rateLimits w |}.

(** [Math.min(30000, 5000 * Math.pow(1.5, attempt))].  Every value the
    code computes here is a dyadic rational that a double holds exactly,
    so rational arithmetic gives the same number. *)
Definition coldDelay (attempt : nat) : Q :=
  Qmin 30000 (5000 * (3 # 2) ^ Z.of_nat attempt).

(** [5000 * Math.pow(2, attempt)] *)
Definition huggingfaceDelay (attempt : nat) : Q :=
  5000 * 2 ^ Z.of_nat attempt.

(** [retryAfter ? parseInt(retryAfter) * 1000
               : Math.min(1000 * Math.pow(2, attempt) * (0.5 + Math.random()), 30000)],
    the jitter computed in exact arithmetic. *)
Definition standardDelay (retryAfter : option string) (attempt : nat) (rnd : Q)
  : Millis :=
  let jitter := Ms (Qmin (1000 * 2 ^ Z.of_nat attempt * ((1 # 2) + rnd)) 30000) in
  match retryAfter with
  | Some t =>
      if Js.truthy t
      then match parseInt t with
           | Some n => Ms (inject_Z (n * 1000))
           | None => MsNaN
           end
      else jitter
  | None => jitter
  end.

Section Dispatch.

(** [JSON.parse]; [None] when it throws. *)
Variable JSON_parse : string -> option Json.

(** [await response.json()]; a null body reads as the empty text, which
    is not JSON. *)
Definition json (r : Response) : option Json :=
  match body r with
  | Some reads => JSON_parse (concatText reads)
  | None => None
  end.

(** [error.message?.includes('Cold') || error.message?.includes('Not Ready')]
    for the parsed body [error]; [None] when the expression throws. *)
Definition coldMarker (error : Json) : option bool :=
  match error with
  | JNull => None
  | _ =>
      let message := JsValue.prop error "message" in
      match JsValue.optIncludes message "Cold" with
      | Some true => Some true
      | Some false => JsValue.optIncludes message "Not Ready"
      | None => None
      end
  end.

(** Whether the body of [response] reads as JSON that carries the
    cold-start marker. *)
Definition coldBody (response : Response) : bool :=
  match json response with
  | Some error =>
      match coldMarker error with
      | Some true => true
      | _ => false
      end
  | None => false
  end.

(** The branch the body of [fetchWithRetry] takes on [response], in the
    order the code tests them. *)
Definition retryDecision (provider : string) (response : Response)
    (attempt : nat) (rnd : Q) : Decision :=
  if String.eqb provider "featherless" && (status response =? 400)%Z then
    match json response with
    | Some error =>
        match coldMarker error with
        | Some true =>
            if attempt <? 5
            then RetryAfter (Ms (coldDelay attempt))
            else Return
        | _ => Return
        end
    | None => Return
    end
  else if String.eqb provider "huggingface" && (status response =? 502)%Z
          && (attempt <? MAX_RETRIES)
  then RetryAfter (Ms (huggingfaceDelay attempt))
  else if existsb (Z.eqb (status response)) RETRY_STATUS_CODES
          && (attempt <? MAX_RETRIES)
  then RetryAfter (standardDelay (Hdr.get (headers response) "Retry-After")
                                 attempt rnd)
  else Return.

Lemma retryDecision_guard provider response attempt rnd delay :
  retryDecision provider response attempt rnd = RetryAfter delay ->
  attempt < 5.
Proof.
  unfold retryDecision, MAX_RETRIES.
  repeat match goal with
         | |- context [if ?b then _ else _] => destruct b eqn:?
         | |- context [match ?x with _ => _ end] => destruct x eqn:?
         end; try discriminate; intros _;
    repeat match goal with
           | H : _ && _ = true |- _ => apply andb_true_iff in H as [? ?]
           | H : (_ <? _) = true |- _ => apply Nat.ltb_lt in H
           end; lia.
Qed.

(** Keeps the equation of a scrutinee for the recursive call under it. *)
Definition inspect {A : Type} (a : A) : {b : A | a = b} := exist _ a eq_refl.

(** [fetchWithRetry(url, options, provider, attempt)].  The request sent
    is the next one of the environment; a rejected [fetch] propagates. *)
Equations? fetchWithRetry (provider : string) (attempt : nat) (env : Env)
    (w : World) : FetchResult * World by wf (5 - attempt) lt :=
  fetchWithRetry provider attempt env w
    with fetch env (requests w) := {
    | Rejected error => (Rejected error, sent w)
    | Resolved response
        with inspect (retryDecision provider response attempt
                        (random env (requests w))) := {
        | exist _ Return _ =>
            (Resolved response,
             tracked (parseRateLimitHeaders (headers response) provider
                        (clock env (requests w)) (rateLimits w)) (sent w))
        | exist _ (RetryAfter delay) Hretry =>
            fetchWithRetry provider (S attempt) env
              (sleep delay
                 (tracked (parseRateLimitHeaders (headers response) provider
                             (clock env (requests w)) (rateLimits w))
                          (sent w))) } }.
Proof.
  apply retryDecision_guard in Hretry. lia.
Qed.

(** ** The frontend reader *)

(** The body of the loop over lines in [chatStream] of the frontend. *)
Definition chatStream_line (line : string) : LineStep Json :=
  if Js.startsWith line ": OPENROUTER" then Skip
  else if Js.startsWith line "data: " then
    let data := Js.slice 6 line in
    if String.eqb data "[DONE]" then Stop
    else
      match JSON_parse data with
      | Some JNull => Skip
      | Some parsed =>
          let content :=
            JsValue.optProp
              (JsValue.optProp
                 (JsValue.optFirst (JsValue.prop parsed "choices")) "delta")
              "content" in
          match content with
          | Some v => if JsValue.truthy content then Emit v else Skip
          | None => Skip
          end
      | None => Skip
      end
  else Skip.

(** What a generator gives: the values it yields, or the error it throws
    before yielding any. *)
Inductive Generated (A : Type) : Type :=
| Yields (increments : list A)
| Throws (error : JsError).

(** [chatStream(provider, request)] of the frontend, on the response
    [res] of its request. *)
Definition chatStream (res : Response) : Generated Json :=
  if negb (ok res) then
    match json res with
    | Some JNull => Throws Json TypeError
    | Some err =>
        match JsValue.prop err "error" with
        | Some e =>
            if JsValue.truthy (Some e) then Throws Json (ErrorOf e)
            else Throws Json (HttpError "Stream failed:" (status res))
        | None => Throws Json (HttpError "Stream failed:" (status res))
        end
    | None => Throws Json (HttpError "Stream failed:" (status res))
    end
  else
    match body res with
    | None => Throws Json (ErrorMsg "No response body")
    | Some reads => Yields Json (readLines chatStream_line EmptyString reads)
    end.

(** ** The Featherless adapter's reader *)

Definition choiceDelta (choice : Json) : option Chunk.ChoiceDelta :=
  match choice with
  | JNull => None
  | _ =>
      match JsValue.prop choice "delta" with
      | None | Some JNull => None
      | Some delta =>
          Some {| Chunk.index := JsValue.prop choice "index";
                  Chunk.role := JsValue.prop delta "role";
                  Chunk.content := JsValue.prop delta "content";
                  Chunk.finishReason := JsValue.prop choice "finish_reason" |}
      end
  end.

(** The chunk built from a parsed record; [None] when building it throws. *)
Definition featherlessChunk (data : Json) : option Chunk.ChatCompletionChunk :=
  match data with
  | JNull => None
  | _ =>
      match JsValue.prop data "choices" with
      | Some (JArray items) =>
          match mapM choiceDelta items with
          | Some cs =>
              Some {| Chunk.id := JsValue.prop data "id";
                      Chunk.provider := "featherless";
                      Chunk.model := JsValue.prop data "model";
                      Chunk.choices := cs |}
          | None => None
          end
      | _ => None
      end
  end.

(** The body of the loop over lines in the adapter's [chatStream]. *)
Definition featherless_line (line : string) : LineStep Chunk.ChatCompletionChunk :=
  let trimmed := Js.trim line in
  if negb (Js.truthy trimmed) || String.eqb trimmed "data: [DONE]" then Skip
  else if negb (Js.startsWith trimmed "data: ") then Skip
  else
    match JSON_parse (Js.slice 6 trimmed) with
    | Some data =>
        match featherlessChunk data with
        | Some chunk => Emit chunk
        | None => Skip
        end
    | None => Skip
    end.

(** The adapter's [chatStream] on the response of its request; the
    text of the error it builds from a response that is not ok is the
    status line, kept here as the status. *)
Definition featherlessChatStream (response : Response)
  : Generated Chunk.ChatCompletionChunk :=
  if negb (ok response) then Throws _ (HttpError "HTTP" (status response))
  else
    match body response with
    | None => Throws _ (ErrorMsg "No response body for streaming")
    | Some reads => Yields _ (readLines featherless_line EmptyString reads)
    end.

(** ** The chat-completions endpoint *)

(** [app.post('/api/:provider/chat/completions')], with
    [isStreaming = (req.body.stream === true)]. *)
Definition chatCompletions (provider : string) (isStreaming : bool)
    (env : Env) (w : World) : Reply * World :=
  match lookupKey provider PROVIDERS with
  | None => (UnknownProvider provider, w)
  | Some config =>
      match fetchWithRetry provider 0 env w with
      | (Rejected error, w') => (Failure error provider, w')
      | (Resolved response, w') =>
          if negb (ok response) then
            (UpstreamError (status response) (text response) provider
               (if (status response =? 400)%Z && String.eqb provider "featherless"
                then Some "Model may be cold. The system will retry automatically."
                else None),
             w')
          else
            match isStreaming, body response with
            | true, Some reads =>
                let '(pushed, ending) := relay reads in
                (Streaming provider pushed ending, w')
            | _, _ =>
                match json response with
                | Some data => (JsonData data, w')
                | None => (Failure SyntaxError provider, w')
                end
            end
      end
  end.

(** ** The failover endpoint *)

Section Failover.

(** [process.env] *)
Variable process_env : gmap string string.

(** One turn of [for (const { provider, model } of chain)]. *)
Definition tryEntry (provider : string) (env : Env) (w : World)
  : EntryResult * World :=
  match lookupKey provider PROVIDERS with
  | None => (Skipped, w)
  | Some config =>
      if negb (Hdr.truthy (process_env !! envKey provider)) then (Skipped, w)
      else
        match fetchWithRetry provider 0 env w with
        | (Rejected _, w') => (Failed, w')
        | (Resolved response, w') =>
            if ok response then
              match json response with
              | Some data => (Succeeded data, w')
              | None => (Failed, w')
              end
            else (Failed, w')
        end
  end.

Fixpoint tryChain (chain : list (string * string)) (env : Env) (w : World)
  : FailoverReply * World :=
  match chain with
  | [] => (exhausted, w)
  | (provider, model) :: rest =>
      match tryEntry provider env w with
      | (Succeeded data, w') => (Served data provider model, w')
      | (_, w') => tryChain rest env w'
      end
  end.

(** [app.post('/api/failover/chat/completions')] *)
Definition failover (modelClass : string) (env : Env) (w : World)
  : FailoverReply * World :=
  match lookupKey modelClass FAILOVER_CHAINS with
  | None => (UnknownModelClass modelClass, w)
  | Some chain => tryChain chain env w
  end.

(** What each turn of the loop came to, up to the first success. *)
Fixpoint walk (chain : list (string * string)) (env : Env) (w : World)
  : list EntryResult :=
  match chain with
  | [] => []
  | (provider, _) :: rest =>
      match tryEntry provider env w with
      | (Succeeded data, _) => [Succeeded data]
      | (r, w') => r :: walk rest env w'
      end
  end.

End Failover.

End Dispatch.

(** ** A reader of JSON texts

    The dispatcher and the stream readers are stated for any [JSON.parse].
    [JsonText.parse] is a recursive-descent reader of ASCII JSON texts that
    stands for it in the closed examples: it accepts the JSON grammar with
    [\u] escapes up to U+007F, and gives [None] where [JSON.parse] throws. *)
Module JsonText.

Definition isWs (c : ascii) : bool :=
  Ascii.eqb c " " || Ascii.eqb c "009" || Ascii.eqb c "010" || Ascii.eqb c "013".

Fixpoint skipWs (s : string) : string :=
  match s with
  | String c r => if isWs c then skipWs r else s
  | EmptyString => s
  end.

Definition expect (lit : string) (v : Json) (s : string) : option (Json * string) :=
  if Js.startsWith s lit then Some (v, Js.slice (String.length lit) s) else None.

Definition escape (e : ascii) : option ascii :=
  if Ascii.eqb e Js.DQUOTE then Some Js.DQUOTE
  else if Ascii.eqb e "\" then Some "\"%char
  else if Ascii.eqb e "/" then Some "/"%char
  else if Ascii.eqb e "b" then Some "008"%char
  else if Ascii.eqb e "f" then Some "012"%char
  else if Ascii.eqb e "n" then Some "010"%char
  else if Ascii.eqb e "r" then Some "013"%char
  else if Ascii.eqb e "t" then Some "009"%char
  else None.

Definition hex4 (a b c d : ascii) : option Z :=
  match ParseInt.digit 16 a, ParseInt.digit 16 b,
        ParseInt.digit 16 c, ParseInt.digit 16 d with
  | Some x, Some y, Some z, Some t => Some (((x * 16 + y) * 16 + z) * 16 + t)%Z
  | _, _, _, _ => None
  end.

Definition push (c : ascii) (r : option (string * string)) : option (string * string) :=
  match r with
  | Some (t, rest) => Some (String c t, rest)
  | None => None
  end.

(** The units of a string literal after its opening quote, and what
    follows its closing quote. *)
Fixpoint chars (s : string) : option (string * string) :=
  match s with
  | EmptyString => None
  | String c r =>
      if Ascii.eqb c Js.DQUOTE then Some (EmptyString, r)
      else if Ascii.eqb c "\" then
        match r with
        | String "u" (String h1 (String h2 (String h3 (String h4 r')))) =>
            match hex4 h1 h2 h3 h4 with
            | Some n =>
                if (n <? 128)%Z then push (ascii_of_nat (Z.to_nat n)) (chars r')
                else None
            | None => None
            end
        | String e r' =>
            match escape e with
            | Some x => push x (chars r')
            | None => None
            end
        | EmptyString => None
        end
      else if nat_of_ascii c <? 32 then None
      else push c (chars r)
  end.

(** A run of decimal digits: its value, its length, and the rest. *)
Fixpoint digitRun (acc : Z) (n : nat) (s : string) : Z * nat * string :=
  match s with
  | String c r =>
      match ParseInt.digit 10 c with
      | Some d => digitRun (acc * 10 + d)%Z (S n) r
      | None => (acc, n, s)
      end
  | EmptyString => (acc, n, s)
  end.

Definition fraction (s : string) : option (Q * string) :=
  match s with
  | String "." r =>
      match digitRun 0 0 r with
      | (_, O, _) => None
      | (f, k, rest) => Some ((inject_Z f / inject_Z (10 ^ Z.of_nat k))%Q, rest)
      end
  | _ => Some (0%Q, s)
  end.

Definition exponent (s : string) : option (Z * string) :=
  let run (sign : Z) (r : string) :=
    match digitRun 0 0 r with
    | (_, O, _) => None
    | (e, _, rest) => Some ((sign * e)%Z, rest)
    end in
  match s with
  | String x r =>
      if Ascii.eqb x "e" || Ascii.eqb x "E" then
        match r with
        | String "-" r' => run (-1)%Z r'
        | String "+" r' => run 1%Z r'
        | _ => run 1%Z r
        end
      else Some (0%Z, s)
  | EmptyString => Some (0%Z, s)
  end.

Definition number (s : string) : option (Json * string) :=
  let '(sign, s1) :=
    match s with
    | String "-" r => ((-1)%Z, r)
    | _ => (1%Z, s)
    end in
  match digitRun 0 0 s1 with
  | (_, O, _) => None
  | (i, k, s2) =>
      if Js.startsWith s1 "0" && (1 <? k) then None
      else
        match fraction s2 with
        | Some (f, s3) =>
            match exponent s3 with
            | Some (e, s4) =>
                Some (JNumber (Qred (inject_Z sign * (inject_Z i + f)
                                     * 10 ^ e)%Q), s4)
            | None => None
            end
        | None => None
        end
  end.

Fixpoint value (fuel : nat) (s : string) : option (Json * string) :=
  match fuel with
  | O => None
  | S fuel' =>
      match skipWs s with
      | EmptyString => None
      | String c r =>
          if Ascii.eqb c "{" then
            match skipWs r with
            | String "}" rest => Some (JObject [], rest)
            | r' =>
                match members fuel' r' with
                | Some (ms, rest) => Some (JObject ms, rest)
                | None => None
                end
            end
          else if Ascii.eqb c "[" then
            match skipWs r with
            | String "]" rest => Some (JArray [], rest)
            | r' =>
                match items fuel' r' with
                | Some (vs, rest) => Some (JArray vs, rest)
                | None => None
                end
            end
          else if Ascii.eqb c Js.DQUOTE then
            match chars r with
            | Some (t, rest) => Some (JString t, rest)
            | None => None
            end
          else if Ascii.eqb c "t" then expect "true" (JBool true) (String c r)
          else if Ascii.eqb c "f" then expect "false" (JBool false) (String c r)
          else if Ascii.eqb c "n" then expect "null" JNull (String c r)
          else number (String c r)
      end
  end
with items (fuel : nat) (s : string) : option (list Json * string) :=
  match fuel with
  | O => None
  | S fuel' =>
      match value fuel' s with
      | Some (v, rest) =>
          match skipWs rest with
          | String "]" rest' => Some ([v], rest')
          | String "," rest' =>
              match items fuel' rest' with
              | Some (vs, rest'') => Some (v :: vs, rest'')
              | None => None
              end
          | _ => None
          end
      | None => None
      end
  end
with members (fuel : nat) (s : string) : option (list (string * Json) * string) :=
  match fuel with
  | O => None
  | S fuel' =>
      match skipWs s with
      | String c r =>
          if Ascii.eqb c Js.DQUOTE then
            match chars r with
            | Some (k, rest) =>
                match skipWs rest with
                | String ":" rest' =>
                    match value fuel' rest' with
                    | Some (v, rest'') =>
                        match skipWs rest'' with
                        | String "}" rest3 => Some ([(k, v)], rest3)
                        | String "," rest3 =>
                            match members fuel' rest3 with
                            | Some (ms, rest4) => Some ((k, v) :: ms, rest4)
                            | None => None
                            end
                        | _ => None
                        end
                    | None => None
                    end
                | _ => None
                end
            | None => None
            end
          else None
      | EmptyString => None
      end
  end.

(** The whole text is one value between optional white space. *)
Definition parse (s : string) : option Json :=
  match value (2 * String.length s + 2) s with
  | Some (v, rest) =>
      match skipWs rest with
      | EmptyString => Some v
      | _ => None
      end
  | None => None
  end.

(** [q s] is [s] between double quotes. *)
Definition q (s : string) : string :=
  String Js.DQUOTE s +:+ String Js.DQUOTE EmptyString.

End JsonText.

(** ** Concrete inputs *)
Module Ex.

(** [{"message":"<message>"}] *)
Definition messageText (message : string) : string :=
  "{" +:+ JsonText.q "message" +:+ ":" +:+ JsonText.q message +:+ "}".

(** [data: {"choices":[{"delta":{"content":"<content>"}}]}] *)
Definition dataLine (content : string) : string :=
  "data: {" +:+ JsonText.q "choices" +:+ ":[{" +:+ JsonText.q "delta" +:+ ":{"
    +:+ JsonText.q "content" +:+ ":" +:+ JsonText.q content +:+ "}}]}".

Definition nl : string := String Js.LF EmptyString.

(** Every request receives [r]. *)
Definition steady (r : Response) : Env :=
  mkEnv (fun _ => Resolved r) (fun _ => 0%Q) (fun _ => 0%Z).

(** The first [n] requests receive [r], the later ones [r']. *)
Definition after (n : nat) (r r' : Response) : Env :=
  mkEnv (fun i => Resolved (if i <? n then r else r'))
        (fun _ => 0%Q) (fun _ => 0%Z).

(** Nothing sent, nothing slept, nothing tracked. *)
Definition idle : World := mkWorld 0 [] ∅.

Definition cold400 : Response :=
  mkResponse 400 [] (Some [messageText "Model is Cold"]).

(** [{"choices":[]}], a completion. *)
Definition done200 : Response :=
  mkResponse 200 [] (Some ["{" +:+ JsonText.q "choices" +:+ ":[]}"]).

Definition lowercase400 : Response :=
  mkResponse 400 [] (Some [messageText "model is cold"]).

Definition cold502 : Response :=
  mkResponse 502 [] (Some [messageText "Model is Cold"]).

Definition busy503 : Response :=
  mkResponse 503 [] (Some ["Service Unavailable"]).

Definition denied401 : Response :=
  mkResponse 401 [] (Some ["Unauthorized"]).

(** A 204 No Content: ok, and [response.body] is null. *)
Definition noContent204 : Response := mkResponse 204 [] None.

(** One line of data, the sentinel, and one more line of data, in one read. *)
Definition doneThenData : list string :=
  [dataLine "Hi" +:+ nl +:+ "data: [DONE]" +:+ nl +:+ dataLine "late" +:+ nl].

(** A keep-alive comment and a line of data: in one read, and cut inside
    the comment. *)
Definition keepAliveWhole : list string :=
  [": OPENROUTER PROCESSING" +:+ nl +:+ nl +:+ dataLine "Hi" +:+ nl +:+ nl].
Definition keepAliveCut : list string :=
  [": OPENROUTER PROC";
   "ESSING" +:+ nl +:+ nl +:+ dataLine "Hi" +:+ nl +:+ nl].

(** Every provider has its key. *)
Definition allKeys : gmap string string :=
  list_to_map
    [("OPENROUTER_API_KEY", "k"); ("HF_TOKEN", "k"); ("FEATHERLESS_API_KEY", "k");
     ("VENICE_API_KEY", "k"); ("TOGETHER_API_KEY", "k")].

Definition emptyLimit : Headers :=
  [("X-RateLimit-Limit", EmptyString); ("X-RateLimit-Remaining", "5")].

Definition bothLimits : Headers :=
  [("X-RateLimit-Limit", "100"); ("X-RATELIMIT-REMAINING", "42")].

Definition earlier : RateLimitInfo :=
  {| limit := Some 60%Z; remaining := Some 7%Z; reset := Some 1000%Z |}.

End Ex.


(** * The rest of the backend, the second reader of the frontend, the
      vision heuristic and the client of the library *)

(** ** The registry, read with a name from the request *)

(** The lists of vision models of the registry's entries. *)
Definition VISION_MODELS : list (string * list string) :=
  [ ("openrouter",
     [ "google/gemini-2.0-flash-exp"; "google/gemini-pro-vision";
       "anthropic/claude-3-opus"; "anthropic/claude-3-sonnet";
       "anthropic/claude-3-haiku"; "openai/gpt-4o";
       "openai/gpt-4-vision-preview";
       "meta-llama/llama-3.2-90b-vision-instruct" ]);
    ("huggingface",
     [ "Qwen/Qwen2-VL-7B-Instruct"; "Qwen/Qwen2-VL-72B-Instruct";
       "llava-hf/llava-1.5-7b-hf"; "google/gemma-3-27b-it:featherless-ai" ]);
    ("featherless",
     [ "google/gemma-3-27b-it"; "mistralai/Mistral-Small-3.1-24B-Instruct-2503" ]);
    ("venice", [ "mistral-31-24b"; "llama-4-maverick" ]);
    ("together",
     [ "meta-llama/Llama-3.2-90B-Vision-Instruct-Turbo";
       "meta-llama/Llama-3.2-11B-Vision-Instruct-Turbo";
       "Qwen/Qwen2-VL-72B-Instruct" ]) ].

(** The names that the registry, an object literal, inherits from
    [Object.prototype].  For each of them [PROVIDERS[name]] is a function
    or an object: truthy, and without [features], [baseUrl] or
    [getHeaders]. *)
Definition INHERITED : list string :=
  [ "constructor"; "__proto__"; "hasOwnProperty"; "isPrototypeOf";
    "propertyIsEnumerable"; "toLocaleString"; "toString"; "valueOf";
    "__defineGetter__"; "__defineSetter__"; "__lookupGetter__";
    "__lookupSetter__" ].

(** What [PROVIDERS[provider]] gives for a name taken from the request. *)
Inductive Registered : Type :=
| Entry (config : ProviderConfig)   (* an entry of the registry *)
| Foreign                           (* an inherited property *)
| Absent                            (* [undefined] *).

Definition registered (provider : string) : Registered :=
  match lookupKey provider PROVIDERS with
  | Some config => Entry config
  | None =>
      if existsb (String.eqb provider) INHERITED then Foreign else Absent
  end.

(** ** Health and the list of providers *)

Module Health.

(** One entry of the [providers] object of the health reply. *)
Record Status : Type := mkStatus {
  configured : bool;
  features : Features;
  rateLimit : option RateLimitInfo      (* [None] is null *)
}.

(** One entry of the reply of [/api/providers]. *)
Record Info : Type := mkInfo {
  name : string;
  baseUrl : string;
  infoFeatures : Features;
  visionModels : option (list string)
}.

End Health.

Section Credentials.

(** [process.env] *)
Variable process_env : gmap string string.

(** [!!process.env[envKey]] for the key of the provider [name]. *)
Definition isConfigured (name : string) : bool :=
  Hdr.truthy (process_env !! envKey name).

(** The [providers] object of [app.get('/api/health')]: one entry for
    each key of the registry, in its order. *)
Definition healthProviders (rl : gmap string RateLimitInfo)
  : list (string * Health.Status) :=
  map (fun entry =>
         (entry.1,
          {| Health.configured := isConfigured entry.1;
             Health.features := features entry.2;
             Health.rateLimit := rl !! entry.1 |}))
      PROVIDERS.

(** The [providers] array of [app.get('/api/providers')]. *)
Definition availableProviders : list Health.Info :=
  map (fun entry =>
         {| Health.name := entry.1;
            Health.baseUrl := baseUrl entry.2;
            Health.infoFeatures := features entry.2;
            Health.visionModels := lookupKey entry.1 VISION_MODELS |})
      (List.filter (fun entry => isConfigured entry.1) PROVIDERS).

End Credentials.

(** ** Replies of the endpoints that forward one JSON call *)

Inductive ProxyReply : Type :=
| (* [res.status(400).json({ error: message })] *)
  Refused (message : string)
| (* [res.status(response.status).json({ error, provider })] *)
  Upstream (status : Z) (error : string) (provider : option string)
| (* [res.json(data)] *)
  Data (data : Json)
| (* [res.status(500).json({ error: message, provider })] *)
  Broken (message : string) (provider : option string)
| (* the handler throws outside its [try]: no reply is sent *)
  Thrown (error : JsError).

(** ** The cache of model lists *)

Record CachedModels : Type := mkCachedModels {
  cachedData : Json;
  fetchedAt : Z
}.

Definition MODEL_CACHE_TTL : Z := 5 * 60 * 1000.

Inductive ModelsReply : Type :=
| (* [res.status(400).json({ error: `Unknown provider: ${provider}` })] *)
  ModelsUnknown (provider : string)
| (* [res.json({ data, cached })] *)
  ModelsData (data : Json) (cached : bool)
| (* [res.status(response.status).json({ error, provider })] *)
  ModelsUpstream (status : Z) (error : string) (provider : string)
| (* [res.status(500).json({ error: 'Failed to fetch models', provider })] *)
  ModelsFailed (provider : string).

(** [cached && Date.now() - cached.fetchedAt < MODEL_CACHE_TTL], giving
    the cached list when the condition holds. *)
Definition freshModels (cache : gmap string CachedModels) (provider : string)
    (now : Z) : option Json :=
  match cache !! provider with
  | Some cached =>
      if (now - fetchedAt cached <? MODEL_CACHE_TTL)%Z
      then Some (cachedData cached)
      else None
  | None => None
  end.

(** [data.data || data.models || []] for the parsed body [data]; [None]
    when [data] is null and reading its property throws. *)
Definition modelList (data : Json) : option Json :=
  match data with
  | JNull => None
  | _ =>
      if JsValue.truthy (JsValue.prop data "data")
      then JsValue.prop data "data"
      else if JsValue.truthy (JsValue.prop data "models")
           then JsValue.prop data "models"
           else Some (JArray [])
  end.

(** ** Routes *)

(** The routes of the backend, matched as Express 4 matches them: in the
    order of their registration, a fixed segment without regard to the
    case of its letters, [:provider] against one segment that is not
    empty, the final [*] against whatever follows its slash, and one slash
    allowed at the end.  A path is given by its segments, the pieces
    between the slashes after the first one; the middleware in front ([cors],
    which answers OPTIONS itself, and the JSON body parser) is not part of
    the model. *)
Module Router.

Inductive Method : Type := GET | HEAD | POST | PUT | PATCH | DELETE.

(** How a route was registered. *)
Inductive Verb : Type :=
| AppGet        (* [app.get]: answers GET and HEAD *)
| AppPost       (* [app.post] *)
| AppAll        (* [app.all] *).

Inductive Seg : Type :=
| Lit (s : string)    (* a fixed segment *)
| Param               (* [:provider] *)
| Star                (* [*] *).

(** The handlers, with the segments they receive as captured: the
    handler reads them through [decodeURIComponent], which leaves a
    segment without a percent sign as it is. *)
Inductive Handler : Type :=
| HealthCheck
| Providers
| ChatCompletions (provider : string)
| Models (provider : string)
| Images (provider : string)
| HfFeatherless
| VeniceCharacters
| Embeddings (provider : string)
| TogetherFiles
| Failover
| Proxy (provider path : string)
| NotFound.

Definition accepts (v : Verb) (m : Method) : bool :=
  match v, m with
  | AppAll, _ => true
  | AppGet, GET | AppGet, HEAD => true
  | AppPost, POST => true
  | _, _ => false
  end.

Fixpoint joinPath (segs : list string) : string :=
  match segs with
  | [] => EmptyString
  | [s] => s
  | s :: rest => s +:+ "/" +:+ joinPath rest
  end.

(** Whether a path matches a route, and the segments captured. *)
Fixpoint matchPath (pattern : list Seg) (path : list string)
  : option (list string) :=
  match pattern, path with
  | [], [] => Some []
  | [], [EmptyString] => Some []
  | Lit l :: pattern', s :: path' =>
      if Hdr.sameName l s then matchPath pattern' path' else None
  | Param :: pattern', s :: path' =>
      if Js.truthy s
      then match matchPath pattern' path' with
           | Some captured => Some (s :: captured)
           | None => None
           end
      else None
  | [Star], _ :: _ => Some [joinPath path]
  | _, _ => None
  end.

Definition api (rest : list Seg) : list Seg := Lit "api" :: rest.

Definition first (captured : list string) : string :=
  List.hd EmptyString captured.

Definition second (captured : list string) : string :=
  List.hd EmptyString (List.tl captured).

(** The routes in the order the backend registers them. *)
Definition ROUTES : list (Verb * list Seg * (list string -> Handler)) :=
  [ (AppGet, api [Lit "health"], fun _ => HealthCheck);
    (AppGet, api [Lit "providers"], fun _ => Providers);
    (AppPost, api [Param; Lit "chat"; Lit "completions"],
     fun c => ChatCompletions (first c));
    (AppGet, api [Param; Lit "models"], fun c => Models (first c));
    (AppPost, api [Param; Lit "images"; Lit "generations"],
     fun c => Images (first c));
    (AppPost,
     api [Lit "huggingface"; Lit "featherless"; Lit "chat"; Lit "completions"],
     fun _ => HfFeatherless);
    (AppGet, api [Lit "venice"; Lit "characters"], fun _ => VeniceCharacters);
    (AppPost, api [Param; Lit "embeddings"], fun c => Embeddings (first c));
    (AppPost, api [Lit "together"; Lit "files"], fun _ => TogetherFiles);
    (AppPost, api [Lit "failover"; Lit "chat"; Lit "completions"],
     fun _ => Failover);
    (AppAll, api [Param; Star], fun c => Proxy (first c) (second c)) ].

(** The handler that answers: that of the first route whose verb and
    path match; no handler of the backend passes a request on. *)
Fixpoint dispatch (routes : list (Verb * list Seg * (list string -> Handler)))
    (m : Method) (path : list string) : Handler :=
  match routes with
  | [] => NotFound
  | (v, pattern, handler) :: rest =>
      if accepts v m then
        match matchPath pattern path with
        | Some captured => handler captured
        | None => dispatch rest m path
        end
      else dispatch rest m path
  end.

Definition route (m : Method) (path : list string) : Handler :=
  dispatch ROUTES m path.

End Router.


Section Endpoints.

Variable JSON_parse : string -> option Json.

(** What the image, embeddings and catch-all endpoints do once they hold
    an entry of the registry: one dispatch; the upstream status and text
    when the response is not ok, its JSON when it is; a 500 with the
    endpoint's own message when anything throws. *)
Definition forwardJson (provider message : string) (env : Env) (w : World)
  : ProxyReply * World :=
  match fetchWithRetry JSON_parse provider 0 env w with
  | (Rejected _, w') => (Broken message (Some provider), w')
  | (Resolved response, w') =>
      if negb (ok response)
      then (Upstream (status response) (text response) (Some provider), w')
      else
        match json JSON_parse response with
        | Some data => (Data data, w')
        | None => (Broken message (Some provider), w')
        end
  end.

(** [app.post('/api/:provider/images/generations')].  An inherited name
    passes [!config], and reading [config.features.imageGen] throws
    before the [try]. *)
Definition imageGenerations (provider : string) (env : Env) (w : World)
  : ProxyReply * World :=
  match registered provider with
  | Absent => (Refused ("Image generation not supported: " +:+ provider), w)
  | Foreign => (Thrown TypeError, w)
  | Entry config =>
      if negb (imageGen (features config))
      then (Refused ("Image generation not supported: " +:+ provider), w)
      else forwardJson provider "Image generation failed" env w
  end.



(** [app.get('/api/venice/characters')]: a plain [fetch], and the JSON
    of the response whatever its status. *)
Definition veniceCharacters (env : Env) (w : World) : ProxyReply * World :=
  match fetch env (requests w) with
  | Rejected _ => (Broken "Failed to fetch characters" None, sent w)
  | Resolved response =>
      match json JSON_parse response with
      | Some data => (Data data, sent w)
      | None => (Broken "Failed to fetch characters" None, sent w)
      end
  end.

(** [app.post('/api/together/files')]: a plain [fetch]. *)
Definition togetherFiles (env : Env) (w : World) : ProxyReply * World :=
  match fetch env (requests w) with
  | Rejected _ => (Broken "File upload failed" None, sent w)
  | Resolved response =>
      if negb (ok response)
      then (Upstream (status response) (text response) None, sent w)
      else
        match json JSON_parse response with
        | Some data => (Data data, sent w)
        | None => (Broken "File upload failed" None, sent w)
        end
  end.

(** The [try] block of the models endpoint for an entry of the
    registry, with the value [later] of [Date.now()] when the list is
    stored. *)
Definition fetchModels (provider : string) (later : Z) (env : Env)
    (cache : gmap string CachedModels) (w : World)
  : ModelsReply * gmap string CachedModels * World :=
  match fetchWithRetry JSON_parse provider 0 env w with
  | (Rejected _, w') => (ModelsFailed provider, cache, w')
  | (Resolved response, w') =>
      if negb (ok response)
      then (ModelsUpstream (status response) (text response) provider,
            cache, w')
      else
        match json JSON_parse response with
        | Some data =>
            match modelList data with
            | Some list =>
                (ModelsData list false,
                 <[ provider := {| cachedData := list; fetchedAt := later |} ]>
                   cache,
                 w')
            | None => (ModelsFailed provider, cache, w')
            end
        | None => (ModelsFailed provider, cache, w')
        end
  end.

(** [app.get('/api/:provider/models')], with the shared [modelCache] and
    the two readings of [Date.now()] made explicit: [now] when the cache
    is looked up, [later] when the fetched list is stored. *)
Definition models (provider : string) (now later : Z) (env : Env)
    (cache : gmap string CachedModels) (w : World)
  : ModelsReply * gmap string CachedModels * World :=
  match registered provider with
  | Absent => (ModelsUnknown provider, cache, w)
  | found =>
      match freshModels cache provider now with
      | Some data => (ModelsData data true, cache, w)
      | None =>
          match found with
          | Entry _ => fetchModels provider later env cache w
          | _ => (ModelsFailed provider, cache, w)
          end
      end
  end.


(** ** The second reader of the frontend *)

(** The body of the loop over lines in
    [chatStreamViaHuggingFaceFeatherless]. *)
Definition hfStream_line (line : string) : LineStep Json :=
  if Js.startsWith line "data: " then
    let data := Js.slice 6 line in
    if String.eqb data "[DONE]" then Stop
    else
      match JSON_parse data with
      | Some JNull => Skip
      | Some parsed =>
          let content :=
            JsValue.optProp
              (JsValue.optProp
                 (JsValue.optFirst (JsValue.prop parsed "choices")) "delta")
              "content" in
          match content with
          | Some v => if JsValue.truthy content then Emit v else Skip
          | None => Skip
          end
      | None => Skip
      end
  else Skip.

(** [chatStreamViaHuggingFaceFeatherless(model, messages, options)] on
    the response [res] of its request. *)
Definition chatStreamViaHuggingFaceFeatherless (res : Response)
  : Generated Json :=
  if negb (ok res) then
    match json JSON_parse res with
    | Some JNull => Throws Json TypeError
    | Some err =>
        match JsValue.prop err "error" with
        | Some e =>
            if JsValue.truthy (Some e) then Throws Json (ErrorOf e)
            else Throws Json (ErrorMsg "Stream failed")
        | None => Throws Json (ErrorMsg "Stream failed")
        end
    | None => Throws Json (ErrorMsg "Stream failed")
    end
  else
    match body res with
    | None => Throws Json (ErrorMsg "No response body")
    | Some reads => Yields Json (readLines hfStream_line EmptyString reads)
    end.

End Endpoints.

(** ** The vision heuristic of the frontend *)

Module Vision.

Record Architecture : Type := mkArchitecture {
  input_modalities : option (list string)
}.

Record Model : Type := mkModel {
  id : string;
  architecture : option Architecture
}.

Definition visionPatterns : list string :=
  [ "vision"; "vl"; "llava"; "gemini"; "gpt-4o"; "claude-3" ].

(** [isVisionModel(model, visionModels)], with the lower case of the
    ASCII letters of the identifier. *)
Definition isVisionModel (model : Model) (visionModels : option (list string))
  : bool :=
  if match architecture model with
     | Some a =>
         match input_modalities a with
         | Some modalities => existsb (String.eqb "image") modalities
         | None => false
         end
     | None => false
     end
  then true
  else if match visionModels with
          | Some vms => existsb (fun vm => Js.includes (id model) vm) vms
          | None => false
          end
  then true
  else existsb (fun p => Js.includes (Hdr.toLowerCase (id model)) p)
               visionPatterns.

End Vision.

(** ** The client of the library *)

Module Client.

(** What a call comes to: a value, or the error thrown. *)
Inductive Completion (A : Type) : Type :=
| Normal (a : A)
| Throw (error : JsError).
Arguments Normal {A} a.
Arguments Throw {A} error.

#[global] Instance Completion_bind : MBind Completion :=
  fun A B f c =>
    match c with
    | Normal a => f a
    | Throw error => Throw error
    end.

(** The library's [ProviderConfig]. *)
Record ProviderConfig : Type := mkProviderConfig {
  apiKey : string;
  baseUrl : option string
}.

Record AIClientConfig : Type := mkAIClientConfig {
  openrouter : option ProviderConfig;
  huggingface : option ProviderConfig;
  featherless : option ProviderConfig;
  venice : option ProviderConfig
}.

(** A provider object: its [name], its [config] and its [baseUrl]. *)
Record Provider : Type := mkProvider {
  name : string;
  config : ProviderConfig;
  url : string
}.

(** The [DEFAULT_BASE_URL] of each provider class. *)
Definition OPENROUTER_URL : string := "https://openrouter.ai/api/v1".
Definition HUGGINGFACE_URL : string := "https://api-inference.huggingface.co".
Definition FEATHERLESS_URL : string := "https://api.featherless.ai/v1".
Definition VENICE_URL : string := "https://api.venice.ai/api/v1".

(** [new XProvider(config)]: the constructor of [BaseProvider], then
    [this.baseUrl = config.baseUrl || DEFAULT_BASE_URL]. *)
Definition newProvider (name fallback : string) (config : ProviderConfig)
  : Completion Provider :=
  if negb (Js.truthy (apiKey config))
  then Throw (ErrorMsg "API key is required")
  else Normal {| name := name;
                 config := config;
                 url := match baseUrl config with
                        | Some u => if Js.truthy u then u else fallback
                        | None => fallback
                        end |}.

(** The [providers] map, in the order of insertion. *)
Definition AIClient : Type := list (string * Provider).

(** [map.set(key, value)]: in place when the key is there, at the end
    otherwise. *)
Fixpoint mapSet (key : string) (value : Provider) (m : AIClient) : AIClient :=
  match m with
  | [] => [(key, value)]
  | (k, v) :: rest =>
      if String.eqb k key then (k, value) :: rest
      else (k, v) :: mapSet key value rest
  end.

(** [if (config.x) this.providers.set('x', new XProvider(config.x))] *)
Definition configure (key fallback : string) (given : option ProviderConfig)
    (m : AIClient) : Completion AIClient :=
  match given with
  | Some config =>
      provider ← newProvider key fallback config;
      Normal (mapSet key provider m)
  | None => Normal m
  end.

(** [new AIClient(config)] *)
Definition create (config : AIClientConfig) : Completion AIClient :=
  m ← configure "openrouter" OPENROUTER_URL (openrouter config) [];
  m ← configure "huggingface" HUGGINGFACE_URL (huggingface config) m;
  m ← configure "featherless" FEATHERLESS_URL (featherless config) m;
  configure "venice" VENICE_URL (venice config) m.

Definition notConfigured (provider : string) : string :=
  "Provider " +:+ String Js.DQUOTE provider +:+ String Js.DQUOTE
    " is not configured. Please provide API credentials for this provider.".

(** [client.getProvider(provider)] *)
Definition getProvider (client : AIClient) (provider : string)
  : Completion Provider :=
  match lookupKey provider client with
  | Some instance => Normal instance
  | None => Throw (ErrorMsg (notConfigured provider))
  end.

(** [client.hasProvider(provider)] *)
Definition hasProvider (client : AIClient) (provider : string) : bool :=
  match lookupKey provider client with
  | Some _ => true
  | None => false
  end.

(** [client.getConfiguredProviders()] *)
Definition getConfiguredProviders (client : AIClient) : list string :=
  client.*1.

(** [if (key) config.x = { apiKey: key }] *)
Definition keyConfig (key : option string) : option ProviderConfig :=
  match key with
  | Some k =>
      if Js.truthy k then Some {| apiKey := k; baseUrl := None |} else None
  | None => None
  end.

(** [AIClient.fromEnv()] *)
Definition fromEnv (process_env : gmap string string) : Completion AIClient :=
  create
    {| openrouter := keyConfig (process_env !! "OPENROUTER_API_KEY");
       huggingface :=
         keyConfig (Hdr.orElse (process_env !! "HUGGINGFACE_API_KEY")
                               (process_env !! "HF_TOKEN"));
       featherless := keyConfig (process_env !! "FEATHERLESS_API_KEY");
       venice := keyConfig (process_env !! "VENICE_API_KEY") |}.

End Client.

(** ** Inputs of the closed examples *)

Module Case.

(** A 429 that asks for two minutes. *)
Definition limited429 : Response :=
  mkResponse 429 [("Retry-After", "120")] (Some ["slow down"]).

(** Nothing sent yet, and a snapshot of Venice. *)
Definition tracked : World := mkWorld 0 [] {[ "venice" := Ex.earlier ]}.

(** [{"data":["m"]}], a list of models. *)
Definition models200 : Response :=
  mkResponse 200 []
    (Some ["{" +:+ JsonText.q "data" +:+ ":[" +:+ JsonText.q "m" +:+ "]}"]).

Definition stored (list : Json) (at_ : Z) : gmap string CachedModels :=
  {[ "openrouter" := {| cachedData := list; fetchedAt := at_ |} ]}.

Definition failoverPath : list string :=
  ["api"; "failover"; "chat"; "completions"].

Definition hfPath : list string :=
  ["API"; "huggingface"; "featherless"; "chat"; "completions"; EmptyString].

Definition cr : string := String "013"%char EmptyString.

(** Only the variable the library reads for HuggingFace. *)
Definition libraryKey : gmap string string :=
  {[ "HUGGINGFACE_API_KEY" := "k" ]}.

Definition onlyOpenrouter : Client.AIClientConfig :=
  {| Client.openrouter :=
       Some {| Client.apiKey := "k"; Client.baseUrl := None |};
     Client.huggingface := None;
     Client.featherless := None;
     Client.venice := None |}.

Definition abliterated : Vision.Model :=
  {| Vision.id := "x/google/gemma-3-27b-it-abliterated";
     Vision.architecture := None |}.

Definition qwen : Vision.Model :=
  {| Vision.id := "Qwen2-VL-7B"; Vision.architecture := None |}.

End Case.
(** * Properties *)

(** ** The model rewrite *)

(** *** Facts about [startsWith] and [includes] *)

Lemma app_nil_l_s (s : string) : EmptyString +:+ s = s.
Proof. reflexivity. Qed.

Lemma app_cons_s (c : ascii) (s t : string) :
  String c s +:+ t = String c (s +:+ t).
Proof. reflexivity. Qed.

Lemma app_nil_r_s (s : string) : s +:+ EmptyString = s.
Proof.
  induction s as [|c s IH]; [reflexivity|].
  rewrite app_cons_s, IH. reflexivity.
Qed.

Lemma app_assoc_s (s t u : string) : (s +:+ t) +:+ u = s +:+ (t +:+ u).
Proof.
  induction s as [|c s IH]; [reflexivity|].
  rewrite !app_cons_s, IH. reflexivity.
Qed.

Lemma startsWith_app (p s : string) : Js.startsWith (p +:+ s) p = true.
Proof.
  induction p as [|c p IH]; [reflexivity|].
  rewrite app_cons_s. simpl. rewrite Ascii.eqb_refl. exact IH.
Qed.

Lemma startsWith_refl (s : string) : Js.startsWith s s = true.
Proof. rewrite <- (app_nil_r_s s) at 1. apply startsWith_app. Qed.

Lemma includes_app_r (s t : string) : Js.includes (s +:+ t) t = true.
Proof.
  induction s as [|c s IH].
  - rewrite app_nil_l_s. destruct t; simpl; [reflexivity|].
    rewrite Ascii.eqb_refl, startsWith_refl. reflexivity.
  - rewrite app_cons_s. simpl. rewrite IH. apply orb_true_r.
Qed.

Lemma includes_occurrences (s t : string) :
  Js.includes s t = false <-> Js.occurrences s t = 0.
Proof.
  induction s as [|c s IH]; simpl.
  - destruct (Js.startsWith EmptyString t); simpl; split;
      (reflexivity || discriminate).
  - rewrite orb_false_iff, IH.
    destruct (Js.startsWith (String c s) t); simpl; split; intros H.
    + destruct H; discriminate.
    + discriminate.
    + apply H.
    + split; [reflexivity | apply H].
Qed.

Lemma startsWith_cons (a b : ascii) (p s : string) :
  Js.startsWith (String b s) (String a p) = Ascii.eqb a b && Js.startsWith s p.
Proof. reflexivity. Qed.

(** A match of [p] that begins in [r] and runs on into what follows [r]
    meets the first unit of what follows. *)
Lemma startsWith_across (p r : string) (x : ascii) (t : string) :
  Js.startsWith (r +:+ String x t) p = true ->
  Js.startsWith r p = true \/ Js.hasUnit x p = true.
Proof.
  revert r. induction p as [|a p IH]; intros r H.
  - left. reflexivity.
  - destruct r as [|b r].
    + rewrite app_nil_l_s, startsWith_cons in H.
      apply andb_true_iff in H as [H _].
      right. simpl. rewrite H. reflexivity.
    + rewrite app_cons_s, startsWith_cons in H.
      apply andb_true_iff in H as [Hab H].
      destruct (IH r H) as [Hr|Hx].
      * left. rewrite startsWith_cons, Hab, Hr. reflexivity.
      * right. simpl. rewrite Hx. apply orb_true_r.
Qed.

(** The suffix begins with the only colon it holds, so no occurrence of it
    can begin inside [model] and end inside an appended copy. *)
Lemma no_straddling_suffix (c : ascii) (r : string) :
  Js.startsWith (String c r) FEATHERLESS_SUFFIX = false ->
  Js.startsWith (String c (r +:+ FEATHERLESS_SUFFIX)) FEATHERLESS_SUFFIX = false.
Proof.
  unfold FEATHERLESS_SUFFIX. rewrite !startsWith_cons. intros H.
  destruct (Ascii.eqb ":" c); [|reflexivity].
  rewrite andb_true_l in *.
  destruct (Js.startsWith (r +:+ _) _) eqn:E; [|reflexivity].
  apply startsWith_across in E as [E|E]; [congruence | discriminate E].
Qed.

Lemma occurrences_fresh (model : string) :
  Js.includes model FEATHERLESS_SUFFIX = false ->
  Js.occurrences (model +:+ FEATHERLESS_SUFFIX) FEATHERLESS_SUFFIX = 1.
Proof.
  induction model as [|c r IH]; intros H.
  - reflexivity.
  - simpl in H. apply orb_false_iff in H as [Hp Hr].
    rewrite app_cons_s.
    change (Js.occurrences (String c (r +:+ FEATHERLESS_SUFFIX)) FEATHERLESS_SUFFIX)
      with ((if Js.startsWith (String c (r +:+ FEATHERLESS_SUFFIX))
                  FEATHERLESS_SUFFIX then 1 else 0)
            + Js.occurrences (r +:+ FEATHERLESS_SUFFIX) FEATHERLESS_SUFFIX).
    rewrite no_straddling_suffix by exact Hp.
    rewrite IH by exact Hr. reflexivity.
Qed.

(** C9. The rewrite appends [:featherless-ai] exactly when the identifier
    does not contain it; it is idempotent; and it never adds a second copy:
    the result holds the suffix as often as the input did, or once when the
    input did not hold it. *)
Theorem routeModel_idempotent_no_duplicate (model : string) :
  routeModel model =
    (if Js.includes model FEATHERLESS_SUFFIX
     then model
     else model +:+ FEATHERLESS_SUFFIX)
  /\ routeModel (routeModel model) = routeModel model
  /\ Js.occurrences (routeModel model) FEATHERLESS_SUFFIX =
     Nat.max 1 (Js.occurrences model FEATHERLESS_SUFFIX).
Proof.
  unfold routeModel.
  destruct (Js.includes model FEATHERLESS_SUFFIX) eqn:E; simpl.
  - repeat split.
    + rewrite E. reflexivity.
    + destruct (Js.occurrences model FEATHERLESS_SUFFIX) eqn:O.
      * apply includes_occurrences in O. congruence.
      * simpl. reflexivity.
  - repeat split.
    + rewrite includes_app_r. reflexivity.
    + rewrite occurrences_fresh by exact E.
      apply includes_occurrences in E. rewrite E. reflexivity.
Qed.

Section DispatchFacts.

Variable JSON_parse : string -> option Json.

(** The recursive equation of the dispatcher, as the code reads. *)
Lemma fetchWithRetry_body provider attempt env w :
  fetchWithRetry JSON_parse provider attempt env w =
  match fetch env (requests w) with
  | Rejected error => (Rejected error, sent w)
  | Resolved response =>
      let w1 := tracked (parseRateLimitHeaders (headers response) provider
                           (clock env (requests w)) (rateLimits w)) (sent w) in
      match retryDecision JSON_parse provider response attempt
              (random env (requests w)) with
      | Return => (Resolved response, w1)
      | RetryAfter delay =>
          fetchWithRetry JSON_parse provider (S attempt) env (sleep delay w1)
      end
  end.
Proof.
  rewrite fetchWithRetry_unfold_eq.
  unfold fetchWithRetry_unfold, fetchWithRetry_unfold_clause_1, inspect.
  destruct (fetch env (requests w)) as [response|error]; [|reflexivity].
  unfold fetchWithRetry_unfold_clause_1_clause_2. cbv zeta.
  destruct (retryDecision _ _ _ _ _); reflexivity.
Qed.

(** Which guard let a retry through. *)
Lemma retryDecision_guards provider response attempt rnd delay :
  retryDecision JSON_parse provider response attempt rnd = RetryAfter delay ->
  (provider = "featherless" /\ status response = 400%Z /\ attempt < 5
     /\ delay = Ms (coldDelay attempt))
  \/ attempt < 3.
Proof.
  unfold retryDecision, MAX_RETRIES.
  destruct (String.eqb provider "featherless" && (status response =? 400)%Z) eqn:F.
  - apply andb_true_iff in F as [Fp Fs].
    apply String.eqb_eq in Fp. apply Z.eqb_eq in Fs.
    destruct (json JSON_parse response) as [e|]; [|discriminate].
    destruct (coldMarker e) as [[|]|]; try discriminate.
    destruct (attempt <? 5) eqn:A; [|discriminate].
    apply Nat.ltb_lt in A. intros H. inversion H; subst. left. auto.
  - destruct (String.eqb provider "huggingface" && _ && (attempt <? 3)) eqn:H.
    + apply andb_true_iff in H as [_ A]. apply Nat.ltb_lt in A. auto.
    + destruct (existsb _ _ && (attempt <? 3)) eqn:G; [|discriminate].
      apply andb_true_iff in G as [_ A]. apply Nat.ltb_lt in A. auto.
Qed.

(** Every dispatch sends at least one request and, from [attempt], at
    most [6 - attempt] (one when [attempt] is 5 or more). *)
Lemma fetchWithRetry_requests provider attempt env w :
  requests w < requests (fetchWithRetry JSON_parse provider attempt env w).2
    <= requests w + Nat.max 1 (6 - attempt).
Proof.
  remember (5 - attempt) as n eqn:Hn.
  revert attempt w Hn.
  induction n as [n IH] using lt_wf_ind. intros attempt w Hn.
  rewrite fetchWithRetry_body.
  destruct (fetch env (requests w)) as [response|error]; [|simpl; lia].
  cbv zeta.
  destruct (retryDecision JSON_parse provider response attempt _) as [|delay] eqn:D;
    [simpl; lia|].
  apply retryDecision_guard in D.
  specialize (IH (5 - S attempt) ltac:(lia) (S attempt)
                (sleep delay (tracked (parseRateLimitHeaders (headers response)
                   provider (clock env (requests w)) (rateLimits w)) (sent w)))
                eq_refl).
  simpl in IH. lia.
Qed.

(** The dispatcher hands back what the last request it sent received. *)
Lemma fetchWithRetry_last provider attempt env w :
  (fetchWithRetry JSON_parse provider attempt env w).1 =
  fetch env
    (Nat.pred (requests (fetchWithRetry JSON_parse provider attempt env w).2)).
Proof.
  remember (5 - attempt) as n eqn:Hn.
  revert attempt w Hn.
  induction n as [n IH] using lt_wf_ind. intros attempt w Hn.
  rewrite fetchWithRetry_body.
  destruct (fetch env (requests w)) as [response|error] eqn:F;
    [|simpl; congruence].
  cbv zeta.
  destruct (retryDecision JSON_parse provider response attempt _) as [|delay] eqn:D;
    [simpl; congruence|].
  apply retryDecision_guard in D.
  apply (IH (5 - S attempt)); [lia | reflexivity].
Qed.

Lemma fetchWithRetry_retries provider attempt env w response delay :
  fetch env (requests w) = Resolved response ->
  retryDecision JSON_parse provider response attempt (random env (requests w))
    = RetryAfter delay ->
  fetchWithRetry JSON_parse provider attempt env w =
  fetchWithRetry JSON_parse provider (S attempt) env
    (sleep delay
       (tracked (parseRateLimitHeaders (headers response) provider
                   (clock env (requests w)) (rateLimits w)) (sent w))).
Proof. intros F D. rewrite fetchWithRetry_body, F. cbv zeta. rewrite D. reflexivity. Qed.

Lemma fetchWithRetry_returns provider attempt env w response :
  fetch env (requests w) = Resolved response ->
  retryDecision JSON_parse provider response attempt (random env (requests w))
    = Return ->
  fetchWithRetry JSON_parse provider attempt env w =
  (Resolved response,
   tracked (parseRateLimitHeaders (headers response) provider
              (clock env (requests w)) (rateLimits w)) (sent w)).
Proof. intros F D. rewrite fetchWithRetry_body, F. cbv zeta. rewrite D. reflexivity. Qed.

(** One turn of the dispatcher on the next response of the environment,
    its branch decided by the lemma [lem]. *)
Ltac decide_by lem :=
  rewrite lem by assumption;
  repeat match goal with
         | C : coldBody _ _ = true |- _ => rewrite C
         end;
  reflexivity.
Ltac retry_by lem :=
  erewrite fetchWithRetry_retries; [| eassumption | decide_by lem].
Ltac return_by lem :=
  erewrite fetchWithRetry_returns; [| eassumption | decide_by lem].

Lemma featherless_400_decision response attempt rnd :
  status response = 400%Z ->
  retryDecision JSON_parse "featherless" response attempt rnd =
  if coldBody JSON_parse response && (attempt <? 5)
  then RetryAfter (Ms (coldDelay attempt))
  else Return.
Proof.
  intros S. unfold retryDecision, coldBody. rewrite S. simpl.
  destruct (json JSON_parse response) as [e|]; [|reflexivity].
  destruct (coldMarker e) as [[|]|]; reflexivity.
Qed.

Lemma huggingface_502_decision response attempt rnd :
  status response = 502%Z ->
  retryDecision JSON_parse "huggingface" response attempt rnd =
  if attempt <? 3 then RetryAfter (Ms (huggingfaceDelay attempt)) else Return.
Proof.
  intros S. unfold retryDecision, MAX_RETRIES. rewrite S. simpl.
  destruct (attempt <? 3); reflexivity.
Qed.

Lemma standard_status_not_400 (s : Z) :
  In s RETRY_STATUS_CODES -> (s =? 400)%Z = false.
Proof. unfold RETRY_STATUS_CODES. simpl. intros H. apply Z.eqb_neq. lia. Qed.

Lemma standard_status_listed (s : Z) :
  In s RETRY_STATUS_CODES -> existsb (Z.eqb s) RETRY_STATUS_CODES = true.
Proof.
  intros H. apply existsb_exists. exists s. split; [exact H | apply Z.eqb_refl].
Qed.

Lemma standard_decision provider response attempt rnd :
  In (status response) RETRY_STATUS_CODES ->
  retryDecision JSON_parse provider response attempt rnd =
  if attempt <? 3
  then RetryAfter
         (if String.eqb provider "huggingface" && (status response =? 502)%Z
          then Ms (huggingfaceDelay attempt)
          else standardDelay (Hdr.get (headers response) "Retry-After")
                             attempt rnd)
  else Return.
Proof.
  intros S. unfold retryDecision, MAX_RETRIES.
  rewrite (standard_status_not_400 _ S), andb_false_r.
  rewrite (standard_status_listed _ S). simpl.
  destruct (String.eqb provider "huggingface" && (status response =? 502)%Z);
    destruct (attempt <? 3); reflexivity.
Qed.

(** C2. Four responses in a row whose status is one of 429, 500, 502,
    503, 504 make the dispatcher retry exactly three times, for every
    provider, and hand back the fourth response as it was received: a
    response with such a status is retried while fewer than three retries
    were made and handed back after that; and whatever the responses,
    what the dispatcher hands back is what its last request received. *)
Theorem standard_retry_three_times_then_last
    provider env w r0 r1 r2 r3 :
  fetch env (requests w) = Resolved r0 ->
  fetch env (1 + requests w) = Resolved r1 ->
  fetch env (2 + requests w) = Resolved r2 ->
  fetch env (3 + requests w) = Resolved r3 ->
  In (status r0) RETRY_STATUS_CODES ->
  In (status r1) RETRY_STATUS_CODES ->
  In (status r2) RETRY_STATUS_CODES ->
  In (status r3) RETRY_STATUS_CODES ->
  (fetchWithRetry JSON_parse provider 0 env w).1 = Resolved r3 /\
  requests (fetchWithRetry JSON_parse provider 0 env w).2 = 4 + requests w /\
  length (sleeps (fetchWithRetry JSON_parse provider 0 env w).2)
    = 3 + length (sleeps w) /\
  (forall response attempt rnd,
      In (status response) RETRY_STATUS_CODES ->
      exists delay,
        retryDecision JSON_parse provider response attempt rnd =
        if attempt <? 3 then RetryAfter delay else Return) /\
  (forall attempt env' w',
      (fetchWithRetry JSON_parse provider attempt env' w').1 =
      fetch env'
        (Nat.pred
           (requests (fetchWithRetry JSON_parse provider attempt env' w').2))).
Proof.
  intros F0 F1 F2 F3 S0 S1 S2 S3.
  do 3 retry_by standard_decision.
  return_by standard_decision.
  simpl. repeat split.
  - intros response attempt rnd H. eexists. apply standard_decision, H.
  - intros. apply fetchWithRetry_last.
Qed.

(** *** The cold-start schedules *)

Lemma coldDelay_mono (a b : nat) : a <= b -> (coldDelay a <= coldDelay b)%Q.
Proof.
  intros H. unfold coldDelay. apply Q.min_le_compat_l.
  apply Qmult_le_l; [reflexivity|].
  apply Qpower_le_compat_l; [lia | discriminate].
Qed.

Lemma coldDelay_capped (a : nat) : (coldDelay a <= 30000)%Q.
Proof. apply Q.le_min_l. Qed.

Lemma featherless_cold_run env w r0 r1 r2 r3 r4 r5 :
  fetch env (requests w) = Resolved r0 ->
  fetch env (1 + requests w) = Resolved r1 ->
  fetch env (2 + requests w) = Resolved r2 ->
  fetch env (3 + requests w) = Resolved r3 ->
  fetch env (4 + requests w) = Resolved r4 ->
  fetch env (5 + requests w) = Resolved r5 ->
  Forall (fun r => status r = 400%Z /\ coldBody JSON_parse r = true)
         [r0; r1; r2; r3; r4; r5] ->
  (fetchWithRetry JSON_parse "featherless" 0 env w).1 = Resolved r5 /\
  requests (fetchWithRetry JSON_parse "featherless" 0 env w).2 = 6 + requests w /\
  sleeps (fetchWithRetry JSON_parse "featherless" 0 env w).2 =
    [Ms (coldDelay 4); Ms (coldDelay 3); Ms (coldDelay 2);
     Ms (coldDelay 1); Ms (coldDelay 0)] ++ sleeps w.
Proof.
  intros F0 F1 F2 F3 F4 F5 H.
  repeat match goal with
         | H : Forall _ (_ :: _) |- _ => inversion_clear H
         | H : _ /\ _ |- _ => destruct H
         end.
  do 5 retry_by featherless_400_decision.
  return_by featherless_400_decision.
  simpl. repeat split.
Qed.

Lemma huggingface_502_run env w r0 r1 r2 r3 :
  fetch env (requests w) = Resolved r0 ->
  fetch env (1 + requests w) = Resolved r1 ->
  fetch env (2 + requests w) = Resolved r2 ->
  fetch env (3 + requests w) = Resolved r3 ->
  Forall (fun r => status r = 502%Z) [r0; r1; r2; r3] ->
  (fetchWithRetry JSON_parse "huggingface" 0 env w).1 = Resolved r3 /\
  requests (fetchWithRetry JSON_parse "huggingface" 0 env w).2 = 4 + requests w /\
  sleeps (fetchWithRetry JSON_parse "huggingface" 0 env w).2 =
    [Ms (huggingfaceDelay 2); Ms (huggingfaceDelay 1); Ms (huggingfaceDelay 0)]
    ++ sleeps w.
Proof.
  intros F0 F1 F2 F3 H.
  repeat match goal with
         | H : Forall _ (_ :: _) |- _ => inversion_clear H
         end.
  do 3 retry_by huggingface_502_decision.
  return_by huggingface_502_decision.
  simpl. repeat split.
Qed.

(** C1, as the code has it.  Featherless: six responses in a row with
    status 400 and the marker in a JSON body make the dispatcher retry
    exactly five times, sleeping [min(30000, 5000 * 1.5^attempt)] before
    each retry, a schedule that never decreases and never passes the cap.
    HuggingFace: four responses in a row with status 502, whatever their
    body, make it retry exactly three times, sleeping
    [5000 * 2^attempt]: 5000, 10000, 20000. *)
Theorem cold_start_schedules env w :
  (forall r0 r1 r2 r3 r4 r5,
      fetch env (requests w) = Resolved r0 ->
      fetch env (1 + requests w) = Resolved r1 ->
      fetch env (2 + requests w) = Resolved r2 ->
      fetch env (3 + requests w) = Resolved r3 ->
      fetch env (4 + requests w) = Resolved r4 ->
      fetch env (5 + requests w) = Resolved r5 ->
      Forall (fun r => status r = 400%Z /\ coldBody JSON_parse r = true)
             [r0; r1; r2; r3; r4; r5] ->
      (fetchWithRetry JSON_parse "featherless" 0 env w).1 = Resolved r5 /\
      requests (fetchWithRetry JSON_parse "featherless" 0 env w).2 = 6 + requests w /\
      sleeps (fetchWithRetry JSON_parse "featherless" 0 env w).2 =
        [Ms (coldDelay 4); Ms (coldDelay 3); Ms (coldDelay 2);
         Ms (coldDelay 1); Ms (coldDelay 0)] ++ sleeps w) /\
  (forall r0 r1 r2 r3,
      fetch env (requests w) = Resolved r0 ->
      fetch env (1 + requests w) = Resolved r1 ->
      fetch env (2 + requests w) = Resolved r2 ->
      fetch env (3 + requests w) = Resolved r3 ->
      Forall (fun r => status r = 502%Z) [r0; r1; r2; r3] ->
      (fetchWithRetry JSON_parse "huggingface" 0 env w).1 = Resolved r3 /\
      requests (fetchWithRetry JSON_parse "huggingface" 0 env w).2 = 4 + requests w /\
      sleeps (fetchWithRetry JSON_parse "huggingface" 0 env w).2 =
        [Ms (huggingfaceDelay 2); Ms (huggingfaceDelay 1);
         Ms (huggingfaceDelay 0)] ++ sleeps w) /\
  (forall a : nat,
      (coldDelay a == Qmin 30000 (5000 * (3 # 2) ^ Z.of_nat a))%Q) /\
  (forall a b : nat, a <= b -> (coldDelay a <= coldDelay b)%Q) /\
  (forall a : nat, (coldDelay a <= 30000)%Q) /\
  (coldDelay 0 == 5000 /\ coldDelay 1 == 7500 /\ coldDelay 2 == 11250 /\
   coldDelay 3 == 16875 /\ coldDelay 4 == 50625 # 2)%Q /\
  (huggingfaceDelay 0 == 5000 /\ huggingfaceDelay 1 == 10000 /\
   huggingfaceDelay 2 == 20000)%Q.
Proof.
  split; [intros; eapply featherless_cold_run; eassumption|].
  split; [intros; eapply huggingface_502_run; eassumption|].
  split; [intros; reflexivity|].
  split; [intros; apply coldDelay_mono; assumption|].
  split; [apply coldDelay_capped|].
  split; repeat split; reflexivity.
Qed.

(** C3, as the code has it.  A Featherless response with status 400 is
    retried as cold exactly when its body reads as JSON that carries the
    marker, and fewer than five retries were made; for a message that is
    a string the marker is the substring [Cold] or [Not Ready], unit for
    unit: the comparison distinguishes upper from lower case. *)
Theorem featherless_cold_classification response attempt rnd :
  status response = 400%Z ->
  retryDecision JSON_parse "featherless" response attempt rnd =
    (if coldBody JSON_parse response && (attempt <? 5)
     then RetryAfter (Ms (coldDelay attempt))
     else Return)
  /\ (forall members message,
        json JSON_parse response = Some (JObject members) ->
        JsValue.member "message" members = Some (JString message) ->
        coldBody JSON_parse response =
          Js.includes message "Cold" || Js.includes message "Not Ready").
Proof.
  intros S. split; [apply featherless_400_decision, S|].
  intros members message J M. unfold coldBody. rewrite J.
  unfold coldMarker. simpl. rewrite M. simpl.
  destruct (Js.includes message "Cold"); [reflexivity|]. simpl.
  destruct (Js.includes message "Not Ready"); reflexivity.
Qed.

(** C10. The dispatcher is a total function: its recursion is on
    [5 - attempt], which every retry lowers.  Every retry is let through
    by [attempt < 5] on the Featherless cold path and by [attempt < 3] on
    the others, and a dispatch that starts at attempt 0 sends at least one
    and at most six requests. *)
Theorem fetchWithRetry_at_most_six_requests provider env w :
  requests w < requests (fetchWithRetry JSON_parse provider 0 env w).2 <= 6 + requests w
  /\ (forall attempt env' w',
        requests w' < requests (fetchWithRetry JSON_parse provider attempt env' w').2
          <= requests w' + Nat.max 1 (6 - attempt))
  /\ (forall response attempt rnd delay,
        retryDecision JSON_parse provider response attempt rnd = RetryAfter delay ->
        (provider = "featherless" /\ status response = 400%Z /\ attempt < 5
           /\ delay = Ms (coldDelay attempt))
        \/ attempt < 3)
  /\ (forall attempt env' w' response delay,
        fetch env' (requests w') = Resolved response ->
        retryDecision JSON_parse provider response attempt (random env' (requests w'))
          = RetryAfter delay ->
        exists w'',
          requests w'' = S (requests w') /\
          fetchWithRetry JSON_parse provider attempt env' w' =
          fetchWithRetry JSON_parse provider (S attempt) env' w'').
Proof.
  split; [|split; [|split]].
  - pose proof (fetchWithRetry_requests provider 0 env w) as H.
    simpl in H. lia.
  - intros. apply fetchWithRetry_requests.
  - intros. eapply retryDecision_guards; eassumption.
  - intros attempt env' w' response delay F D.
    eexists. split; [|apply (fetchWithRetry_retries _ _ _ _ _ _ F D)].
    reflexivity.
Qed.

End DispatchFacts.

(** ** Stream reading *)

Lemma split_cons (s : string) : exists h t, Js.split s = h :: t.
Proof.
  destruct s as [|c r]; simpl; [eauto|].
  destruct (Ascii.eqb c Js.LF); [eauto|].
  destruct (Js.split r); eauto.
Qed.

Lemma cut_nil : cut EmptyString = ([], EmptyString).
Proof. reflexivity. Qed.

Lemma cut_cons (c : ascii) (r : string) :
  cut (String c r) =
  let '(ls, rest) := cut r in
  if Ascii.eqb c Js.LF then (EmptyString :: ls, rest)
  else match ls with
       | [] => ([], String c rest)
       | l :: ls' => (String c l :: ls', rest)
       end.
Proof.
  unfold cut. simpl Js.split.
  destruct (split_cons r) as (h & t & E). rewrite E.
  destruct (Ascii.eqb c Js.LF).
  - reflexivity.
  - destruct t as [|h' t]; reflexivity.
Qed.

(** Reading [a] and then [b] leaves the lines of [a], then the lines of
    what [a] left pending followed by [b]. *)
Lemma cut_app (a b : string) :
  cut (a +:+ b) =
  let '(la, ra) := cut a in
  let '(lb, rb) := cut (ra +:+ b) in
  (la ++ lb, rb).
Proof.
  induction a as [|c r IH].
  - rewrite app_nil_l_s, cut_nil, app_nil_l_s. destruct (cut b). reflexivity.
  - rewrite app_cons_s, !cut_cons, IH.
    destruct (cut r) as [lr rr].
    destruct (Ascii.eqb c Js.LF) eqn:C.
    + destruct (cut (rr +:+ b)) as [lb rb]. reflexivity.
    + destruct lr as [|l lr'].
      * rewrite app_cons_s, cut_cons, C.
        destruct (cut (rr +:+ b)) as [lb rb]. destruct lb; reflexivity.
      * destruct (cut (rr +:+ b)) as [lb rb]. reflexivity.
Qed.

(** The pending partial line holds no line feed. *)
Lemma cut_pending (s : string) : cut (cut s).2 = ([], (cut s).2).
Proof.
  induction s as [|c r IH]; [reflexivity|].
  rewrite cut_cons. destruct (cut r) as [lr rr]. simpl in IH.
  destruct (Ascii.eqb c Js.LF) eqn:C; [exact IH|].
  destruct lr as [|l lr']; [|exact IH].
  simpl. rewrite cut_cons, IH, C. reflexivity.
Qed.

Lemma forLines_app {A : Type} (handle : string -> LineStep A) (l1 l2 : list string) :
  forLines handle (l1 ++ l2) =
  let '(ys, stopped) := forLines handle l1 in
  if stopped then (ys, true)
  else let '(ys', stopped') := forLines handle l2 in (ys ++ ys', stopped').
Proof.
  induction l1 as [|l l1 IH]; simpl.
  - destruct (forLines handle l2). reflexivity.
  - destruct (handle l).
    + exact IH.
    + rewrite IH. destruct (forLines handle l1) as [ys [|]]; [reflexivity|].
      destruct (forLines handle l2). reflexivity.
    + reflexivity.
Qed.

Lemma readLines_cons {A : Type} (handle : string -> LineStep A) buffer chunk rest :
  readLines handle buffer (chunk :: rest) =
  let '(ys, stopped) := forLines handle (cut (buffer +:+ chunk)).1 in
  if stopped then ys
  else ys ++ readLines handle (cut (buffer +:+ chunk)).2 rest.
Proof. reflexivity. Qed.

(** What a reader yields is decided by the complete lines of the whole
    text read, whatever the reads were: no line is handled before its line
    feed has come, and the partial line after the last line feed never is. *)
Lemma readLines_whole {A : Type} (handle : string -> LineStep A) buffer reads :
  cut buffer = ([], buffer) ->
  readLines handle buffer reads =
  (forLines handle (cut (buffer +:+ concatText reads)).1).1.
Proof.
  revert buffer. induction reads as [|chunk rest IH]; intros buffer Hb.
  - simpl concatText. rewrite app_nil_r_s, Hb. reflexivity.
  - rewrite readLines_cons. simpl concatText.
    rewrite <- app_assoc_s, (cut_app (buffer +:+ chunk)).
    pose proof (cut_pending (buffer +:+ chunk)) as Hp.
    destruct (cut (buffer +:+ chunk)) as [la ra]. cbn [fst snd] in Hp |- *.
    rewrite (IH ra Hp).
    destruct (cut (ra +:+ concatText rest)) as [lb rb]. cbn [fst snd].
    rewrite forLines_app.
    destruct (forLines handle la) as [ys [|]]; [reflexivity|].
    destruct (forLines handle lb). reflexivity.
Qed.

(** Any two ways of splitting one text into reads give the same yields. *)
Lemma readLines_split_invariant {A : Type} (handle : string -> LineStep A)
    (reads1 reads2 : list string) :
  concatText reads1 = concatText reads2 ->
  readLines handle EmptyString reads1 = readLines handle EmptyString reads2.
Proof.
  intros E. rewrite !readLines_whole by reflexivity. rewrite E. reflexivity.
Qed.

Section StreamFacts.

Variable JSON_parse : string -> option Json.

(** The frontend reader gives the same increments however the body was
    split into reads. *)
Lemma chatStream_split_invariant st hs (reads1 reads2 : list string) :
  concatText reads1 = concatText reads2 ->
  chatStream JSON_parse (mkResponse st hs (Some reads1)) =
  chatStream JSON_parse (mkResponse st hs (Some reads2)).
Proof.
  intros E. unfold chatStream, json, ok. simpl. rewrite E.
  rewrite (readLines_split_invariant _ _ _ E). reflexivity.
Qed.

Lemma chatStream_line_done :
  chatStream_line JSON_parse "data: [DONE]" = Stop.
Proof. reflexivity. Qed.

Lemma featherless_line_done :
  featherless_line JSON_parse "data: [DONE]" = Skip.
Proof. reflexivity. Qed.

Lemma forLines_skip {A : Type} (handle : string -> LineStep A) before line after :
  handle line = Skip ->
  forLines handle (before ++ line :: after) = forLines handle (before ++ after).
Proof.
  intros H. rewrite !forLines_app. simpl. rewrite H. reflexivity.
Qed.

Lemma forLines_stop {A : Type} (handle : string -> LineStep A) before line after :
  handle line = Stop ->
  (forLines handle (before ++ line :: after)).1 = (forLines handle before).1.
Proof.
  intros H. rewrite forLines_app. simpl. rewrite H.
  destruct (forLines handle before) as [ys [|]]; simpl; [reflexivity|].
  apply app_nil_r.
Qed.

(** C4, as the code has it.  In the frontend reader a complete line
    [data: [DONE]] ends the sequence: the increments are those of the
    lines before it, whatever follows in the same read or in later ones.
    In the Featherless adapter that line is skipped like a blank one, and
    the lines after it are read on as if it were not there. *)
Theorem done_line_ends_frontend_only (reads : list string)
    (before after : list string) :
  (cut (concatText reads)).1 = before ++ "data: [DONE]" :: after ->
  readLines (chatStream_line JSON_parse) EmptyString reads
    = (forLines (chatStream_line JSON_parse) before).1
  /\ readLines (featherless_line JSON_parse) EmptyString reads
    = (forLines (featherless_line JSON_parse) (before ++ after)).1.
Proof.
  intros H. rewrite !readLines_whole by reflexivity.
  rewrite app_nil_l_s, H. split.
  - apply forLines_stop, chatStream_line_done.
  - rewrite forLines_skip by apply featherless_line_done. reflexivity.
Qed.

End StreamFacts.

(** ** Rate-limit tracking *)

Lemma lowerUnit_idem (c : ascii) : Hdr.lowerUnit (Hdr.lowerUnit c) = Hdr.lowerUnit c.
Proof. destruct c as [[] [] [] [] [] [] [] []]; reflexivity. Qed.

Lemma toLowerCase_idem (s : string) :
  Hdr.toLowerCase (Hdr.toLowerCase s) = Hdr.toLowerCase s.
Proof.
  induction s as [|c s IH]; [reflexivity|].
  unfold Hdr.toLowerCase in *. simpl. rewrite lowerUnit_idem, IH. reflexivity.
Qed.

(** A header is found under any spelling of its name. *)
Lemma get_any_case (h : Headers) (name name' : string) :
  Hdr.toLowerCase name = Hdr.toLowerCase name' ->
  Hdr.get h name = Hdr.get h name'.
Proof.
  intros E. unfold Hdr.get.
  rewrite (List.filter_ext (fun kv => Hdr.sameName kv.1 name)
                           (fun kv => Hdr.sameName kv.1 name')); [reflexivity|].
  intros kv. unfold Hdr.sameName. rewrite E. reflexivity.
Qed.

Lemma filter_lowerNames (h : Headers) (name : string) :
  List.filter (fun kv => Hdr.sameName kv.1 name) (Hdr.lowerNames h)
  = Hdr.lowerNames (List.filter (fun kv => Hdr.sameName kv.1 name) h).
Proof.
  induction h as [|[k v] h IH]; [reflexivity|].
  change (Hdr.lowerNames ((k, v) :: h))
    with ((Hdr.toLowerCase k, v) :: Hdr.lowerNames h).
  cbn [List.filter fst].
  assert (Hdr.sameName (Hdr.toLowerCase k) name = Hdr.sameName k name) as ->.
  { unfold Hdr.sameName. rewrite toLowerCase_idem. reflexivity. }
  destruct (Hdr.sameName k name); rewrite IH; reflexivity.
Qed.

Lemma values_lowerNames (h : Headers) : (Hdr.lowerNames h).*2 = h.*2.
Proof.
  induction h as [|[k v] h IH]; [reflexivity|].
  simpl. f_equal. exact IH.
Qed.

(** And however the response spelled it. *)
Lemma get_lowerNames (h : Headers) (name : string) :
  Hdr.get (Hdr.lowerNames h) name = Hdr.get h name.
Proof.
  unfold Hdr.get. rewrite filter_lowerNames.
  destruct (List.filter _ h) as [|kv kvs] eqn:E; [reflexivity|].
  rewrite <- (values_lowerNames (kv :: kvs)). destruct kv. reflexivity.
Qed.

Lemma orElse_same (a : option string) : Hdr.orElse a a = a.
Proof.
  destruct a as [s|]; [|reflexivity]. simpl.
  destruct (Js.truthy s); reflexivity.
Qed.

Lemma truthy_nonempty (s : string) : Js.truthy s = true <-> s <> EmptyString.
Proof. destruct s; simpl; split; (congruence || discriminate || auto). Qed.

(** The tracker, read without the second spelling of each name, which
    finds what the first spelling finds. *)
Lemma parseRateLimitHeaders_spec headers provider now rl :
  parseRateLimitHeaders headers provider now rl =
  match Hdr.get headers "x-ratelimit-limit",
        Hdr.get headers "x-ratelimit-remaining" with
  | Some l, Some r =>
      if Js.truthy l && Js.truthy r then
        <[ provider :=
             {| limit := parseInt l;
                remaining := parseInt r;
                reset := resetOf (Hdr.get headers "x-ratelimit-reset") now |} ]> rl
      else rl
  | _, _ => rl
  end.
Proof.
  unfold parseRateLimitHeaders.
  rewrite (get_any_case headers "X-RateLimit-Limit" "x-ratelimit-limit")
    by reflexivity.
  rewrite (get_any_case headers "X-RateLimit-Remaining" "x-ratelimit-remaining")
    by reflexivity.
  rewrite (get_any_case headers "X-RateLimit-Reset" "x-ratelimit-reset")
    by reflexivity.
  rewrite !orElse_same. reflexivity.
Qed.

(** C8, as the code has it.  When the limit header and the remaining
    header are both present with a value that is not empty, under any
    spelling of their names, the provider's snapshot is overwritten with
    the values read; otherwise the map is left as it was; and in both
    cases every other provider's snapshot is left as it was. *)
Theorem parseRateLimitHeaders_overwrites_or_keeps
    (headers : Headers) (provider : string) (now : Z)
    (rl : gmap string RateLimitInfo) :
  (forall l r,
      Hdr.get headers "x-ratelimit-limit" = Some l ->
      Hdr.get headers "x-ratelimit-remaining" = Some r ->
      l <> EmptyString -> r <> EmptyString ->
      parseRateLimitHeaders headers provider now rl !! provider =
      Some {| limit := parseInt l;
              remaining := parseInt r;
              reset := resetOf (Hdr.get headers "x-ratelimit-reset") now |})
  /\ (Hdr.truthy (Hdr.get headers "x-ratelimit-limit")
      && Hdr.truthy (Hdr.get headers "x-ratelimit-remaining") = false ->
      parseRateLimitHeaders headers provider now rl = rl)
  /\ (forall other,
        other <> provider ->
        parseRateLimitHeaders headers provider now rl !! other = rl !! other)
  /\ (forall name name',
        Hdr.toLowerCase name = Hdr.toLowerCase name' ->
        Hdr.get headers name = Hdr.get headers name')
  /\ parseRateLimitHeaders (Hdr.lowerNames headers) provider now rl
     = parseRateLimitHeaders headers provider now rl.
Proof.
  split; [|split; [|split; [|split]]].
  - intros l r Hl Hr Nl Nr. rewrite parseRateLimitHeaders_spec, Hl, Hr.
    apply truthy_nonempty in Nl, Nr. rewrite Nl, Nr. simpl.
    apply lookup_insert_eq.
  - intros H. rewrite parseRateLimitHeaders_spec.
    destruct (Hdr.get headers "x-ratelimit-limit") as [l|]; [|reflexivity].
    destruct (Hdr.get headers "x-ratelimit-remaining") as [r|]; [|reflexivity].
    simpl in H. rewrite H. reflexivity.
  - intros other Ho. rewrite parseRateLimitHeaders_spec.
    destruct (Hdr.get headers "x-ratelimit-limit") as [l|]; [|reflexivity].
    destruct (Hdr.get headers "x-ratelimit-remaining") as [r|]; [|reflexivity].
    destruct (Js.truthy l && Js.truthy r); [|reflexivity].
    apply lookup_insert_ne. congruence.
  - apply get_any_case.
  - rewrite !parseRateLimitHeaders_spec, !get_lowerNames. reflexivity.
Qed.

Section EndpointFacts.

Variable JSON_parse : string -> option Json.

(** C6, as the code has it.  The frontend reader and the Featherless
    adapter throw their own error when an ok response has no body.  The
    chat-completions endpoint has no such error: a streaming request
    whose upstream response is ok and has no body takes the branch of a
    request that does not stream, where reading the absent body as JSON
    fails, and the reply is the 500 of the endpoint's catch-all. *)
Theorem missing_body_on_stream :
  (forall res,
      ok res = true -> body res = None ->
      chatStream JSON_parse res = Throws Json (ErrorMsg "No response body"))
  /\ (forall response,
        ok response = true -> body response = None ->
        featherlessChatStream JSON_parse response =
        Throws _ (ErrorMsg "No response body for streaming"))
  /\ (forall provider config env w response w',
        lookupKey provider PROVIDERS = Some config ->
        fetchWithRetry JSON_parse provider 0 env w = (Resolved response, w') ->
        ok response = true -> body response = None ->
        chatCompletions JSON_parse provider true env w
          = (Failure SyntaxError provider, w')
        /\ chatCompletions JSON_parse provider true env w
          = chatCompletions JSON_parse provider false env w).
Proof.
  split; [|split].
  - intros res O B. unfold chatStream. rewrite O, B. reflexivity.
  - intros res O B. unfold featherlessChatStream. rewrite O, B. reflexivity.
  - intros provider config env w response w' P F O B.
    unfold chatCompletions. rewrite P, F, O, B. simpl.
    unfold json. rewrite B. split; reflexivity.
Qed.

Variable process_env : gmap string string.

Lemma tryEntry_walk_head provider model rest env w :
  walk JSON_parse process_env ((provider, model) :: rest) env w =
  match tryEntry JSON_parse process_env provider env w with
  | (Succeeded data, _) => [Succeeded data]
  | (r, w') => r :: walk JSON_parse process_env rest env w'
  end.
Proof. reflexivity. Qed.

(** C7, as the code has it.  The failover endpoint gives its 503 exactly
    when the loop took a turn for every entry of the chain and each turn
    was a skip or a failure; that reply is the fixed message
    [All providers in failover chain failed], the same for every chain:
    it holds neither the chain nor any entry's error. *)
Theorem failover_exhausted_iff (chain : list (string * string)) env w :
  ((tryChain JSON_parse process_env chain env w).1 = exhausted <->
     length (walk JSON_parse process_env chain env w) = length chain /\
     Forall (fun r => r = Skipped \/ r = Failed)
            (walk JSON_parse process_env chain env w))
  /\ (forall status body,
        (tryChain JSON_parse process_env chain env w).1 = StatusJson status body ->
        StatusJson status body = exhausted).
Proof.
  revert w. induction chain as [|[provider model] rest IH]; intros w.
  - simpl. split; [split; [auto|reflexivity]|].
    intros status body [= <- <-]. reflexivity.
  - rewrite tryEntry_walk_head. simpl tryChain.
    destruct (tryEntry JSON_parse process_env provider env w) as [[| |data] w1].
    + destruct (IH w1) as [[I1 I2] I3]. split; [split|exact I3].
      * intros H. destruct (I1 H) as [L F]. simpl. split; [lia|].
        constructor; [auto|exact F].
      * simpl. intros [L F]. apply I2. inversion_clear F. split; [lia|assumption].
    + destruct (IH w1) as [[I1 I2] I3]. split; [split|exact I3].
      * intros H. destruct (I1 H) as [L F]. simpl. split; [lia|].
        constructor; [auto|exact F].
      * simpl. intros [L F]. apply I2. inversion_clear F. split; [lia|assumption].
    + simpl. split; [split|].
      * discriminate.
      * intros [_ F]. inversion_clear F as [|? ? [H|H] _]; discriminate.
      * discriminate.
Qed.

End EndpointFacts.

(** ** The properties at concrete inputs *)

Lemma In_503 : In 503%Z RETRY_STATUS_CODES.
Proof. right. right. right. left. reflexivity. Defined.

(** Six cold responses to Featherless: five retries on the schedule. *)
Lemma cold_start_schedules_witness :
  Forall (fun r => status r = 400%Z /\ coldBody JsonText.parse r = true)
         [Ex.cold400; Ex.cold400; Ex.cold400; Ex.cold400; Ex.cold400; Ex.cold400]
  /\ (fetchWithRetry JsonText.parse "featherless" 0 (Ex.steady Ex.cold400) Ex.idle).1
     = Resolved Ex.cold400
  /\ requests
       (fetchWithRetry JsonText.parse "featherless" 0 (Ex.steady Ex.cold400) Ex.idle).2
     = 6
  /\ sleeps
       (fetchWithRetry JsonText.parse "featherless" 0 (Ex.steady Ex.cold400) Ex.idle).2
     = [Ms (coldDelay 4); Ms (coldDelay 3); Ms (coldDelay 2);
        Ms (coldDelay 1); Ms (coldDelay 0)].
Proof.
  assert (Forall (fun r => status r = 400%Z /\ coldBody JsonText.parse r = true)
            [Ex.cold400; Ex.cold400; Ex.cold400; Ex.cold400; Ex.cold400; Ex.cold400])
    as H by (repeat constructor).
  split; [exact H|].
  exact (proj1 (cold_start_schedules JsonText.parse (Ex.steady Ex.cold400) Ex.idle)
           Ex.cold400 Ex.cold400 Ex.cold400 Ex.cold400 Ex.cold400 Ex.cold400
           eq_refl eq_refl eq_refl eq_refl eq_refl eq_refl H).
Defined.

(** The scenario of the specification: Featherless answers 400 with
    [Model is Cold] three times and then 200; the dispatcher hands back the
    200 after sleeping 5000, 7500 and 11250 ms. *)
Example three_cold_then_ok :
  (fetchWithRetry JsonText.parse "featherless" 0
     (Ex.after 3 Ex.cold400 Ex.done200) Ex.idle).1 = Resolved Ex.done200
  /\ Forall2 (fun slept ms => match slept with Ms d => (d == ms)%Q | MsNaN => False end)
       (sleeps (fetchWithRetry JsonText.parse "featherless" 0
                  (Ex.after 3 Ex.cold400 Ex.done200) Ex.idle).2)
       [11250%Q; 7500%Q; 5000%Q].
Proof.
  split; [reflexivity|].
  repeat constructor.
Qed.

(** C1 fails for HuggingFace: on 502 responses whose body carries the
    marker the dispatcher retries three times, not five, and sleeps 10000
    before the second retry, not 7500. *)
Lemma huggingface_cold_not_five_retries :
  lookupKey "huggingface" PROVIDERS
    = Some (mkProviderConfig "https://router.huggingface.co/v1"
              (mkFeatures true true false false true))
  /\ status Ex.cold502 = 502%Z
  /\ coldBody JsonText.parse Ex.cold502 = true
  /\ requests
       (fetchWithRetry JsonText.parse "huggingface" 0 (Ex.steady Ex.cold502) Ex.idle).2
     = 4
  /\ sleeps
       (fetchWithRetry JsonText.parse "huggingface" 0 (Ex.steady Ex.cold502) Ex.idle).2
     = [Ms 20000; Ms 10000; Ms 5000]
  /\ ~ (10000 == coldDelay 1)%Q
  /\ ~ (20000 == coldDelay 2)%Q.
Proof.
  repeat split; try reflexivity; intros H; discriminate H.
Qed.

(** Four 503 responses to OpenRouter: three retries, the fourth handed back. *)
Lemma standard_retry_witness :
  In (status Ex.busy503) RETRY_STATUS_CODES
  /\ (fetchWithRetry JsonText.parse "openrouter" 0 (Ex.steady Ex.busy503) Ex.idle).1
     = Resolved Ex.busy503
  /\ requests
       (fetchWithRetry JsonText.parse "openrouter" 0 (Ex.steady Ex.busy503) Ex.idle).2
     = 4.
Proof.
  split; [exact In_503|].
  pose proof (standard_retry_three_times_then_last JsonText.parse "openrouter"
                (Ex.steady Ex.busy503) Ex.idle
                Ex.busy503 Ex.busy503 Ex.busy503 Ex.busy503
                eq_refl eq_refl eq_refl eq_refl In_503 In_503 In_503 In_503)
    as (H1 & H2 & _).
  split; [exact H1 | exact H2].
Defined.

(** A 400 from Featherless with [Model is Cold]: retried after 5000 ms. *)
Lemma featherless_cold_classification_witness :
  status Ex.cold400 = 400%Z
  /\ retryDecision JsonText.parse "featherless" Ex.cold400 0 0
     = RetryAfter (Ms (coldDelay 0)).
Proof.
  split; [reflexivity|].
  exact (proj1 (featherless_cold_classification JsonText.parse Ex.cold400 0 0 eq_refl)).
Defined.

(** C3 fails on case: [model is cold] holds the marker when case is
    ignored, and the response is handed back without a retry. *)
Lemma lowercase_marker_not_cold :
  status Ex.lowercase400 = 400%Z
  /\ json JsonText.parse Ex.lowercase400
     = Some (JObject [("message", JString "model is cold")])
  /\ Js.includes (Hdr.toLowerCase "model is cold") (Hdr.toLowerCase "Cold") = true
  /\ retryDecision JsonText.parse "featherless" Ex.lowercase400 0 0 = Return
  /\ fetchWithRetry JsonText.parse "featherless" 0 (Ex.steady Ex.lowercase400) Ex.idle
     = (Resolved Ex.lowercase400, mkWorld 1 [] ∅).
Proof. repeat split; reflexivity. Qed.

(** Data, the sentinel, more data, all in one read. *)
Lemma done_line_witness :
  (cut (concatText Ex.doneThenData)).1
    = [Ex.dataLine "Hi"] ++ "data: [DONE]" :: [Ex.dataLine "late"]
  /\ readLines (chatStream_line JsonText.parse) EmptyString Ex.doneThenData
     = [JString "Hi"]
  /\ length (readLines (featherless_line JsonText.parse) EmptyString Ex.doneThenData)
     = 2.
Proof.
  split; [reflexivity|].
  destruct (done_line_ends_frontend_only JsonText.parse Ex.doneThenData
              [Ex.dataLine "Hi"] [Ex.dataLine "late"] eq_refl) as [H1 H2].
  split.
  - rewrite H1. reflexivity.
  - rewrite H2. reflexivity.
Defined.

(** C4 fails in the Featherless adapter: the line of data after the
    sentinel, in the same read, is still yielded. *)
Lemma featherless_reads_past_done :
  featherlessChatStream JsonText.parse (mkResponse 200 [] (Some Ex.doneThenData))
  = Yields _
      [ Chunk.mkChunk None "featherless" None
          [Chunk.mkChoiceDelta None None (Some (JString "Hi")) None];
        Chunk.mkChunk None "featherless" None
          [Chunk.mkChoiceDelta None None (Some (JString "late")) None] ].
Proof. reflexivity. Qed.

(** C5 at the failing input: one payload, relayed by the backend and read
    by the frontend.  Received in one read it is dropped whole, the line of
    data with the keep-alive comment, and nothing is yielded; received in
    two reads that cut the comment it is passed on and the increment is
    yielded.  Read without the relay, both give the increment. *)
Theorem relay_breaks_split_invariance :
  concatText Ex.keepAliveWhole = concatText Ex.keepAliveCut
  /\ relay Ex.keepAliveWhole = ([], Stalled)
  /\ relay Ex.keepAliveCut = (Ex.keepAliveCut, Ended)
  /\ readLines (chatStream_line JsonText.parse) EmptyString
       (relay Ex.keepAliveWhole).1 = []
  /\ readLines (chatStream_line JsonText.parse) EmptyString
       (relay Ex.keepAliveCut).1 = [JString "Hi"]
  /\ readLines (chatStream_line JsonText.parse) EmptyString Ex.keepAliveWhole
     = [JString "Hi"]
  /\ (chatCompletions JsonText.parse "openrouter" true
        (Ex.steady (mkResponse 200 [] (Some Ex.keepAliveWhole))) Ex.idle).1
     = Streaming "openrouter" [] Stalled
  /\ (chatCompletions JsonText.parse "openrouter" true
        (Ex.steady (mkResponse 200 [] (Some Ex.keepAliveCut))) Ex.idle).1
     = Streaming "openrouter" Ex.keepAliveCut Ended.
Proof. repeat split; reflexivity. Qed.

(** An ok response without a body, to a streaming request. *)
Lemma missing_body_witness :
  ok Ex.noContent204 = true /\ body Ex.noContent204 = None
  /\ chatStream JsonText.parse Ex.noContent204
     = Throws Json (ErrorMsg "No response body")
  /\ chatCompletions JsonText.parse "openrouter" true (Ex.steady Ex.noContent204) Ex.idle
     = (Failure SyntaxError "openrouter", mkWorld 1 [] ∅).
Proof.
  split; [reflexivity|]. split; [reflexivity|].
  destruct (missing_body_on_stream JsonText.parse) as (H1 & _ & H3).
  split.
  - exact (H1 Ex.noContent204 eq_refl eq_refl).
  - exact (proj1 (H3 "openrouter" _ (Ex.steady Ex.noContent204) Ex.idle
                     Ex.noContent204 (mkWorld 1 [] ∅)
                     eq_refl eq_refl eq_refl eq_refl)).
Defined.

(** C6 fails in the endpoint: the streaming flag changes nothing when the
    body is missing, and the failure is the JSON reader's. *)
Lemma bodyless_stream_decoded_as_json :
  ok Ex.noContent204 = true /\ body Ex.noContent204 = None
  /\ chatCompletions JsonText.parse "openrouter" true
       (Ex.steady Ex.noContent204) Ex.idle
     = chatCompletions JsonText.parse "openrouter" false
         (Ex.steady Ex.noContent204) Ex.idle
  /\ (chatCompletions JsonText.parse "openrouter" true
        (Ex.steady Ex.noContent204) Ex.idle).1
     = Failure SyntaxError "openrouter".
Proof. repeat split; reflexivity. Qed.

(** A chain whose first provider has no key and whose second is refused. *)
Lemma failover_exhausted_witness :
  walk JsonText.parse {["TOGETHER_API_KEY" := "k"]}
    [("openrouter", "openai/gpt-4o");
     ("together", "meta-llama/Llama-3.3-70B-Instruct-Turbo")]
    (Ex.steady Ex.denied401) Ex.idle
  = [Skipped; Failed]
  /\ (tryChain JsonText.parse {["TOGETHER_API_KEY" := "k"]}
        [("openrouter", "openai/gpt-4o");
         ("together", "meta-llama/Llama-3.3-70B-Instruct-Turbo")]
        (Ex.steady Ex.denied401) Ex.idle).1
     = exhausted.
Proof.
  split; [reflexivity|].
  apply (proj1 (failover_exhausted_iff JsonText.parse {["TOGETHER_API_KEY" := "k"]}
                  [("openrouter", "openai/gpt-4o");
                   ("together", "meta-llama/Llama-3.3-70B-Instruct-Turbo")]
                  (Ex.steady Ex.denied401) Ex.idle)).
  split; [reflexivity|].
  constructor; [left; reflexivity|].
  constructor; [right; reflexivity|]. constructor.
Defined.

(** C7 fails on the enumeration: two different chains, both exhausted, get
    the same reply, which names neither. *)
Lemma exhausted_reply_names_no_chain :
  lookupKey "gpt-4-class" FAILOVER_CHAINS <> lookupKey "claude-class" FAILOVER_CHAINS
  /\ (failover JsonText.parse Ex.allKeys "gpt-4-class" (Ex.steady Ex.denied401) Ex.idle).1
     = StatusJson 503
         (JObject [("error", JString "All providers in failover chain failed")])
  /\ (failover JsonText.parse Ex.allKeys "claude-class"
        (Ex.steady Ex.denied401) Ex.idle).1
     = (failover JsonText.parse Ex.allKeys "gpt-4-class"
          (Ex.steady Ex.denied401) Ex.idle).1.
Proof.
  split; [intros H; discriminate H|]. split; reflexivity.
Qed.

(** Both headers with a value, one of them spelled in capitals. *)
Lemma parseRateLimitHeaders_witness :
  Hdr.get Ex.bothLimits "x-ratelimit-limit" = Some "100"
  /\ Hdr.get Ex.bothLimits "x-ratelimit-remaining" = Some "42"
  /\ parseRateLimitHeaders Ex.bothLimits "openrouter" 0
       {["openrouter" := Ex.earlier]} !! "openrouter"
     = Some {| limit := Some 100%Z; remaining := Some 42%Z; reset := Some 60000%Z |}.
Proof.
  split; [reflexivity|]. split; [reflexivity|].
  exact (proj1 (parseRateLimitHeaders_overwrites_or_keeps Ex.bothLimits "openrouter" 0
                  {["openrouter" := Ex.earlier]})
           "100" "42" eq_refl eq_refl ltac:(discriminate) ltac:(discriminate)).
Defined.

(** C8 fails on an empty value: both headers are present, the limit with
    no value, and the earlier snapshot stays. *)
Lemma empty_limit_header_keeps_snapshot :
  Hdr.get Ex.emptyLimit "x-ratelimit-limit" = Some EmptyString
  /\ Hdr.get Ex.emptyLimit "x-ratelimit-remaining" = Some "5"
  /\ parseRateLimitHeaders Ex.emptyLimit "openrouter" 0
       {["openrouter" := Ex.earlier]}
     = {["openrouter" := Ex.earlier]}
  /\ parseRateLimitHeaders Ex.emptyLimit "openrouter" 0
       {["openrouter" := Ex.earlier]} !! "openrouter"
     <> Some {| limit := parseInt EmptyString; remaining := parseInt "5";
                reset := Some 60000%Z |}.
Proof.
  repeat split; try reflexivity. intros H; discriminate H.
Qed.

(** The sixth request of a cold Featherless dispatch is the last: at
    attempt 5 no guard lets a retry through. *)
Lemma six_requests_witness :
  retryDecision JsonText.parse "featherless" Ex.cold400 4 0
    = RetryAfter (Ms (coldDelay 4))
  /\ 4 < 5
  /\ requests
       (fetchWithRetry JsonText.parse "featherless" 0 (Ex.steady Ex.cold400) Ex.idle).2
     <= 6.
Proof.
  destruct (fetchWithRetry_at_most_six_requests JsonText.parse "featherless"
              (Ex.steady Ex.cold400) Ex.idle) as ([_ H1] & _ & H3 & _).
  split; [reflexivity|]. split.
  - destruct (H3 Ex.cold400 4 0%Q (Ms (coldDelay 4)) eq_refl) as [(_ & _ & H & _)|H].
    + exact H.
    + apply Nat.lt_lt_succ_r, Nat.lt_lt_succ_r. exact H.
  - exact H1.
Defined.

(** * Further properties *)

(** ** The dispatcher: effects and budgets *)

Lemma parseRateLimitHeaders_other headers provider now
    (rl : gmap string RateLimitInfo) (other : string) :
  other <> provider ->
  parseRateLimitHeaders headers provider now rl !! other = rl !! other.
Proof.
  intros Ho. rewrite parseRateLimitHeaders_spec.
  destruct (Hdr.get headers "x-ratelimit-limit") as [l|]; [|reflexivity].
  destruct (Hdr.get headers "x-ratelimit-remaining") as [r|]; [|reflexivity].
  destruct (Js.truthy l && Js.truthy r); [|reflexivity].
  apply lookup_insert_ne. congruence.
Qed.

Section DispatchEffects.

Variable JSON_parse : string -> option Json.
Variable provider : string.
Variable env : Env.

(** Induction along the turns of one dispatch: a property of the result
  that holds when the dispatcher hands back (a rejection or a response),
  and that passes from the retry to the turn that asked for it, holds of
  every dispatch. *)
Lemma fetchWithRetry_turns (P : nat -> World -> FetchResult * World -> Prop) :
(forall attempt w error,
    fetch env (requests w) = Rejected error ->
    P attempt w (Rejected error, sent w)) ->
(forall attempt w response,
    fetch env (requests w) = Resolved response ->
    retryDecision JSON_parse provider response attempt (random env (requests w))
      = Return ->
    P attempt w
      (Resolved response,
       tracked (parseRateLimitHeaders (headers response) provider
                  (clock env (requests w)) (rateLimits w)) (sent w))) ->
(forall attempt w response delay result,
    fetch env (requests w) = Resolved response ->
    retryDecision JSON_parse provider response attempt (random env (requests w))
      = RetryAfter delay ->
    P (S attempt)
      (sleep delay
         (tracked (parseRateLimitHeaders (headers response) provider
                     (clock env (requests w)) (rateLimits w)) (sent w)))
      result ->
    P attempt w result) ->
forall attempt w, P attempt w (fetchWithRetry JSON_parse provider attempt env w).
Proof.
intros Hrej Hret Hstep attempt.
remember (5 - attempt) as n eqn:Hn. revert attempt Hn.
induction n as [n IH] using lt_wf_ind. intros attempt Hn w.
rewrite fetchWithRetry_body.
destruct (fetch env (requests w)) as [response|error] eqn:F.
- cbv zeta.
  destruct (retryDecision JSON_parse provider response attempt _)
    as [|delay] eqn:D.
  + apply Hret; assumption.
  + eapply Hstep; [exact F | exact D |].
    apply retryDecision_guard in D.
    apply (IH (5 - S attempt)); [lia | reflexivity].
- apply Hrej, F.
Qed.

(** X1. A dispatch for one provider leaves the rate-limit snapshot of every
  other provider as it was, whatever the responses and however many
  retries. *)
Theorem fetchWithRetry_frame (attempt : nat) (w : World) (other : string) :
other <> provider ->
rateLimits (fetchWithRetry JSON_parse provider attempt env w).2 !! other
= rateLimits w !! other.
Proof.
intros Ho.
apply (fetchWithRetry_turns
         (fun _ w r => rateLimits r.2 !! other = rateLimits w !! other)).
- reflexivity.
- intros. simpl. apply parseRateLimitHeaders_other, Ho.
- intros ? w0 response delay result _ _ H. rewrite H. simpl.
  apply parseRateLimitHeaders_other, Ho.
Qed.

(** X2. The dispatcher sleeps exactly once between two requests: the
  delays it adds are one fewer than the requests it sends, and the delays
  slept before it began stay as they were, after the new ones. *)
Theorem fetchWithRetry_sleeps_between_requests (attempt : nat) (w : World) :
exists added,
  sleeps (fetchWithRetry JSON_parse provider attempt env w).2
    = added ++ sleeps w
  /\ S (length added)
     = requests (fetchWithRetry JSON_parse provider attempt env w).2 - requests w.
Proof.
apply (fetchWithRetry_turns
         (fun _ w r => exists added,
              sleeps r.2 = added ++ sleeps w
              /\ S (length added) = requests r.2 - requests w)).
- intros. exists []. simpl. split; [reflexivity|lia].
- intros. exists []. simpl. split; [reflexivity|lia].
- intros ? w0 response delay result _ _ (added & E & L). simpl in E, L.
  exists (added ++ [delay]). rewrite <- app_assoc. split; [exact E|].
  rewrite length_app. simpl. lia.
Qed.

(** X3. A provider other than Featherless is sent at most four requests
  by one dispatch, whatever the responses. *)
Theorem fetchWithRetry_at_most_four_requests (w : World) :
provider <> "featherless" ->
requests (fetchWithRetry JSON_parse provider 0 env w).2 <= 4 + requests w.
Proof.
intros Hp.
enough (forall attempt w0,
           requests (fetchWithRetry JSON_parse provider attempt env w0).2
           <= requests w0 + Nat.max 1 (4 - attempt)) as H.
{ specialize (H 0 w). simpl in H. lia. }
intros attempt w0.
apply (fetchWithRetry_turns
         (fun attempt w r =>
            requests r.2 <= requests w + Nat.max 1 (4 - attempt))).
- intros. simpl. lia.
- intros. simpl. lia.
- intros a w1 response delay result _ D H. simpl in H.
  apply retryDecision_guards in D as [(E & _)|D]; [contradiction|]. lia.
Qed.

(** X4. A response that is neither a transient failure nor a cold
  Featherless model is final: whatever its status (200, 401, 402, 404, a
  400 of Featherless whose body is not JSON or lacks the marker), it is
  handed back after this one request and no sleep, its rate-limit headers
  recorded. *)
Theorem final_response_single_request (w : World) (response : Response) :
fetch env (requests w) = Resolved response ->
~ In (status response) RETRY_STATUS_CODES ->
(provider = "featherless" -> status response = 400%Z ->
 coldBody JSON_parse response = false) ->
fetchWithRetry JSON_parse provider 0 env w =
(Resolved response,
 {| requests := S (requests w);
    sleeps := sleeps w;
    rateLimits := parseRateLimitHeaders (headers response) provider
                    (clock env (requests w)) (rateLimits w) |}).
Proof.
intros F Hs Hc.
apply fetchWithRetry_returns; [exact F|].
destruct (retryDecision JSON_parse provider response 0 (random env (requests w)))
  as [|delay] eqn:D; [reflexivity|]. exfalso.
unfold retryDecision in D.
destruct (String.eqb provider "featherless" && (status response =? 400)%Z) eqn:B.
- apply andb_true_iff in B as [Bp Bs].
  apply String.eqb_eq in Bp. apply Z.eqb_eq in Bs.
  specialize (Hc Bp Bs). unfold coldBody in Hc.
  destruct (json JSON_parse response) as [e|]; [|discriminate].
  destruct (coldMarker e) as [[|]|]; discriminate.
- assert (existsb (Z.eqb (status response)) RETRY_STATUS_CODES = false) as Hx.
  { destruct (existsb _ _) eqn:X; [|reflexivity].
    apply existsb_exists in X as (s & Hin & Heq).
    apply Z.eqb_eq in Heq. subst s. contradiction. }
  rewrite Hx in D.
  destruct (status response =? 502)%Z eqn:S502.
  + apply Z.eqb_eq in S502. exfalso. apply Hs. rewrite S502.
    unfold RETRY_STATUS_CODES. simpl. auto.
  + rewrite andb_false_r in D. simpl in D. discriminate.
Qed.


(** X5. The retries of a cold Featherless model and the retries of a
  transient failure count on the same counter: after three cold
  responses, a 429 or a 5xx is handed back at once, without a retry of
  its own. *)
Theorem cold_retries_use_up_standard_retries (w : World) (r0 r1 r2 r3 : Response) :
provider = "featherless" ->
fetch env (requests w) = Resolved r0 ->
fetch env (1 + requests w) = Resolved r1 ->
fetch env (2 + requests w) = Resolved r2 ->
fetch env (3 + requests w) = Resolved r3 ->
Forall (fun r => status r = 400%Z /\ coldBody JSON_parse r = true) [r0; r1; r2] ->
In (status r3) RETRY_STATUS_CODES ->
(fetchWithRetry JSON_parse provider 0 env w).1 = Resolved r3
/\ requests (fetchWithRetry JSON_parse provider 0 env w).2 = 4 + requests w
/\ sleeps (fetchWithRetry JSON_parse provider 0 env w).2
   = [Ms (coldDelay 2); Ms (coldDelay 1); Ms (coldDelay 0)] ++ sleeps w.
Proof.
intros -> F0 F1 F2 F3 H H3.
repeat match goal with
       | H : Forall _ (_ :: _) |- _ => inversion_clear H
       | H : _ /\ _ |- _ => destruct H
       end.
do 3 (erewrite fetchWithRetry_retries;
      [| eassumption
       | rewrite featherless_400_decision by assumption;
         match goal with C : coldBody _ ?r = true |- context [coldBody _ ?r] =>
           rewrite C end;
         reflexivity]).
erewrite fetchWithRetry_returns; [| eassumption |].
- simpl. repeat split.
- rewrite standard_decision by assumption. reflexivity.
Qed.

(** X6. On a retry of a transient failure a [Retry-After] header with a
  number decides the delay: that many seconds, whatever [Math.random()]
  gave and without the cap of the backoff.  The 502 of HuggingFace is the
  exception: it keeps its own schedule and ignores the header. *)
Theorem retry_after_decides_delay (response : Response) (attempt : nat)
  (rnd : Q) (t : string) (n : Z) :
In (status response) RETRY_STATUS_CODES ->
attempt < 3 ->
Hdr.get (headers response) "Retry-After" = Some t ->
t <> EmptyString ->
parseInt t = Some n ->
retryDecision JSON_parse provider response attempt rnd =
RetryAfter
  (if String.eqb provider "huggingface" && (status response =? 502)%Z
   then Ms (huggingfaceDelay attempt)
   else Ms (inject_Z (n * 1000))).
Proof.
intros Hs Ha Hg Ht Hn.
rewrite standard_decision by exact Hs.
apply Nat.ltb_lt in Ha. rewrite Ha.
destruct (String.eqb provider "huggingface" && (status response =? 502)%Z);
  [reflexivity|].
unfold standardDelay. rewrite Hg.
apply truthy_nonempty in Ht. rewrite Ht, Hn. reflexivity.
Qed.

(** X7. Without a [Retry-After] header the delay of such a retry is the
  jittered backoff [1000 * 2^attempt * (0.5 + random)]: between 500 and
  6000 ms for the three retries there are, so that the cap of 30000 ms is
  never what decides it. *)
Theorem backoff_never_reaches_cap (response : Response) (attempt : nat) (rnd : Q) :
In (status response) RETRY_STATUS_CODES ->
attempt < 3 ->
Hdr.get (headers response) "Retry-After" = None ->
~ (provider = "huggingface" /\ status response = 502%Z) ->
(0 <= rnd)%Q -> (rnd < 1)%Q ->
exists d,
  retryDecision JSON_parse provider response attempt rnd = RetryAfter (Ms d)
  /\ (d == 1000 * 2 ^ Z.of_nat attempt * ((1 # 2) + rnd))%Q
  /\ (500 <= d)%Q /\ (d <= 6000)%Q.
Proof.
intros Hs Ha Hg Hhf H0 H1.
rewrite standard_decision by exact Hs.
pose proof Ha as Ha'. apply Nat.ltb_lt in Ha'. rewrite Ha'.
assert (String.eqb provider "huggingface" && (status response =? 502)%Z = false)
  as ->.
{ destruct (String.eqb provider "huggingface") eqn:Ep; [|reflexivity].
  destruct (status response =? 502)%Z eqn:Es; [|reflexivity].
  exfalso. apply Hhf. split.
  - apply String.eqb_eq, Ep.
  - apply Z.eqb_eq, Es. }
unfold standardDelay. rewrite Hg. eexists. split; [reflexivity|].
assert (attempt = 0 \/ attempt = 1 \/ attempt = 2) as Hcases by lia.
assert (forall p : Q,
           (p == 1000 \/ p == 2000 \/ p == 4000)%Q ->
           (Qmin (p * ((1 # 2) + rnd)) 30000 == p * ((1 # 2) + rnd)
            /\ 500 <= Qmin (p * ((1 # 2) + rnd)) 30000
            /\ Qmin (p * ((1 # 2) + rnd)) 30000 <= 6000)%Q) as Hp.
{ intros p Hpow.
  assert (p * ((1 # 2) + rnd) < 6000)%Q as Hlt.
  { destruct Hpow as [E|[E|E]]; rewrite E.
    - apply Qlt_le_trans with (1000 * ((1 # 2) + 1))%Q.
      + apply Qmult_lt_l; [reflexivity|]. apply Qplus_lt_r. exact H1.
      + discriminate.
    - apply Qlt_le_trans with (2000 * ((1 # 2) + 1))%Q.
      + apply Qmult_lt_l; [reflexivity|]. apply Qplus_lt_r. exact H1.
      + discriminate.
    - apply Qlt_le_trans with (4000 * ((1 # 2) + 1))%Q.
      + apply Qmult_lt_l; [reflexivity|]. apply Qplus_lt_r. exact H1.
      + discriminate. }
  assert (500 <= p * ((1 # 2) + rnd))%Q as Hge.
  { assert ((1 # 2) <= (1 # 2) + rnd)%Q as Hh.
    { rewrite <- (Qplus_0_r (1 # 2)) at 1. apply Qplus_le_r. exact H0. }
    destruct Hpow as [E|[E|E]]; rewrite E.
    - apply Qle_trans with (1000 * (1 # 2))%Q; [discriminate|].
      apply Qmult_le_l; [reflexivity|exact Hh].
    - apply Qle_trans with (2000 * (1 # 2))%Q; [discriminate|].
      apply Qmult_le_l; [reflexivity|exact Hh].
    - apply Qle_trans with (4000 * (1 # 2))%Q; [discriminate|].
      apply Qmult_le_l; [reflexivity|exact Hh]. }
  assert (Qmin (p * ((1 # 2) + rnd)) 30000 == p * ((1 # 2) + rnd))%Q as Hm.
  { apply Q.min_l. apply Qlt_le_weak.
    apply Qlt_trans with 6000%Q; [exact Hlt|reflexivity]. }
  split; [exact Hm|]. split; rewrite Hm; [assumption|].
  apply Qlt_le_weak, Hlt. }
destruct Hcases as [E|[E|E]]; subst attempt; apply Hp.
- left. reflexivity.
- right. left. reflexivity.
- right. right. reflexivity.
Qed.

End DispatchEffects.

(** ** The rate-limit tracker over several responses *)

(** X9. What the tracker holds for a provider is what the last response
    with both headers said: a later one replaces the snapshot whole, with
    nothing of the earlier one left; and the snapshots of two providers do
    not depend on the order in which their responses arrive. *)
Theorem tracker_last_response_wins (h1 h2 : Headers) (p q : string) (t1 t2 : Z)
    (rl : gmap string RateLimitInfo) :
  (forall l r,
      Hdr.get h2 "x-ratelimit-limit" = Some l ->
      Hdr.get h2 "x-ratelimit-remaining" = Some r ->
      l <> EmptyString -> r <> EmptyString ->
      parseRateLimitHeaders h2 p t2 (parseRateLimitHeaders h1 p t1 rl)
      = parseRateLimitHeaders h2 p t2 rl)
  /\ (p <> q ->
      parseRateLimitHeaders h2 q t2 (parseRateLimitHeaders h1 p t1 rl)
      = parseRateLimitHeaders h1 p t1 (parseRateLimitHeaders h2 q t2 rl)).
Proof.
  split.
  - intros l r Hl Hr Nl Nr.
    rewrite !(parseRateLimitHeaders_spec h2), Hl, Hr.
    apply truthy_nonempty in Nl, Nr. rewrite Nl, Nr. cbn [andb].
    rewrite (parseRateLimitHeaders_spec h1).
    destruct (Hdr.get h1 "x-ratelimit-limit") as [l1|]; [|reflexivity].
    destruct (Hdr.get h1 "x-ratelimit-remaining") as [r1|]; [|reflexivity].
    destruct (Js.truthy l1 && Js.truthy r1); [|reflexivity].
    apply insert_insert_eq.
  - intros Hpq. rewrite !(parseRateLimitHeaders_spec h2), !(parseRateLimitHeaders_spec h1).
    destruct (Hdr.get h1 "x-ratelimit-limit") as [l1|]; [|reflexivity].
    destruct (Hdr.get h1 "x-ratelimit-remaining") as [r1|];
      [|destruct (Hdr.get h2 "x-ratelimit-limit"); reflexivity].
    destruct (Js.truthy l1 && Js.truthy r1); [|reflexivity].
    destruct (Hdr.get h2 "x-ratelimit-limit") as [l2|]; [|reflexivity].
    destruct (Hdr.get h2 "x-ratelimit-remaining") as [r2|]; [|reflexivity].
    destruct (Js.truthy l2 && Js.truthy r2); [|reflexivity].
    apply insert_insert_ne. congruence.
Qed.

(** ** Credentials: health, the list of providers and the failover *)

Lemma lookupKey_In {A : Type} (k : string) (table : list (string * A)) (v : A) :
  lookupKey k table = Some v -> In (k, v) table.
Proof.
  induction table as [|[k' v'] table IH]; [discriminate|]. simpl.
  destruct (String.eqb k' k) eqn:E.
  - intros [= ->]. apply String.eqb_eq in E. subst. left. reflexivity.
  - intros H. right. apply IH, H.
Qed.

(** X10. The backend decides in one way whether a provider has its
    credentials: [/api/providers] lists exactly the providers that
    [/api/health] reports as configured, and a provider that is not listed
    is skipped by the failover, without a request. *)
Theorem providers_listed_iff_configured (process_env : gmap string string)
    (rl : gmap string RateLimitInfo) (name : string) :
  (In name (map Health.name (availableProviders process_env)) <->
   exists st, In (name, st) (healthProviders process_env rl)
              /\ Health.configured st = true)
  /\ (forall JSON_parse env w,
        ~ In name (map Health.name (availableProviders process_env)) ->
        tryEntry JSON_parse process_env name env w = (Skipped, w)).
Proof.
  assert (In name (map Health.name (availableProviders process_env)) <->
          exists config, In (name, config) PROVIDERS
                         /\ isConfigured process_env name = true) as Listed.
  { unfold availableProviders. rewrite map_map. cbn [Health.name].
    rewrite in_map_iff. split.
    - intros ([k c] & E & Hin). simpl in E. subst k.
      apply filter_In in Hin as [Hin Hc]. exists c. split; assumption.
    - intros (c & Hin & Hc). exists (name, c). split; [reflexivity|].
      apply filter_In. split; assumption. }
  split.
  - rewrite Listed. unfold healthProviders. split.
    + intros (c & Hin & Hc). eexists. split.
      * apply in_map_iff. exists (name, c). split; [reflexivity|exact Hin].
      * exact Hc.
    + intros (st & Hin & Hc). apply in_map_iff in Hin as ([k c] & E & Hin).
      simpl in E. injection E as -> <-. exists c. split; [exact Hin|exact Hc].
  - intros JSON_parse env w Hnot. unfold tryEntry.
    destruct (lookupKey name PROVIDERS) as [config|] eqn:L; [|reflexivity].
    destruct (Hdr.truthy (process_env !! envKey name)) eqn:T; [|reflexivity].
    exfalso. apply Hnot, Listed. exists config. split.
    + apply lookupKey_In, L.
    + exact T.
Qed.

(** ** The endpoints behind the dispatcher *)

Lemma registered_entry (provider : string) (config : ProviderConfig) :
  registered provider = Entry config ->
  In provider ["openrouter"; "huggingface"; "featherless"; "venice"; "together"]
  /\ lookupKey provider PROVIDERS = Some config.
Proof.
  unfold registered.
  destruct (lookupKey provider PROVIDERS) as [c|] eqn:L.
  - intros [= ->]. split; [|reflexivity].
    apply lookupKey_In in L.
    apply (in_map fst) in L. exact L.
  - destruct (existsb _ _); discriminate.
Qed.

Section EndpointEffects.

Variable JSON_parse : string -> option Json.

(** A transient status is handed back by the dispatcher only when its
    retries are used up. *)
Lemma fetchWithRetry_transient_exhausted provider env attempt w response :
  (fetchWithRetry JSON_parse provider attempt env w).1 = Resolved response ->
  In (status response) RETRY_STATUS_CODES ->
  4 + requests w
    <= attempt + requests (fetchWithRetry JSON_parse provider attempt env w).2.
Proof.
  revert attempt w.
  apply (fetchWithRetry_turns JSON_parse provider env
           (fun attempt w r =>
              r.1 = Resolved response ->
              In (status response) RETRY_STATUS_CODES ->
              4 + requests w <= attempt + requests r.2)).
  - discriminate.
  - intros attempt w r F D [= <-] Hs. simpl.
    rewrite standard_decision in D by exact Hs.
    destruct (attempt <? 3) eqn:A; [discriminate|].
    apply Nat.ltb_ge in A. lia.
  - intros attempt w r delay result F D IH E Hs.
    specialize (IH E Hs). simpl in IH. lia.
Qed.


(** What the forwarding helper reports is the response of the last
    request it sent. *)
Lemma forwardJson_last provider message env w reply w' :
  forwardJson JSON_parse provider message env w = (reply, w') ->
  requests w < requests w'
  /\ match reply with
     | Upstream s e q =>
         exists r, fetch env (Nat.pred (requests w')) = Resolved r
                   /\ ok r = false /\ s = status r /\ e = text r
                   /\ q = Some provider
                   /\ (In s RETRY_STATUS_CODES -> 4 + requests w <= requests w')
     | Data d =>
         exists r, fetch env (Nat.pred (requests w')) = Resolved r
                   /\ ok r = true /\ json JSON_parse r = Some d
     | Broken m q => m = message /\ q = Some provider
     | Refused _ | Thrown _ => False
     end.
Proof.
  unfold forwardJson.
  pose proof (fetchWithRetry_last JSON_parse provider 0 env w) as Last.
  pose proof (fetchWithRetry_requests JSON_parse provider 0 env w) as [Sent _].
  pose proof (fetchWithRetry_transient_exhausted provider env 0 w) as Tr.
  destruct (fetchWithRetry JSON_parse provider 0 env w) as [[r|e] w1];
    cbn [fst snd] in Last, Sent, Tr.
  - destruct (ok r) eqn:O; cbn [negb].
    + destruct (json JSON_parse r) as [d|] eqn:J; intros [= <- <-];
        (split; [exact Sent|]).
      * exists r. split; [symmetry; exact Last|]. split; [exact O|exact J].
      * split; reflexivity.
    + intros [= <- <-]. split; [exact Sent|].
      exists r. split; [symmetry; exact Last|].
      repeat split; try reflexivity; try exact O.
      intros Hs. exact (Tr r eq_refl Hs).
  - intros [= <- <-]. split; [exact Sent|]. split; reflexivity.
Qed.

(** X14. The image endpoint sends requests for the four providers that
    generate images and for no other name: Featherless and an unknown
    name are refused, and a name that the registry inherits makes the
    handler throw, in each case with nothing sent and nothing recorded. *)
Theorem images_only_for_image_providers (provider : string) (env : Env)
    (w : World) :
  (In provider ["openrouter"; "huggingface"; "venice"; "together"] ->
   requests w < requests (imageGenerations JSON_parse provider env w).2)
  /\ (~ In provider ["openrouter"; "huggingface"; "venice"; "together"] ->
      imageGenerations JSON_parse provider env w =
      (if existsb (String.eqb provider) INHERITED
       then Thrown TypeError
       else Refused ("Image generation not supported: " +:+ provider),
       w)).
Proof.
  split.
  - intros Hin.
    assert (exists config, registered provider = Entry config
                           /\ imageGen (features config) = true) as (c & R & G).
    { simpl in Hin. destruct Hin as [<-|[<-|[<-|[<-|[]]]]];
        eexists; split; reflexivity. }
    unfold imageGenerations. rewrite R, G. cbn [negb].
    destruct (forwardJson JSON_parse provider _ env w) as [reply w'] eqn:F.
    apply forwardJson_last in F as [Sent _]. exact Sent.
  - intros Hnot. unfold imageGenerations.
    destruct (registered provider) as [config| |] eqn:R.
    + apply registered_entry in R as [Hin L].
      simpl in Hin.
      destruct Hin as [<-|[<-|[<-|[<-|[<-|[]]]]]];
        try (exfalso; apply Hnot; simpl; tauto).
      injection L as <-. reflexivity.
    + unfold registered in R.
      destruct (lookupKey provider PROVIDERS); [discriminate|].
      destruct (existsb (String.eqb provider) INHERITED); [reflexivity|discriminate].
    + unfold registered in R.
      destruct (lookupKey provider PROVIDERS); [discriminate|].
      destruct (existsb (String.eqb provider) INHERITED); [discriminate|reflexivity].
Qed.


(** X16. The two endpoints that call [fetch] themselves send exactly one
    request, whatever comes back: no retry, no sleep, no rate-limit
    snapshot.  And the characters endpoint never reports an upstream
    error: the JSON of a response that is not ok is sent back as data. *)
Theorem plain_endpoints_one_request (env : Env) (w : World) :
  (veniceCharacters JSON_parse env w).2 = sent w
  /\ (togetherFiles JSON_parse env w).2 = sent w
  /\ (forall s e q, (veniceCharacters JSON_parse env w).1 <> Upstream s e q)
  /\ (forall response data,
        fetch env (requests w) = Resolved response ->
        json JSON_parse response = Some data ->
        (veniceCharacters JSON_parse env w).1 = Data data).
Proof.
  unfold veniceCharacters, togetherFiles. repeat split.
  - destruct (fetch env (requests w)) as [r|e]; [|reflexivity].
    destruct (json JSON_parse r); reflexivity.
  - destruct (fetch env (requests w)) as [r|e]; [|reflexivity].
    destruct (negb (ok r)); [reflexivity|].
    destruct (json JSON_parse r); reflexivity.
  - intros s e q.
    destruct (fetch env (requests w)) as [r|e']; [|discriminate].
    destruct (json JSON_parse r); discriminate.
  - intros response data F J. rewrite F, J. reflexivity.
Qed.

(** ** The cache of model lists *)

Lemma fetchModels_outcome provider later env cache w reply cache' w' :
  fetchModels JSON_parse provider later env cache w = (reply, cache', w') ->
  requests w < requests w'
  /\ ((exists list, reply = ModelsData list false
                    /\ cache' = <[ provider := {| cachedData := list;
                                                  fetchedAt := later |} ]> cache)
      \/ (cache' = cache
          /\ forall data cached, reply <> ModelsData data cached)).
Proof.
  unfold fetchModels.
  pose proof (fetchWithRetry_requests JSON_parse provider 0 env w) as [Sent _].
  destruct (fetchWithRetry JSON_parse provider 0 env w) as [[r|e] w1];
    simpl in Sent.
  - destruct (negb (ok r)).
    + intros [= <- <- <-]. split; [exact Sent|]. right. split; [reflexivity|].
      discriminate.
    + destruct (json JSON_parse r) as [d|].
      * destruct (modelList d) as [l|]; intros [= <- <- <-];
          (split; [exact Sent|]).
        -- left. exists l. split; reflexivity.
        -- right. split; [reflexivity|]. discriminate.
      * intros [= <- <- <-]. split; [exact Sent|]. right.
        split; [reflexivity|]. discriminate.
  - intros [= <- <- <-]. split; [exact Sent|]. right. split; [reflexivity|].
    discriminate.
Qed.

(** X11. The models endpoint answers from its cache exactly when it
    holds an entry of the provider younger than five minutes: then the
    stored list is the answer, no request is sent, and cache and
    rate-limit snapshots stay as they are; and an answer marked as
    cached always comes from such an entry. *)
Theorem models_cached_answer (provider : string) (now later : Z) (env : Env)
    (cache : gmap string CachedModels) (w : World) :
  (forall cached,
      registered provider <> Absent ->
      cache !! provider = Some cached ->
      (now - fetchedAt cached < MODEL_CACHE_TTL)%Z ->
      models JSON_parse provider now later env cache w
      = (ModelsData (cachedData cached) true, cache, w))
  /\ (forall data cache' w',
        models JSON_parse provider now later env cache w
        = (ModelsData data true, cache', w') ->
        cache' = cache /\ w' = w
        /\ exists cached,
             cache !! provider = Some cached
             /\ cachedData cached = data
             /\ (now - fetchedAt cached < MODEL_CACHE_TTL)%Z).
Proof.
  split.
  - intros cached R C T. unfold models, freshModels. rewrite C.
    apply Z.ltb_lt in T. rewrite T.
    destruct (registered provider); [reflexivity|reflexivity|contradiction].
  - intros data cache' w' E. unfold models in E.
    assert (freshModels cache provider now = Some data
            /\ cache' = cache /\ w' = w) as (Fr & -> & ->).
    { destruct (registered provider) as [config| |]; [| |discriminate].
      - destruct (freshModels cache provider now) as [d|].
        + injection E as <- <- <-. auto.
        + apply fetchModels_outcome in E as [_ [(l & [=] & _)|(_ & N)]].
          exfalso. apply (N data true). reflexivity.
      - destruct (freshModels cache provider now) as [d|].
        + injection E as <- <- <-. auto.
        + discriminate. }
    split; [reflexivity|]. split; [reflexivity|].
    unfold freshModels in Fr.
    destruct (cache !! provider) as [cached|]; [|discriminate].
    destruct (now - fetchedAt cached <? MODEL_CACHE_TTL)%Z eqn:T; [|discriminate].
    injection Fr as <-. exists cached. apply Z.ltb_lt in T. auto.
Qed.

(** X12. A list that the endpoint fetched is the answer to the next
    requests for the same provider during the five minutes that follow
    its storing: whatever the upstream would say then, nothing is sent,
    and the same list comes back, marked as cached. *)
Theorem models_round_trip (provider : string) (now later : Z) (env : Env)
    (cache cache' : gmap string CachedModels) (w w' : World) (list : Json) :
  models JSON_parse provider now later env cache w
  = (ModelsData list false, cache', w') ->
  forall now2 later2 env2 w2,
    (now2 - later < MODEL_CACHE_TTL)%Z ->
    models JSON_parse provider now2 later2 env2 cache' w2
    = (ModelsData list true, cache', w2).
Proof.
  intros E now2 later2 env2 w2 T. unfold models in E.
  destruct (registered provider) as [config| |] eqn:R; [| |discriminate].
  - destruct (freshModels cache provider now) as [d|]; [discriminate|].
    apply fetchModels_outcome in E as [_ [(l & [= <-] & ->)|(_ & N)]].
    + unfold models, freshModels. rewrite R, lookup_insert_eq. simpl.
      apply Z.ltb_lt in T. rewrite T. reflexivity.
    + exfalso. apply (N list false). reflexivity.
  - destruct (freshModels cache provider now) as [d|]; discriminate.
Qed.

(** X13. The cache changes only by a successful fetch, and only for the
    provider asked: any other answer (a cached list, an upstream error,
    a failure, an unknown provider) leaves it as it was, a stale entry
    included, and the entries of the other providers are never touched.
    A list is stored only under the name of a registry entry. *)
Theorem models_cache_integrity (provider : string) (now later : Z) (env : Env)
    (cache cache' : gmap string CachedModels) (w w' : World)
    (reply : ModelsReply) :
  models JSON_parse provider now later env cache w = (reply, cache', w') ->
  (forall other, other <> provider -> cache' !! other = cache !! other)
  /\ ((forall list, reply <> ModelsData list false) -> cache' = cache)
  /\ (forall list,
        reply = ModelsData list false ->
        cache' !! provider = Some {| cachedData := list; fetchedAt := later |}
        /\ In provider
             ["openrouter"; "huggingface"; "featherless"; "venice"; "together"]
        /\ requests w < requests w').
Proof.
  intros E. unfold models in E.
  assert (cache' = cache /\ (forall list, reply <> ModelsData list false)
          \/ exists config list,
               registered provider = Entry config
               /\ reply = ModelsData list false
               /\ cache' = <[ provider := {| cachedData := list;
                                             fetchedAt := later |} ]> cache
               /\ requests w < requests w') as [(-> & N)|(c & l & R & -> & -> & S)].
  { destruct (registered provider) as [config| |] eqn:R.
    - destruct (freshModels cache provider now) as [d|].
      + injection E as <- <- <-. left. split; [reflexivity|discriminate].
      + apply fetchModels_outcome in E as [S [(l & -> & ->)|(-> & N)]].
        * right. exists config, l. auto.
        * left. split; [reflexivity|]. intros l. apply N.
    - destruct (freshModels cache provider now) as [d|];
        injection E as <- <- <-; left; (split; [reflexivity|discriminate]).
    - injection E as <- <- <-. left. split; [reflexivity|discriminate]. }
  - split; [reflexivity|]. split; [reflexivity|].
    intros l ->. exfalso. apply (N l). reflexivity.
  - split; [|split].
    + intros other Ho. apply lookup_insert_ne. congruence.
    + intros N. exfalso. apply (N l). reflexivity.
    + intros l' [= <-]. split; [apply lookup_insert_eq|].
      split; [|exact S]. apply registered_entry in R as [Hin _]. exact Hin.
Qed.

End EndpointEffects.

(** ** The readers and the relays *)

Lemma startsWith_slice (p s : string) :
  Js.startsWith s p = true -> s = p +:+ Js.slice (String.length p) s.
Proof.
  revert s. induction p as [|a p IH]; intros s H; [reflexivity|].
  destruct s as [|b s]; [discriminate|].
  rewrite startsWith_cons in H. apply andb_true_iff in H as [E H].
  apply Ascii.eqb_eq in E. subst b.
  rewrite app_cons_s. simpl. f_equal. apply IH, H.
Qed.

Lemma keep_alive_is_not_data (line : string) :
  Js.startsWith line ": OPENROUTER" = true ->
  Js.startsWith line "data: " = false.
Proof.
  destruct line as [|c line]; [discriminate|].
  rewrite !startsWith_cons. intros H.
  apply andb_true_iff in H as [E _]. apply Ascii.eqb_eq in E. subst c.
  reflexivity.
Qed.

Lemma forLines_ext {A : Type} (h1 h2 : string -> LineStep A) (lines : list string) :
  (forall line, h1 line = h2 line) ->
  forLines h1 lines = forLines h2 lines.
Proof.
  intros E. induction lines as [|l lines IH]; [reflexivity|].
  simpl. rewrite E, IH. reflexivity.
Qed.

Lemma readLines_ext {A : Type} (h1 h2 : string -> LineStep A) buffer reads :
  (forall line, h1 line = h2 line) ->
  readLines h1 buffer reads = readLines h2 buffer reads.
Proof.
  intros E. revert buffer. induction reads as [|chunk reads IH]; intros buffer;
    [reflexivity|].
  rewrite !readLines_cons, (forLines_ext h1 h2 _ E).
  destruct (forLines h2 _) as [ys []]; [reflexivity|]. rewrite IH. reflexivity.
Qed.

Lemma hasUnit_app (x : ascii) (s t : string) :
  Js.hasUnit x (s +:+ t) = Js.hasUnit x s || Js.hasUnit x t.
Proof.
  induction s as [|c s IH]; [reflexivity|].
  rewrite app_cons_s. simpl. rewrite IH. apply orb_assoc.
Qed.

Lemma cut_no_line (s : string) :
  Js.hasUnit Js.LF s = false -> cut s = ([], s).
Proof.
  induction s as [|c s IH]; [reflexivity|].
  simpl Js.hasUnit. intros H. apply orb_false_iff in H as [Hc Hs].
  rewrite cut_cons, (IH Hs), Hc. reflexivity.
Qed.

Lemma cut_pending_no_line (s : string) : Js.hasUnit Js.LF (cut s).2 = false.
Proof.
  induction s as [|c s IH]; [reflexivity|].
  rewrite cut_cons. destruct (cut s) as [ls rest]. simpl in IH.
  destruct (Ascii.eqb c Js.LF) eqn:E; [exact IH|].
  destruct ls; simpl; rewrite ?E, ?IH; reflexivity.
Qed.

Lemma concatText_app (reads1 reads2 : list string) :
  concatText (reads1 ++ reads2) = concatText reads1 +:+ concatText reads2.
Proof.
  induction reads1 as [|c reads1 IH]; [reflexivity|].
  simpl. rewrite IH, app_assoc_s. reflexivity.
Qed.

(** *** White space around a line *)

Lemma trimStart_head (s : string) (c : ascii) (r : string) :
  Js.trimStart s = String c r -> Ascii.is_space c = false.
Proof.
  induction s as [|a s IH]; [discriminate|]. simpl.
  destruct (Ascii.is_space a) eqn:E; [exact IH|].
  intros [= -> _]. exact E.
Qed.

Lemma trimEnd_head (c : ascii) (r : string) :
  Ascii.is_space c = false -> Js.trimEnd (String c r) <> EmptyString.
Proof.
  intros E. simpl. destruct (Js.trimEnd r); [rewrite E|]; discriminate.
Qed.

Lemma trim_blank (s : string) :
  Js.trim s = EmptyString -> Js.trimStart s = EmptyString.
Proof.
  unfold Js.trim. destruct (Js.trimStart s) as [|c r] eqn:E; [reflexivity|].
  intros H. exfalso. apply trimStart_head in E.
  exact (trimEnd_head c r E H).
Qed.

Lemma trimStart_blank_app (pre s : string) :
  Js.trimStart pre = EmptyString -> Js.trimStart (pre +:+ s) = Js.trimStart s.
Proof.
  induction pre as [|c pre IH]; [reflexivity|].
  rewrite app_cons_s. simpl.
  destruct (Ascii.is_space c); [exact IH|discriminate].
Qed.

Lemma trimEnd_blank (post : string) :
  Js.trimStart post = EmptyString -> Js.trimEnd post = EmptyString.
Proof.
  induction post as [|c post IH]; [reflexivity|]. simpl.
  destruct (Ascii.is_space c); [|discriminate].
  intros H. rewrite (IH H). reflexivity.
Qed.

Lemma trimEnd_app_blank (s post : string) :
  Js.trimStart post = EmptyString -> Js.trimEnd (s +:+ post) = Js.trimEnd s.
Proof.
  intros H. induction s as [|c s IH].
  - rewrite app_nil_l_s. apply trimEnd_blank, H.
  - rewrite app_cons_s. simpl. rewrite IH. reflexivity.
Qed.

Lemma trim_surrounded (pre s post : string) :
  Js.trim pre = EmptyString -> Js.trim post = EmptyString ->
  Js.trim (pre +:+ s +:+ post) = Js.trim s.
Proof.
  intros Hpre Hpost. apply trim_blank in Hpre, Hpost.
  unfold Js.trim. rewrite trimStart_blank_app by exact Hpre. clear pre Hpre.
  induction s as [|c s IH].
  - rewrite app_nil_l_s, Hpost. reflexivity.
  - rewrite app_cons_s. simpl Js.trimStart.
    destruct (Ascii.is_space c); [exact IH|].
    rewrite <- app_cons_s. apply trimEnd_app_blank, Hpost.
Qed.

Section ReaderFacts.

Variable JSON_parse : string -> option Json.

Lemma hfStream_line_same (line : string) :
  hfStream_line JSON_parse line = chatStream_line JSON_parse line.
Proof.
  unfold hfStream_line, chatStream_line.
  destruct (Js.startsWith line ": OPENROUTER") eqn:K; [|reflexivity].
  rewrite (keep_alive_is_not_data line K). reflexivity.
Qed.

(** X18. The two readers of the frontend yield the same increments from
    every stream: the test for the keep-alive comment that only
    [chatStream] makes changes nothing, since such a line is no line of
    data. *)
Theorem frontend_readers_agree (res : Response) :
  (forall line,
      hfStream_line JSON_parse line = chatStream_line JSON_parse line)
  /\ (ok res = true ->
      chatStreamViaHuggingFaceFeatherless JSON_parse res
      = chatStream JSON_parse res).
Proof.
  split; [exact hfStream_line_same|].
  intros O. unfold chatStreamViaHuggingFaceFeatherless, chatStream.
  rewrite O. cbn [negb].
  destruct (body res) as [reads|]; [|reflexivity].
  f_equal. apply readLines_ext, hfStream_line_same.
Qed.

(** X19. Only the line that is exactly [data: [DONE]] ends a reader of
    the frontend: with a carriage return or a space after the sentinel
    the line is skipped and the reading goes on.  The adapter never ends
    on a line. *)
Theorem only_exact_sentinel_stops (line : string) :
  (chatStream_line JSON_parse line = Stop <-> line = "data: [DONE]")
  /\ (hfStream_line JSON_parse line = Stop <-> line = "data: [DONE]")
  /\ featherless_line JSON_parse line <> Stop.
Proof.
  assert (chatStream_line JSON_parse line = Stop <-> line = "data: [DONE]") as H.
  { split; [|intros ->; reflexivity].
    unfold chatStream_line.
    destruct (Js.startsWith line ": OPENROUTER"); [discriminate|].
    destruct (Js.startsWith line "data: ") eqn:D; [|discriminate].
    destruct (String.eqb (Js.slice 6 line) "[DONE]") eqn:E.
    - intros _. apply String.eqb_eq in E.
      rewrite (startsWith_slice _ _ D). simpl String.length. rewrite E.
      reflexivity.
    - destruct (JSON_parse (Js.slice 6 line)) as [[]|]; try discriminate;
        match goal with
        | |- context [match ?c with Some _ => _ | None => _ end] =>
            destruct c; try discriminate
        end;
        match goal with
        | |- context [if ?b then _ else _] => destruct b; discriminate
        end. }
  split; [exact H|]. split; [rewrite hfStream_line_same; exact H|].
  unfold featherless_line.
  repeat match goal with
         | |- context [if ?b then _ else _] => destruct b
         | |- context [match ?c with Some _ => _ | None => _ end] => destruct c
         end; discriminate.
Qed.

(** X20. The adapter reads a line without regard to the white space
    around it: the carriage return that ends the lines of a stream with
    CRLF, or spaces before [data:], change nothing of what it yields. *)
Theorem adapter_ignores_surrounding_space (pre line post : string) :
  Js.trim pre = EmptyString -> Js.trim post = EmptyString ->
  featherless_line JSON_parse (pre +:+ line +:+ post)
  = featherless_line JSON_parse line.
Proof.
  intros Hpre Hpost. unfold featherless_line.
  rewrite (trim_surrounded pre line post Hpre Hpost). reflexivity.
Qed.


End ReaderFacts.

(** X21. A reader never acts on a line that no line feed ends: what
    follows the last line feed of the stream is dropped when the stream
    ends, so that a last record sent without its line feed is lost. *)
Theorem unterminated_last_line_is_dropped {A : Type}
    (handle : string -> LineStep A) (reads : list string) (tail : string) :
  Js.hasUnit Js.LF tail = false ->
  readLines handle EmptyString (reads ++ [tail])
  = readLines handle EmptyString reads.
Proof.
  intros H.
  rewrite !(readLines_whole handle EmptyString _ cut_nil), !app_nil_l_s.
  rewrite concatText_app. simpl concatText. rewrite app_nil_r_s.
  rewrite cut_app.
  pose proof (cut_pending_no_line (concatText reads)) as P.
  destruct (cut (concatText reads)) as [la ra]. simpl in P.
  rewrite cut_no_line by (rewrite hasUnit_app, P, H; reflexivity).
  simpl. rewrite app_nil_r. reflexivity.
Qed.

(** X22. The relay of the chat endpoint pushes the reads of the upstream
    body in their order up to the first one that includes the keep-alive
    comment, and none after it: no read pushed includes the comment, the
    stream is ended exactly when every read was pushed, and otherwise it is
    left open at the read that was dropped. *)
Theorem relay_pushes_up_to_keep_alive (reads pushed : list string)
    (ending : RelayEnd) :
  relay reads = (pushed, ending) ->
  exists rest,
    reads = pushed ++ rest
    /\ Forall (fun chunk => Js.includes chunk KEEP_ALIVE = false) pushed
    /\ match ending with
       | Ended => rest = []
       | Stalled =>
           exists chunk rest',
             rest = chunk :: rest' /\ Js.includes chunk KEEP_ALIVE = true
       end.
Proof.
  revert pushed ending. induction reads as [|chunk reads IH]; intros pushed ending.
  - intros [= <- <-]. exists []. repeat split. constructor.
  - simpl. destruct (Js.includes chunk KEEP_ALIVE) eqn:K; cbn [negb].
    + intros [= <- <-]. exists (chunk :: reads). repeat split; [constructor|].
      exists chunk, reads. split; [reflexivity|exact K].
    + destruct (relay reads) as [pushed0 ending0].
      intros [= <- <-].
      destruct (IH pushed0 ending0 eq_refl) as (rest & E & F & T).
      exists rest. split; [simpl; f_equal; exact E|].
      split; [constructor; assumption|exact T].
Qed.

(** ** Routes *)

Lemma sameName_lower (l s : string) :
  Hdr.sameName l s = true -> Hdr.toLowerCase s = Hdr.toLowerCase l.
Proof. unfold Hdr.sameName. intros H. apply String.eqb_eq in H. congruence. Qed.

Lemma sameName_other (l l' s : string) :
  Hdr.sameName l s = true ->
  Hdr.toLowerCase l <> Hdr.toLowerCase l' ->
  Hdr.sameName l' s = false.
Proof.
  intros H N. apply sameName_lower in H. unfold Hdr.sameName.
  rewrite H. apply String.eqb_neq. congruence.
Qed.

Lemma sameName_truthy (l s : string) :
  Hdr.sameName l s = true -> l <> EmptyString -> Js.truthy s = true.
Proof.
  intros H N. apply sameName_lower in H.
  destruct s; [|reflexivity]. destruct l; [contradiction|discriminate].
Qed.

(** The paths of a route of four fixed segments. *)
Lemma matchPath_four (a b c d : string) (path captured : list string) :
  Router.matchPath [Router.Lit a; Router.Lit b; Router.Lit c; Router.Lit d] path
    = Some captured ->
  exists s1 s2 s3 s4 slash,
    path = s1 :: s2 :: s3 :: s4 :: slash
    /\ (slash = [] \/ slash = [EmptyString])
    /\ Hdr.sameName a s1 = true /\ Hdr.sameName b s2 = true
    /\ Hdr.sameName c s3 = true /\ Hdr.sameName d s4 = true.
Proof.
  destruct path as [|s1 [|s2 [|s3 [|s4 slash]]]]; cbn [Router.matchPath];
    repeat match goal with
           | |- context [if ?b then _ else _] => destruct b eqn:?
           end; try discriminate.
  intros H. exists s1, s2, s3, s4, slash. repeat split; try assumption.
  destruct slash as [|[|? ?] [|? ?]]; try discriminate; auto.
Qed.

Lemma unknown_when_failover (provider : string) :
  Hdr.sameName "failover" provider = true ->
  lookupKey provider PROVIDERS = None.
Proof.
  intros H. apply sameName_lower in H. unfold PROVIDERS. cbn [lookupKey].
  repeat match goal with
         | |- context [String.eqb ?k provider] =>
             destruct (String.eqb k provider) eqn:E;
             [apply String.eqb_eq in E; subst provider; vm_compute in H;
              discriminate H|clear E]
         end.
  reflexivity.
Qed.

(** X23. No request reaches the failover handler.  Its route is
    registered after [/api/:provider/chat/completions], which matches every
    path the failover route matches: a POST to
    [/api/failover/chat/completions] is answered by the chat endpoint with
    the provider [failover], that is with [Unknown provider], and no
    provider is tried. *)
Theorem failover_route_is_shadowed (m : Router.Method) (path : list string) :
  Router.route m path <> Router.Failover
  /\ (forall captured,
        Router.matchPath
          (Router.api [Router.Lit "failover"; Router.Lit "chat";
                       Router.Lit "completions"]) path = Some captured ->
        exists provider,
          Router.route Router.POST path = Router.ChatCompletions provider
          /\ Hdr.sameName "failover" provider = true
          /\ forall JSON_parse isStreaming env w,
               chatCompletions JSON_parse provider isStreaming env w
               = (UnknownProvider provider, w)).
Proof.
  assert (forall captured,
             Router.matchPath
               (Router.api [Router.Lit "failover"; Router.Lit "chat";
                            Router.Lit "completions"]) path = Some captured ->
             exists provider,
               Hdr.sameName "failover" provider = true /\
               Router.matchPath
                 (Router.api [Router.Param; Router.Lit "chat";
                              Router.Lit "completions"]) path
               = Some [provider]) as Shadow.
  { intros captured H. unfold Router.api in H.
    apply matchPath_four in H
      as (s1 & s2 & s3 & s4 & slash & -> & Hslash & H1 & H2 & H3 & H4).
    exists s2. split; [exact H2|].
    unfold Router.api. cbn [Router.matchPath].
    rewrite H1, H3, H4, (sameName_truthy _ _ H2) by discriminate.
    destruct Hslash as [E|E]; rewrite E; reflexivity. }
  split.
  - unfold Router.route, Router.ROUTES.
    destruct m; cbn [Router.dispatch Router.accepts];
      repeat match goal with
             | |- context [match Router.matchPath ?p path with _ => _ end] =>
                 destruct (Router.matchPath p path) eqn:?
             end; try discriminate.
    destruct (Shadow _ eq_refl) as (? & _ & E). discriminate E.
  - intros captured H. destruct (Shadow _ H) as (provider & Hp & E).
    exists provider. split; [|split; [exact Hp|]].
    + unfold Router.route, Router.ROUTES.
      cbn [Router.dispatch Router.accepts]. rewrite E. reflexivity.
    + intros JSON_parse isStreaming env w. unfold chatCompletions.
      rewrite (unknown_when_failover provider Hp). reflexivity.
Qed.

(** The paths of a route of fixed segments. *)
Lemma matchPath_lits (names : list string) (path captured : list string) :
  Router.matchPath (map Router.Lit names) path = Some captured ->
  exists segs slash,
    path = segs ++ slash
    /\ (slash = [] \/ slash = [EmptyString])
    /\ Forall2 (fun l s => Hdr.sameName l s = true) names segs.
Proof.
  revert path. induction names as [|l names IH]; intros path H.
  - exists [], path. split; [reflexivity|]. split; [|constructor].
    destruct path as [|[|? ?] [|? ?]]; try discriminate H; auto.
  - destruct path as [|s path]; [discriminate H|].
    cbn [map Router.matchPath] in H.
    destruct (Hdr.sameName l s) eqn:E; [|discriminate H].
    destruct (IH path H) as (segs & slash & -> & Hs & F).
    exists (s :: segs), slash. split; [reflexivity|]. split; [exact Hs|].
    constructor; assumption.
Qed.

Ltac segments H :=
  apply matchPath_lits in H as (? & ? & ? & [?|?] & ?); subst;
  repeat match goal with
         | F : Forall2 _ (_ :: _) _ |- _ => inversion F; subst; clear F
         | F : Forall2 _ [] _ |- _ => inversion F; subst; clear F
         end.

Ltac by_facts :=
  cbn [Router.dispatch Router.accepts Router.matchPath app];
  repeat match goal with
         | E : ?x = _ |- context [?x] =>
             rewrite E; cbn [Router.matchPath]
         end;
  reflexivity.

(** X24. The three routes of fixed segments that are registered after a
    parametric route of their method are reached all the same: the route
    through HuggingFace has one segment more than the chat route, and
    [characters] and [files] are not the last segment of any earlier
    route. *)
Theorem fixed_routes_are_reached (path captured : list string) :
  (Router.matchPath
     (Router.api [Router.Lit "huggingface"; Router.Lit "featherless";
                  Router.Lit "chat"; Router.Lit "completions"]) path
     = Some captured ->
   Router.route Router.POST path = Router.HfFeatherless)
  /\ (Router.matchPath
        (Router.api [Router.Lit "venice"; Router.Lit "characters"]) path
        = Some captured ->
      Router.route Router.GET path = Router.VeniceCharacters)
  /\ (Router.matchPath
        (Router.api [Router.Lit "together"; Router.Lit "files"]) path
        = Some captured ->
      Router.route Router.POST path = Router.TogetherFiles).
Proof.
  unfold Router.route, Router.ROUTES, Router.api.
  split; [|split]; intros H.
  - change [Router.Lit "api"; Router.Lit "huggingface"; Router.Lit "featherless";
            Router.Lit "chat"; Router.Lit "completions"]
      with (map Router.Lit ["api"; "huggingface"; "featherless"; "chat";
                            "completions"]) in H.
    segments H;
      match goal with
      | E2 : Hdr.sameName "huggingface" ?s2 = true,
        E3 : Hdr.sameName "featherless" ?s3 = true |- _ =>
          pose proof (sameName_truthy _ _ E2 ltac:(discriminate));
          pose proof (sameName_other _ "chat" _ E3 ltac:(discriminate));
          pose proof (sameName_other _ "images" _ E3 ltac:(discriminate))
      end; by_facts.
  - change [Router.Lit "api"; Router.Lit "venice"; Router.Lit "characters"]
      with (map Router.Lit ["api"; "venice"; "characters"]) in H.
    segments H;
      match goal with
      | E2 : Hdr.sameName "venice" ?s2 = true,
        E3 : Hdr.sameName "characters" ?s3 = true |- _ =>
          pose proof (sameName_truthy _ _ E2 ltac:(discriminate));
          pose proof (sameName_other _ "health" _ E2 ltac:(discriminate));
          pose proof (sameName_other _ "providers" _ E2 ltac:(discriminate));
          pose proof (sameName_other _ "models" _ E3 ltac:(discriminate))
      end; by_facts.
  - change [Router.Lit "api"; Router.Lit "together"; Router.Lit "files"]
      with (map Router.Lit ["api"; "together"; "files"]) in H.
    segments H;
      match goal with
      | E2 : Hdr.sameName "together" ?s2 = true,
        E3 : Hdr.sameName "files" ?s3 = true |- _ =>
          pose proof (sameName_truthy _ _ E2 ltac:(discriminate));
          pose proof (sameName_other _ "huggingface" _ E2 ltac:(discriminate));
          pose proof (sameName_other _ "chat" _ E3 ltac:(discriminate));
          pose proof (sameName_other _ "images" _ E3 ltac:(discriminate));
          pose proof (sameName_other _ "embeddings" _ E3 ltac:(discriminate))
      end; by_facts.
Qed.

(** ** The vision heuristic *)

Lemma includes_prefix (s sub : string) :
  Js.startsWith s sub = true -> Js.includes s sub = true.
Proof. intros H. destruct s; simpl; rewrite H; reflexivity. Qed.

Lemma includes_inside (pre mid post : string) :
  Js.includes (pre +:+ mid +:+ post) mid = true.
Proof.
  induction pre as [|c pre IH].
  - rewrite app_nil_l_s. apply includes_prefix, startsWith_app.
  - rewrite app_cons_s. simpl. rewrite IH. apply orb_true_r.
Qed.

Lemma toLowerCase_app (s t : string) :
  Hdr.toLowerCase (s +:+ t) = Hdr.toLowerCase s +:+ Hdr.toLowerCase t.
Proof.
  unfold Hdr.toLowerCase. induction s as [|c s IH]; [reflexivity|].
  rewrite app_cons_s. simpl. rewrite IH. reflexivity.
Qed.

(** X27. A model counts as a vision model as soon as its identifier
    contains an entry of the list of vision models: the entries are looked
    for inside the identifier, not compared with it.  And the list only
    adds: a model that is a vision model without a list is one with every
    list. *)
Theorem vision_list_matches_inside (model : Vision.Model)
    (visionModels : list string) :
  (forall vm pre post,
      In vm visionModels ->
      Vision.id model = pre +:+ vm +:+ post ->
      Vision.isVisionModel model (Some visionModels) = true)
  /\ (Vision.isVisionModel model None = true ->
      Vision.isVisionModel model (Some visionModels) = true).
Proof.
  unfold Vision.isVisionModel. split.
  - intros vm pre post Hin E.
    destruct (match Vision.architecture model with Some _ => _ | None => _ end);
      [reflexivity|].
    assert (existsb (fun vm => Js.includes (Vision.id model) vm) visionModels = true)
      as ->; [|reflexivity].
    apply existsb_exists. exists vm. split; [exact Hin|].
    rewrite E. apply includes_inside.
  - destruct (match Vision.architecture model with Some _ => _ | None => _ end);
      [reflexivity|].
    intros H. rewrite H. destruct (existsb _ visionModels); reflexivity.
Qed.

(** X28. The naming patterns are looked for in the lower case of the
    identifier and cannot be switched off: an identifier that contains
    [vision], [vl], [llava], [gemini], [gpt-4o] or [claude-3] in any case
    of its letters makes a vision model, whatever the model declares and
    whatever list is given. *)
Theorem vision_pattern_in_any_case (model : Vision.Model)
    (visionModels : option (list string)) (pattern pre mid post : string) :
  In pattern Vision.visionPatterns ->
  Hdr.toLowerCase mid = pattern ->
  Vision.id model = pre +:+ mid +:+ post ->
  Vision.isVisionModel model visionModels = true.
Proof.
  intros Hin Hlow E. unfold Vision.isVisionModel.
  destruct (match Vision.architecture model with Some _ => _ | None => _ end);
    [reflexivity|].
  destruct (match visionModels with Some _ => _ | None => _ end); [reflexivity|].
  apply existsb_exists. exists pattern. split; [exact Hin|].
  rewrite E, !toLowerCase_app, Hlow. apply includes_inside.
Qed.

(** ** The client of the library *)

Lemma configure_outcome (key fallback : string)
    (given : option Client.ProviderConfig) (m : Client.AIClient) :
  Client.configure key fallback given m =
  match given with
  | None => Client.Normal m
  | Some config =>
      if Js.truthy (Client.apiKey config)
      then Client.Normal
             (Client.mapSet key
                {| Client.name := key;
                   Client.config := config;
                   Client.url :=
                     match Client.baseUrl config with
                     | Some u => if Js.truthy u then u else fallback
                     | None => fallback
                     end |} m)
      else Client.Throw (ErrorMsg "API key is required")
  end.
Proof.
  destruct given as [config|]; [|reflexivity].
  unfold Client.configure, Client.newProvider.
  destruct (Js.truthy (Client.apiKey config)); reflexivity.
Qed.

Lemma mapSet_Forall (P : string * Client.Provider -> Prop) (key : string)
    (value : Client.Provider) (m : Client.AIClient) :
  Forall P m -> P (key, value) -> Forall P (Client.mapSet key value m).
Proof.
  intros Hm Hv. induction m as [|[k v] m IH]; [repeat constructor; exact Hv|].
  inversion_clear Hm as [|? ? Hk Hm']. simpl.
  destruct (String.eqb k key) eqn:E.
  - apply String.eqb_eq in E. subst k. constructor; assumption.
  - constructor; [exact Hk|apply IH, Hm'].
Qed.

Lemma configure_Forall (P : string * Client.Provider -> Prop)
    (key fallback : string) (given : option Client.ProviderConfig)
    (m m' : Client.AIClient) :
  (forall config,
      Client.apiKey config <> EmptyString ->
      P (key, {| Client.name := key;
                 Client.config := config;
                 Client.url :=
                   match Client.baseUrl config with
                   | Some u => if Js.truthy u then u else fallback
                   | None => fallback
                   end |})) ->
  Forall P m ->
  Client.configure key fallback given m = Client.Normal m' ->
  Forall P m'.
Proof.
  intros Hp Hm. rewrite configure_outcome.
  destruct given as [config|]; [|intros [= <-]; exact Hm].
  destruct (Js.truthy (Client.apiKey config)) eqn:T; [|discriminate].
  intros [= <-]. apply mapSet_Forall; [exact Hm|].
  apply Hp, truthy_nonempty, T.
Qed.

Lemma bind_Normal {A B : Type} (c : Client.Completion A)
    (f : A -> Client.Completion B) (b : B) :
  c ≫= f = Client.Normal b ->
  exists a, c = Client.Normal a /\ f a = Client.Normal b.
Proof. destruct c as [a|e]; [eauto|discriminate]. Qed.

(** Every provider of a client carries the name it is stored under, a key
    and a base URL that are not empty. *)
Lemma create_entries (config : Client.AIClientConfig) (client : Client.AIClient) :
  Client.create config = Client.Normal client ->
  Forall (fun entry : string * Client.Provider =>
            Client.name entry.2 = entry.1
            /\ Client.apiKey (Client.config entry.2) <> EmptyString
            /\ Client.url entry.2 <> EmptyString) client.
Proof.
  unfold Client.create. intros H.
  apply bind_Normal in H as (m1 & H1 & H).
  apply bind_Normal in H as (m2 & H2 & H).
  apply bind_Normal in H as (m3 & H3 & H4).
  assert (forall key fallback,
             fallback <> EmptyString ->
             forall config,
               Client.apiKey config <> EmptyString ->
               (fun entry : string * Client.Provider =>
                  Client.name entry.2 = entry.1
                  /\ Client.apiKey (Client.config entry.2) <> EmptyString
                  /\ Client.url entry.2 <> EmptyString)
                 (key, {| Client.name := key;
                          Client.config := config;
                          Client.url :=
                            match Client.baseUrl config with
                            | Some u => if Js.truthy u then u else fallback
                            | None => fallback
                            end |})) as Ok.
  { intros key fallback Hf given Hk. cbn [fst snd Client.name Client.config Client.url].
    split; [reflexivity|]. split; [exact Hk|].
    destruct (Client.baseUrl given) as [u|]; [|exact Hf].
    destruct (Js.truthy u) eqn:T; [|exact Hf]. apply truthy_nonempty, T. }
  eapply configure_Forall; [| |exact H4]; [apply Ok; discriminate|].
  eapply configure_Forall; [| |exact H3]; [apply Ok; discriminate|].
  eapply configure_Forall; [| |exact H2]; [apply Ok; discriminate|].
  eapply configure_Forall; [| |exact H1]; [apply Ok; discriminate|].
  constructor.
Qed.

Lemma lookupKey_keys {A : Type} (k : string) (table : list (string * A)) :
  (exists v, lookupKey k table = Some v) <-> In k table.*1.
Proof.
  induction table as [|[k' v'] table IH]; simpl.
  - split; [intros (v & H); discriminate H|intros []].
  - destruct (String.eqb k' k) eqn:E.
    + apply String.eqb_eq in E. split; [auto|eauto].
    + apply String.eqb_neq in E. rewrite IH. split; [auto|].
      intros [H|H]; [contradiction|exact H].
Qed.

(** X25. The constructor of the client throws exactly when a
    configuration it is given has an empty key, and then with [API key is
    required]; otherwise the client holds the providers whose
    configuration was given, in the fixed order openrouter, huggingface,
    featherless, venice. *)
Theorem create_throws_iff_empty_key (config : Client.AIClientConfig) :
  ((exists error, Client.create config = Client.Throw error) <->
   exists given,
     In (Some given)
        [Client.openrouter config; Client.huggingface config;
         Client.featherless config; Client.venice config]
     /\ Client.apiKey given = EmptyString)
  /\ (forall error,
        Client.create config = Client.Throw error ->
        error = ErrorMsg "API key is required")
  /\ (forall client,
        Client.create config = Client.Normal client ->
        Client.getConfiguredProviders client =
        match Client.openrouter config with Some _ => ["openrouter"] | None => [] end
        ++ match Client.huggingface config with Some _ => ["huggingface"] | None => [] end
        ++ match Client.featherless config with Some _ => ["featherless"] | None => [] end
        ++ match Client.venice config with Some _ => ["venice"] | None => [] end).
Proof.
  destruct config as [o h f v]. unfold Client.create.
  cbn [Client.openrouter Client.huggingface Client.featherless Client.venice].
  rewrite (configure_outcome "openrouter").
  assert (forall c : Client.ProviderConfig,
             Js.truthy (Client.apiKey c) = false <-> Client.apiKey c = EmptyString)
    as Empty.
  { intros c. destruct (Client.apiKey c); simpl; split; congruence. }
  split; [|split].
  - split.
    + intros (error & H).
      destruct o as [co|];
        [destruct (Js.truthy (Client.apiKey co)) eqn:To;
         [|exists co; split; [simpl; auto|apply Empty, To]]|];
        cbn in H; rewrite (configure_outcome "huggingface") in H;
        (destruct h as [ch|];
         [destruct (Js.truthy (Client.apiKey ch)) eqn:Th;
          [|exists ch; split; [simpl; auto|apply Empty, Th]]|]);
        cbn in H; rewrite (configure_outcome "featherless") in H;
        (destruct f as [cf|];
         [destruct (Js.truthy (Client.apiKey cf)) eqn:Tf;
          [|exists cf; split; [simpl; auto|apply Empty, Tf]]|]);
        cbn in H; rewrite (configure_outcome "venice") in H;
        (destruct v as [cv|];
         [destruct (Js.truthy (Client.apiKey cv)) eqn:Tv;
          [|exists cv; split; [simpl; auto 6|apply Empty, Tv]]|]);
        discriminate H.
    + intros (given & Hin & Hk). apply Empty in Hk.
      simpl in Hin.
      destruct o as [co|];
        [destruct (Js.truthy (Client.apiKey co)) eqn:To; [|eexists; reflexivity]|];
        cbn; rewrite (configure_outcome "huggingface");
        (destruct h as [ch|];
         [destruct (Js.truthy (Client.apiKey ch)) eqn:Th; [|eexists; reflexivity]|]);
        cbn; rewrite (configure_outcome "featherless");
        (destruct f as [cf|];
         [destruct (Js.truthy (Client.apiKey cf)) eqn:Tf; [|eexists; reflexivity]|]);
        cbn; rewrite (configure_outcome "venice");
        (destruct v as [cv|];
         [destruct (Js.truthy (Client.apiKey cv)) eqn:Tv; [|eexists; reflexivity]|]);
        exfalso;
        repeat match goal with
               | H : _ \/ _ |- _ => destruct H
               | H : Some _ = Some _ |- _ => injection H as ->
               | H : None = Some _ |- _ => discriminate H
               | H : False |- _ => contradiction
               end; congruence.
  - intros error.
    destruct o as [co|]; [destruct (Js.truthy (Client.apiKey co))|];
      cbn; try (intros [= <-]; reflexivity);
      rewrite (configure_outcome "huggingface");
      (destruct h as [ch|]; [destruct (Js.truthy (Client.apiKey ch))|]);
      cbn; try (intros [= <-]; reflexivity);
      rewrite (configure_outcome "featherless");
      (destruct f as [cf|]; [destruct (Js.truthy (Client.apiKey cf))|]);
      cbn; try (intros [= <-]; reflexivity);
      rewrite (configure_outcome "venice");
      (destruct v as [cv|]; [destruct (Js.truthy (Client.apiKey cv))|]);
      cbn; try (intros [= <-]; reflexivity); discriminate.
  - intros client.
    destruct o as [co|]; [destruct (Js.truthy (Client.apiKey co))|];
      cbn; try discriminate;
      rewrite (configure_outcome "huggingface");
      (destruct h as [ch|]; [destruct (Js.truthy (Client.apiKey ch))|]);
      cbn; try discriminate;
      rewrite (configure_outcome "featherless");
      (destruct f as [cf|]; [destruct (Js.truthy (Client.apiKey cf))|]);
      cbn; try discriminate;
      rewrite (configure_outcome "venice");
      (destruct v as [cv|]; [destruct (Js.truthy (Client.apiKey cv))|]);
      cbn; try discriminate; intros [= <-]; reflexivity.
Qed.

(** X26. The three ways to ask a client about a provider agree:
    [hasProvider] holds exactly for the names [getConfiguredProviders]
    lists, and exactly then [getProvider] gives a provider; it throws
    otherwise.  The provider it gives carries the name asked for, a key
    that is not empty and a base URL that is not empty. *)
Theorem client_lookups_agree (config : Client.AIClientConfig)
    (client : Client.AIClient) (name : string) :
  Client.create config = Client.Normal client ->
  (Client.hasProvider client name = true <->
   In name (Client.getConfiguredProviders client))
  /\ (Client.hasProvider client name = true <->
      exists provider, Client.getProvider client name = Client.Normal provider)
  /\ (Client.hasProvider client name = false ->
      Client.getProvider client name
      = Client.Throw (ErrorMsg (Client.notConfigured name)))
  /\ (forall provider,
        Client.getProvider client name = Client.Normal provider ->
        Client.name provider = name
        /\ Client.apiKey (Client.config provider) <> EmptyString
        /\ Client.url provider <> EmptyString).
Proof.
  intros H. apply create_entries in H.
  unfold Client.hasProvider, Client.getProvider, Client.getConfiguredProviders.
  pose proof (lookupKey_keys name client) as K.
  destruct (lookupKey name client) as [p|] eqn:L.
  - split; [split; [intros _; apply K; eauto|reflexivity]|].
    split; [split; [eauto|reflexivity]|].
    split; [discriminate|].
    intros provider [= <-]. apply lookupKey_In in L.
    exact (proj1 (List.Forall_forall _ _) H _ L).
  - split; [split; [discriminate|intros Hin; apply K in Hin as (? & [=])]|].
    split; [split; [discriminate|intros (? & [=])]|].
    split; [reflexivity|discriminate].
Qed.

Lemma configure_key (key fallback : string) (value : option string)
    (m : Client.AIClient) :
  Client.configure key fallback (Client.keyConfig value) m =
  Client.Normal
    (if Hdr.truthy value
     then Client.mapSet key
            {| Client.name := key;
               Client.config := {| Client.apiKey := default EmptyString value;
                                   Client.baseUrl := None |};
               Client.url := fallback |} m
     else m).
Proof.
  rewrite configure_outcome. unfold Client.keyConfig.
  destruct value as [k|]; [|reflexivity]. simpl.
  destruct (Js.truthy k) eqn:T; [|reflexivity].
  cbn [Client.apiKey Client.baseUrl]. rewrite T. reflexivity.
Qed.

(** X29. [AIClient.fromEnv] never throws: a variable that is missing or
    empty leaves its provider out.  The client holds the providers whose
    variable has a value, in the fixed order, and HuggingFace takes its key
    from [HUGGINGFACE_API_KEY] and, when that is missing or empty, from
    [HF_TOKEN]. *)
Theorem fromEnv_never_throws (process_env : gmap string string) :
  exists client,
    Client.fromEnv process_env = Client.Normal client
    /\ Client.getConfiguredProviders client =
       (if Hdr.truthy (process_env !! "OPENROUTER_API_KEY")
        then ["openrouter"] else [])
       ++ (if Hdr.truthy (Hdr.orElse (process_env !! "HUGGINGFACE_API_KEY")
                                     (process_env !! "HF_TOKEN"))
           then ["huggingface"] else [])
       ++ (if Hdr.truthy (process_env !! "FEATHERLESS_API_KEY")
           then ["featherless"] else [])
       ++ (if Hdr.truthy (process_env !! "VENICE_API_KEY")
           then ["venice"] else [])
    /\ (forall provider,
          Client.getProvider client "huggingface" = Client.Normal provider ->
          Some (Client.apiKey (Client.config provider))
          = Hdr.orElse (process_env !! "HUGGINGFACE_API_KEY")
                       (process_env !! "HF_TOKEN")).
Proof.
  unfold Client.fromEnv, Client.create.
  cbn [Client.openrouter Client.huggingface Client.featherless Client.venice].
  generalize (Hdr.orElse (process_env !! "HUGGINGFACE_API_KEY")
                         (process_env !! "HF_TOKEN")).
  generalize (process_env !! "OPENROUTER_API_KEY"),
             (process_env !! "FEATHERLESS_API_KEY"),
             (process_env !! "VENICE_API_KEY").
  intros o f v h.
  rewrite (configure_key "openrouter"). cbn.
  rewrite (configure_key "huggingface"). cbn.
  rewrite (configure_key "featherless"). cbn.
  rewrite (configure_key "venice").
  eexists. split; [reflexivity|].
  destruct (Hdr.truthy o), (Hdr.truthy h) eqn:Th, (Hdr.truthy f), (Hdr.truthy v);
    (split; [reflexivity|]);
    unfold Client.getProvider; cbn; intros provider E;
    try discriminate E; injection E as <-;
    cbn; destruct h as [k|]; try discriminate Th; reflexivity.
Qed.

(** X30. The library and the backend do not read the same variable for
    HuggingFace: with [HUGGINGFACE_API_KEY] set and [HF_TOKEN] not, the
    client of the library has the provider, with that key, while the
    backend reports it as not configured and its failover skips it. *)
Theorem huggingface_key_names_differ (process_env : gmap string string)
    (key : string) :
  process_env !! "HUGGINGFACE_API_KEY" = Some key ->
  key <> EmptyString ->
  process_env !! "HF_TOKEN" = None ->
  (exists client provider,
      Client.fromEnv process_env = Client.Normal client
      /\ Client.getProvider client "huggingface" = Client.Normal provider
      /\ Client.apiKey (Client.config provider) = key)
  /\ isConfigured process_env "huggingface" = false
  /\ (forall JSON_parse env w,
        tryEntry JSON_parse process_env "huggingface" env w = (Skipped, w)).
Proof.
  intros Hk Hne Ht. apply truthy_nonempty in Hne. split; [|split].
  - assert (Hdr.orElse (process_env !! "HUGGINGFACE_API_KEY")
                       (process_env !! "HF_TOKEN") = Some key) as Hh.
    { rewrite Hk. simpl. rewrite Hne. reflexivity. }
    unfold Client.fromEnv, Client.create.
    cbn [Client.openrouter Client.huggingface Client.featherless Client.venice].
    rewrite Hh.
    generalize (process_env !! "OPENROUTER_API_KEY"),
               (process_env !! "FEATHERLESS_API_KEY"),
               (process_env !! "VENICE_API_KEY").
    intros o f v.
    rewrite (configure_key "openrouter"). cbn [mbind Client.Completion_bind].
    rewrite (configure_key "huggingface"). cbn [mbind Client.Completion_bind].
    rewrite (configure_key "featherless"). cbn [mbind Client.Completion_bind].
    rewrite (configure_key "venice"). cbn [Hdr.truthy]. rewrite Hne.
    eexists. eexists. split; [reflexivity|].
    destruct (Hdr.truthy o), (Hdr.truthy f), (Hdr.truthy v);
      unfold Client.getProvider; cbn; split; reflexivity.
  - unfold isConfigured. change (envKey "huggingface") with "HF_TOKEN".
    rewrite Ht. reflexivity.
  - intros JSON_parse env w. unfold tryEntry.
    change (lookupKey "huggingface" PROVIDERS)
      with (Some (mkProviderConfig "https://router.huggingface.co/v1"
                    (mkFeatures true true false false true))).
    change (envKey "huggingface") with "HF_TOKEN".
    rewrite Ht. reflexivity.
Qed.

(** ** The further properties on closed inputs *)

(** A dispatch for OpenRouter leaves the snapshot of Venice alone. *)
Lemma fetchWithRetry_frame_witness :
  "venice" <> "openrouter"
  /\ rateLimits
       (fetchWithRetry JsonText.parse "openrouter" 0 (Ex.steady Ex.busy503)
          Case.tracked).2 !! "venice"
     = rateLimits Case.tracked !! "venice".
Proof.
  split; [discriminate|].
  apply (fetchWithRetry_frame JsonText.parse "openrouter" (Ex.steady Ex.busy503)
           0 Case.tracked "venice").
  discriminate.
Defined.

(** OpenRouter, always busy: four requests. *)
Lemma at_most_four_requests_witness :
  "openrouter" <> "featherless"
  /\ requests
       (fetchWithRetry JsonText.parse "openrouter" 0 (Ex.steady Ex.busy503) Ex.idle).2
     <= 4 + requests Ex.idle.
Proof.
  split; [discriminate|].
  apply (fetchWithRetry_at_most_four_requests JsonText.parse "openrouter"
           (Ex.steady Ex.busy503) Ex.idle).
  discriminate.
Defined.

(** A 401 is final. *)
Lemma final_response_witness :
  fetch (Ex.steady Ex.denied401) (requests Ex.idle) = Resolved Ex.denied401
  /\ ~ In (status Ex.denied401) RETRY_STATUS_CODES
  /\ fetchWithRetry JsonText.parse "openrouter" 0 (Ex.steady Ex.denied401) Ex.idle
     = (Resolved Ex.denied401,
        {| requests := 1; sleeps := [];
           rateLimits := parseRateLimitHeaders (headers Ex.denied401) "openrouter"
                           (clock (Ex.steady Ex.denied401) 0) ∅ |}).
Proof.
  assert (~ In (status Ex.denied401) RETRY_STATUS_CODES) as N.
  { intros [H|[H|[H|[H|[H|[]]]]]]; discriminate H. }
  split; [reflexivity|]. split; [exact N|].
  apply (final_response_single_request JsonText.parse "openrouter"
           (Ex.steady Ex.denied401) Ex.idle Ex.denied401 eq_refl N).
  intros E. discriminate E.
Defined.

(** Three cold responses of Featherless, then 503 for good. *)
Lemma cold_then_busy_witness :
  Forall (fun r => status r = 400%Z /\ coldBody JsonText.parse r = true)
         [Ex.cold400; Ex.cold400; Ex.cold400]
  /\ In (status Ex.busy503) RETRY_STATUS_CODES
  /\ (fetchWithRetry JsonText.parse "featherless" 0
        (Ex.after 3 Ex.cold400 Ex.busy503) Ex.idle).1 = Resolved Ex.busy503
  /\ requests
       (fetchWithRetry JsonText.parse "featherless" 0
          (Ex.after 3 Ex.cold400 Ex.busy503) Ex.idle).2 = 4 + requests Ex.idle
  /\ sleeps
       (fetchWithRetry JsonText.parse "featherless" 0
          (Ex.after 3 Ex.cold400 Ex.busy503) Ex.idle).2
     = [Ms (coldDelay 2); Ms (coldDelay 1); Ms (coldDelay 0)] ++ sleeps Ex.idle.
Proof.
  assert (Forall (fun r => status r = 400%Z /\ coldBody JsonText.parse r = true)
            [Ex.cold400; Ex.cold400; Ex.cold400]) as H by (repeat constructor).
  split; [exact H|]. split; [exact In_503|].
  exact (cold_retries_use_up_standard_retries JsonText.parse "featherless"
           (Ex.after 3 Ex.cold400 Ex.busy503) Ex.idle
           Ex.cold400 Ex.cold400 Ex.cold400 Ex.busy503
           eq_refl eq_refl eq_refl eq_refl eq_refl H In_503).
Defined.

(** [Retry-After: 120] on a first 429: two minutes. *)
Lemma retry_after_witness :
  In (status Case.limited429) RETRY_STATUS_CODES
  /\ 0 < 3
  /\ Hdr.get (headers Case.limited429) "Retry-After" = Some "120"
  /\ parseInt "120" = Some 120%Z
  /\ retryDecision JsonText.parse "openrouter" Case.limited429 0 0
     = RetryAfter (Ms (inject_Z 120000)).
Proof.
  assert (In (status Case.limited429) RETRY_STATUS_CODES) as Hs
    by (left; reflexivity).
  assert (0 < 3) as Ha by (repeat constructor).
  split; [exact Hs|]. split; [exact Ha|]. split; [reflexivity|].
  split; [reflexivity|].
  exact (retry_after_decides_delay JsonText.parse "openrouter" Case.limited429
           0 0%Q "120" 120%Z Hs Ha eq_refl ltac:(discriminate) eq_refl).
Defined.

(** A second 503 without the header, the least jitter: 1000 ms. *)
Lemma backoff_witness :
  Hdr.get (headers Ex.busy503) "Retry-After" = None
  /\ exists d,
       retryDecision JsonText.parse "openrouter" Ex.busy503 1 0 = RetryAfter (Ms d)
       /\ (d == 1000 * 2 ^ Z.of_nat 1 * ((1 # 2) + 0))%Q
       /\ (500 <= d)%Q /\ (d <= 6000)%Q.
Proof.
  split; [reflexivity|].
  apply (backoff_never_reaches_cap JsonText.parse "openrouter" Ex.busy503 1 0%Q).
  - exact In_503.
  - repeat constructor.
  - reflexivity.
  - intros [E _]. discriminate E.
  - discriminate.
  - reflexivity.
Defined.


(** A response with both headers after one with an empty limit. *)
Lemma tracker_witness :
  Hdr.get Ex.bothLimits "x-ratelimit-limit" = Some "100"
  /\ Hdr.get Ex.bothLimits "x-ratelimit-remaining" = Some "42"
  /\ parseRateLimitHeaders Ex.bothLimits "openrouter" 5
       (parseRateLimitHeaders Ex.emptyLimit "openrouter" 0 ∅)
     = parseRateLimitHeaders Ex.bothLimits "openrouter" 5 ∅.
Proof.
  split; [reflexivity|]. split; [reflexivity|].
  exact (proj1 (tracker_last_response_wins Ex.emptyLimit Ex.bothLimits
                  "openrouter" "venice" 0 5 ∅)
           "100" "42" eq_refl eq_refl ltac:(discriminate) ltac:(discriminate)).
Defined.

(** Without any variable no provider is listed, and OpenRouter is skipped. *)
Lemma providers_listed_witness :
  ~ In "openrouter" (map Health.name (availableProviders ∅))
  /\ tryEntry JsonText.parse ∅ "openrouter" (Ex.steady Ex.done200) Ex.idle
     = (Skipped, Ex.idle).
Proof.
  assert (~ In "openrouter" (map Health.name (availableProviders ∅))) as N.
  { intros H. vm_compute in H. exact H. }
  split; [exact N|].
  exact (proj2 (providers_listed_iff_configured ∅ ∅ "openrouter")
           JsonText.parse (Ex.steady Ex.done200) Ex.idle N).
Defined.

(** A list stored at 0 answers at 299999, whatever the upstream. *)
Lemma models_cached_witness :
  registered "openrouter" <> Absent
  /\ Case.stored (JArray []) 0 !! "openrouter"
     = Some {| cachedData := JArray []; fetchedAt := 0 |}
  /\ (299999 - 0 < MODEL_CACHE_TTL)%Z
  /\ models JsonText.parse "openrouter" 299999 300000 (Ex.steady Ex.busy503)
       (Case.stored (JArray []) 0) Ex.idle
     = (ModelsData (JArray []) true, Case.stored (JArray []) 0, Ex.idle).
Proof.
  assert (registered "openrouter" <> Absent) as R by discriminate.
  assert (Case.stored (JArray []) 0 !! "openrouter"
          = Some {| cachedData := JArray []; fetchedAt := 0 |}) as C
    by reflexivity.
  split; [exact R|]. split; [exact C|]. split; [reflexivity|].
  exact (proj1 (models_cached_answer JsonText.parse "openrouter" 299999 300000
                  (Ex.steady Ex.busy503) (Case.stored (JArray []) 0) Ex.idle)
           _ R C eq_refl).
Defined.

(** A list fetched and stored at 10 is the answer at 1000, with the
    upstream down. *)
Lemma models_round_trip_witness :
  models JsonText.parse "openrouter" 0 10 (Ex.steady Case.models200) ∅ Ex.idle
    = (ModelsData (JArray [JString "m"]) false,
       Case.stored (JArray [JString "m"]) 10, mkWorld 1 [] ∅)
  /\ (1000 - 10 < MODEL_CACHE_TTL)%Z
  /\ models JsonText.parse "openrouter" 1000 1001 (Ex.steady Ex.busy503)
       (Case.stored (JArray [JString "m"]) 10) Ex.idle
     = (ModelsData (JArray [JString "m"]) true,
        Case.stored (JArray [JString "m"]) 10, Ex.idle).
Proof.
  assert (models JsonText.parse "openrouter" 0 10 (Ex.steady Case.models200) ∅
            Ex.idle
          = (ModelsData (JArray [JString "m"]) false,
             Case.stored (JArray [JString "m"]) 10, mkWorld 1 [] ∅)) as E
    by reflexivity.
  split; [exact E|]. split; [reflexivity|].
  exact (models_round_trip JsonText.parse "openrouter" 0 10
           (Ex.steady Case.models200) ∅ _ Ex.idle _ _ E
           1000%Z 1001%Z (Ex.steady Ex.busy503) Ex.idle eq_refl).
Defined.

(** An upstream error leaves the cache as it was. *)
Lemma models_cache_witness :
  models JsonText.parse "openrouter" 400000 400001 (Ex.steady Ex.denied401)
    (Case.stored (JArray []) 0) Ex.idle
  = (ModelsUpstream 401 "Unauthorized" "openrouter",
     Case.stored (JArray []) 0, mkWorld 1 [] ∅)
  /\ (forall list,
        ModelsUpstream 401 "Unauthorized" "openrouter" <> ModelsData list false).
Proof.
  assert (models JsonText.parse "openrouter" 400000 400001 (Ex.steady Ex.denied401)
            (Case.stored (JArray []) 0) Ex.idle
          = (ModelsUpstream 401 "Unauthorized" "openrouter",
             Case.stored (JArray []) 0, mkWorld 1 [] ∅)) as E by reflexivity.
  split; [exact E|].
  pose proof (models_cache_integrity JsonText.parse "openrouter" 400000 400001
                (Ex.steady Ex.denied401) _ _ Ex.idle _ _ E) as (_ & _ & H).
  intros list Hl. destruct (H list Hl) as (_ & _ & Hr). discriminate Hl.
Defined.

(** Featherless generates no images. *)
Lemma images_witness :
  ~ In "featherless" ["openrouter"; "huggingface"; "venice"; "together"]
  /\ imageGenerations JsonText.parse "featherless" (Ex.steady Ex.done200) Ex.idle
     = (Refused "Image generation not supported: featherless", Ex.idle).
Proof.
  assert (~ In "featherless" ["openrouter"; "huggingface"; "venice"; "together"])
    as N.
  { intros [H|[H|[H|[H|[]]]]]; discriminate H. }
  split; [exact N|].
  exact (proj2 (images_only_for_image_providers JsonText.parse "featherless"
                  (Ex.steady Ex.done200) Ex.idle) N).
Defined.


(** The characters endpoint on a response with JSON. *)
Lemma plain_endpoints_witness :
  fetch (Ex.steady Ex.done200) (requests Ex.idle) = Resolved Ex.done200
  /\ json JsonText.parse Ex.done200 = Some (JObject [("choices", JArray [])])
  /\ (veniceCharacters JsonText.parse (Ex.steady Ex.done200) Ex.idle).1
     = Data (JObject [("choices", JArray [])]).
Proof.
  split; [reflexivity|]. split; [reflexivity|].
  destruct (plain_endpoints_one_request JsonText.parse (Ex.steady Ex.done200) Ex.idle)
    as (_ & _ & _ & H).
  exact (H Ex.done200 _ eq_refl eq_refl).
Defined.


(** On a completion that is ok the two readers give the same. *)
Lemma frontend_readers_witness :
  ok Ex.done200 = true
  /\ chatStreamViaHuggingFaceFeatherless JsonText.parse Ex.done200
     = chatStream JsonText.parse Ex.done200.
Proof.
  split; [reflexivity|].
  exact (proj2 (frontend_readers_agree JsonText.parse Ex.done200) eq_refl).
Defined.

(** The sentinel with a carriage return does not end the reading. *)
Lemma sentinel_witness :
  "data: [DONE]" +:+ Case.cr <> "data: [DONE]"
  /\ chatStream_line JsonText.parse ("data: [DONE]" +:+ Case.cr) <> Stop.
Proof.
  assert ("data: [DONE]" +:+ Case.cr <> "data: [DONE]") as N by discriminate.
  split; [exact N|].
  intros H. apply N.
  exact (proj1 (proj1 (only_exact_sentinel_stops JsonText.parse
                         ("data: [DONE]" +:+ Case.cr))) H).
Defined.

(** A line of data of a CRLF stream, indented. *)
Lemma adapter_space_witness :
  Js.trim "  " = EmptyString /\ Js.trim Case.cr = EmptyString
  /\ featherless_line JsonText.parse ("  " +:+ Ex.dataLine "Hi" +:+ Case.cr)
     = featherless_line JsonText.parse (Ex.dataLine "Hi").
Proof.
  split; [reflexivity|]. split; [reflexivity|].
  exact (adapter_ignores_surrounding_space JsonText.parse "  " (Ex.dataLine "Hi")
           Case.cr eq_refl eq_refl).
Defined.

(** A last record without its line feed. *)
Lemma unterminated_witness :
  Js.hasUnit Js.LF (Ex.dataLine "late") = false
  /\ readLines (chatStream_line JsonText.parse) EmptyString
       ([Ex.dataLine "Hi" +:+ Ex.nl] ++ [Ex.dataLine "late"])
     = readLines (chatStream_line JsonText.parse) EmptyString
         [Ex.dataLine "Hi" +:+ Ex.nl].
Proof.
  split; [reflexivity|].
  exact (unterminated_last_line_is_dropped (chatStream_line JsonText.parse)
           [Ex.dataLine "Hi" +:+ Ex.nl] (Ex.dataLine "late") eq_refl).
Defined.

(** One read that includes the comment stops the relay at once. *)
Lemma relay_witness :
  relay Ex.keepAliveWhole = ([], Stalled)
  /\ exists rest,
       Ex.keepAliveWhole = [] ++ rest
       /\ Forall (fun chunk => Js.includes chunk KEEP_ALIVE = false) []
       /\ exists chunk rest',
            rest = chunk :: rest' /\ Js.includes chunk KEEP_ALIVE = true.
Proof.
  split; [reflexivity|].
  exact (relay_pushes_up_to_keep_alive Ex.keepAliveWhole [] Stalled eq_refl).
Defined.

(** The failover path goes to the chat endpoint. *)
Lemma failover_route_witness :
  Router.matchPath
    (Router.api [Router.Lit "failover"; Router.Lit "chat"; Router.Lit "completions"])
    Case.failoverPath = Some []
  /\ exists provider,
       Router.route Router.POST Case.failoverPath = Router.ChatCompletions provider
       /\ Hdr.sameName "failover" provider = true
       /\ forall JSON_parse isStreaming env w,
            chatCompletions JSON_parse provider isStreaming env w
            = (UnknownProvider provider, w).
Proof.
  split; [reflexivity|].
  exact (proj2 (failover_route_is_shadowed Router.POST Case.failoverPath)
           [] eq_refl).
Defined.

(** The route through HuggingFace, in capitals and with a final slash. *)
Lemma fixed_routes_witness :
  Router.matchPath
    (Router.api [Router.Lit "huggingface"; Router.Lit "featherless";
                 Router.Lit "chat"; Router.Lit "completions"]) Case.hfPath
    = Some []
  /\ Router.route Router.POST Case.hfPath = Router.HfFeatherless.
Proof.
  split; [reflexivity|].
  exact (proj1 (fixed_routes_are_reached Case.hfPath []) eq_refl).
Defined.

(** A client with OpenRouter alone. *)
Lemma create_witness :
  Client.create Case.onlyOpenrouter
    = Client.Normal
        [("openrouter",
          {| Client.name := "openrouter";
             Client.config := {| Client.apiKey := "k"; Client.baseUrl := None |};
             Client.url := Client.OPENROUTER_URL |})]
  /\ Client.getConfiguredProviders
       [("openrouter",
         {| Client.name := "openrouter";
            Client.config := {| Client.apiKey := "k"; Client.baseUrl := None |};
            Client.url := Client.OPENROUTER_URL |})]
     = ["openrouter"].
Proof.
  split; [reflexivity|].
  destruct (create_throws_iff_empty_key Case.onlyOpenrouter) as (_ & _ & H).
  exact (H _ eq_refl).
Defined.

(** In that client Venice is missing. *)
Lemma client_lookups_witness :
  Client.create Case.onlyOpenrouter
    = Client.Normal
        [("openrouter",
          {| Client.name := "openrouter";
             Client.config := {| Client.apiKey := "k"; Client.baseUrl := None |};
             Client.url := Client.OPENROUTER_URL |})]
  /\ (Client.hasProvider
        [("openrouter",
          {| Client.name := "openrouter";
             Client.config := {| Client.apiKey := "k"; Client.baseUrl := None |};
             Client.url := Client.OPENROUTER_URL |})] "venice" = false ->
      Client.getProvider
        [("openrouter",
          {| Client.name := "openrouter";
             Client.config := {| Client.apiKey := "k"; Client.baseUrl := None |};
             Client.url := Client.OPENROUTER_URL |})] "venice"
      = Client.Throw (ErrorMsg (Client.notConfigured "venice"))).
Proof.
  split; [reflexivity|].
  destruct (client_lookups_agree Case.onlyOpenrouter _ "venice" eq_refl)
    as (_ & _ & H & _).
  exact H.
Defined.

(** An identifier that contains a listed one. *)
Lemma vision_list_witness :
  In "google/gemma-3-27b-it"
     ["google/gemma-3-27b-it"; "mistralai/Mistral-Small-3.1-24B-Instruct-2503"]
  /\ Vision.id Case.abliterated = "x/" +:+ "google/gemma-3-27b-it" +:+ "-abliterated"
  /\ Vision.isVisionModel Case.abliterated
       (Some ["google/gemma-3-27b-it";
              "mistralai/Mistral-Small-3.1-24B-Instruct-2503"]) = true.
Proof.
  assert (In "google/gemma-3-27b-it"
             ["google/gemma-3-27b-it";
              "mistralai/Mistral-Small-3.1-24B-Instruct-2503"]) as H
    by (left; reflexivity).
  split; [exact H|]. split; [reflexivity|].
  exact (proj1 (vision_list_matches_inside Case.abliterated _)
           "google/gemma-3-27b-it" "x/" "-abliterated" H eq_refl).
Defined.

(** [VL] in capitals. *)
Lemma vision_pattern_witness :
  In "vl" Vision.visionPatterns
  /\ Hdr.toLowerCase "VL" = "vl"
  /\ Vision.id Case.qwen = "Qwen2-" +:+ "VL" +:+ "-7B"
  /\ Vision.isVisionModel Case.qwen None = true.
Proof.
  assert (In "vl" Vision.visionPatterns) as H by (right; left; reflexivity).
  split; [exact H|]. split; [reflexivity|]. split; [reflexivity|].
  exact (vision_pattern_in_any_case Case.qwen None "vl" "Qwen2-" "VL" "-7B"
           H eq_refl eq_refl).
Defined.

(** Only [HUGGINGFACE_API_KEY] set: the client has HuggingFace alone. *)
Lemma fromEnv_witness :
  exists client,
    Client.fromEnv Case.libraryKey = Client.Normal client
    /\ Client.getConfiguredProviders client = ["huggingface"].
Proof.
  destruct (fromEnv_never_throws Case.libraryKey) as (client & E & K & _).
  exists client. split; [exact E|exact K].
Defined.

(** And the backend does not see it. *)
Lemma huggingface_key_witness :
  Case.libraryKey !! "HUGGINGFACE_API_KEY" = Some "k"
  /\ Case.libraryKey !! "HF_TOKEN" = None
  /\ isConfigured Case.libraryKey "huggingface" = false.
Proof.
  split; [reflexivity|]. split; [reflexivity|].
  exact (proj1 (proj2 (huggingface_key_names_differ Case.libraryKey "k"
                         eq_refl ltac:(discriminate) eq_refl))).
Defined.
